(** * Image logical operations

    A shallow embedding of the image tool: the processing core of
    [src/image_processor.py], and from [src/file_handler.py],
    [src/error_handler.py] and [src/app.py] the code that decides what
    reaches the core and what the user is told.  The classes keep constants
    and no other state, so every method becomes a function.  NumPy arrays
    are records of a shape, an element type and the elements in row-major
    order; Python exceptions are an explicit outcome; messages shown with
    Streamlit are returned as a list.  The OpenCV routines the code calls
    ([cv2.resize] with [INTER_AREA], [cv2.cvtColor], [cv2.threshold] with
    [THRESH_BINARY], [cv2.bitwise_and]/[cv2.bitwise_or]) are modelled in
    module [cv2] from OpenCV's documented behaviour, the PIL conversions in
    module [PIL]. *)

From Stdlib Require Import String.
From Stdlib Require Import Ascii.
From Stdlib Require Import ZArith List Bool Lia SpecFloat.
Import ListNotations.
Local Open Scope Z_scope.

(** ** Outcomes of a Python call *)

(** The exceptions the modelled code can raise. *)
Inductive exn : Type :=
| cv2_error          (* cv2.error: an OpenCV assertion failed *)
| ZeroDivisionError
| ValueError         (* unpacking a shape with fewer than two entries *)
| IndexError.        (* indexing a shape out of range *)

(** A call returns a value or raises.  [Unmodelled] marks arguments on which
    the behaviour of OpenCV is not described in module [cv2] below (arrays it
    cannot read as a matrix, enlarging with [INTER_AREA]); no PixelBuffer
    reaches it. *)
Inductive outcome (A : Type) : Type :=
| Ok (v : A)
| Raise (e : exn)
| Unmodelled.

Arguments Ok {A} v.
Arguments Raise {A} e.
Arguments Unmodelled {A}.

Definition bind {A B : Type} (c : outcome A) (k : A -> outcome B) : outcome B :=
  match c with
  | Ok v => k v
  | Raise e => Raise e
  | Unmodelled => Unmodelled
  end.

Notation "x <- c ;; k" := (bind c (fun x => k))
  (at level 61, c at next level, right associativity).
Notation "' p <- c ;; k" := (bind c (fun x => let p := x in k))
  (at level 61, p pattern, c at next level, right associativity).

(** ** Python floats

    [resize_if_needed] computes its scale factor in Python floats, that is in
    IEEE 754 binary64 with round-to-nearest, ties-to-even.  A float is kept as
    a signed mantissa and a binary exponent.  Only the operations the method
    uses are here: true division of two integers, [min], the product of an
    integer and a float, and [int()].  Every quantity the method can form
    from array dimensions lies far inside the normal range, so the exponent
    range (subnormals, overflow) is not represented.  [cv2.resize] forms
    its scale factors in C doubles, the same format. *)
Module PyFloat.

Record float : Type := mk { mant : Z; expo : Z }.

Definition prec : Z := 53.

(** [rne a b]: the integer nearest to [a / b] ([b > 0]), ties to even. *)
Definition rne (a b : Z) : Z :=
  let q := a / b in
  let r := a mod b in
  match 2 * r ?= b with
  | Lt => q
  | Gt => q + 1
  | Eq => if Z.even q then q else q + 1
  end.

(** [scaled n d e] is the fraction [n / (d * 2^e)] as a pair of integers. *)
Definition scaled (n d e : Z) : Z * Z :=
  if 0 <=? e then (n, d * 2 ^ e) else (n * 2 ^ (- e), d).

(** [ilog2_ratio n d = floor (log2 (n / d))] for positive [n] and [d]. *)
Definition ilog2_ratio (n d : Z) : Z :=
  let k := Z.log2 n - Z.log2 d in
  let '(a, b) := scaled n d k in
  if b <=? a then k else k - 1.

(** The float nearest to [n / d], for positive [n] and [d]: the mantissa
    has [prec] bits (one more when rounding carries into the next binade,
    which denotes the same number). *)
Definition round_pos (n d : Z) : float :=
  let e := ilog2_ratio n d - (prec - 1) in
  let '(a, b) := scaled n d e in
  mk (rne a b) e.

(** The float nearest to [n / d] for any [n] and any [d <> 0]. *)
Definition round_ratio (n d : Z) : float :=
  if n =? 0 then mk 0 0
  else
    let r := round_pos (Z.abs n) (Z.abs d) in
    mk (Z.sgn n * Z.sgn d * mant r) (expo r).

(** [a / b] on Python integers. *)
Definition truediv (a b : Z) : outcome float :=
  if b =? 0 then Raise ZeroDivisionError else Ok (round_ratio a b).

(** [float(i)]. *)
Definition of_int (i : Z) : float := round_ratio i 1.

(** [x * y] on floats: the exact product, rounded. *)
Definition mul (x y : float) : float :=
  let m := mant x * mant y in
  let e := expo x + expo y in
  let '(n, d) := scaled m 1 (- e) in
  round_ratio n d.

(** [i * x] for an integer [i]: Python converts [i] first. *)
Definition mul_int (i : Z) (x : float) : float := mul (of_int i) x.

Definition compare (x y : float) : comparison :=
  let e := Z.min (expo x) (expo y) in
  (mant x * 2 ^ (expo x - e)) ?= (mant y * 2 ^ (expo y - e)).

Definition ltb (x y : float) : bool :=
  match compare x y with Lt => true | _ => false end.

(** [min(x, y)]: Python returns the first of the smallest. *)
Definition min (x y : float) : float := if ltb y x then y else x.

(** [int(x)]: truncation towards zero. *)
Definition int (x : float) : Z :=
  if 0 <=? expo x then mant x * 2 ^ expo x
  else Z.quot (mant x) (2 ^ (- expo x)).

(** [x <= y] for two floats of non-positive exponent, cross-multiplied. *)
Definition fle (x y : float) : Prop :=
  mant x * 2 ^ (- expo y) <= mant y * 2 ^ (- expo x).

End PyFloat.

(** ** NumPy arrays *)

(** The integer element types OpenCV can hold. *)
Inductive dtype : Type := uint8 | int8 | uint16 | int16 | int32.

Definition dtype_eqb (a b : dtype) : bool :=
  match a, b with
  | uint8, uint8 | int8, int8 | uint16, uint16 | int16, int16 | int32, int32 => true
  | _, _ => false
  end.

(** [str(img.dtype)]. *)
Definition dtype_name (d : dtype) : String.string :=
  match d with
  | uint8 => "uint8"%string
  | int8 => "int8"%string
  | uint16 => "uint16"%string
  | int16 => "int16"%string
  | int32 => "int32"%string
  end.

(** [img.shape], [img.dtype] and the elements of [img] in row-major order
    (for a colour image: row by row, pixel by pixel, channel by channel). *)
Record ndarray : Type := mk_ndarray {
  shape : list Z;
  dtype_of : dtype;
  data : list Z
}.

(** [0, 1, ..., n - 1]. *)
Definition zrange (n : Z) : list Z := map Z.of_nat (seq 0 (Z.to_nat n)).

Definition zsum (l : list Z) : Z := fold_right Z.add 0 l.

Definition zprod (l : list Z) : Z := fold_right Z.mul 1 l.

(** [shape[i]]. *)
Definition shape_index (img : ndarray) (i : nat) : outcome Z :=
  match nth_error (shape img) i with
  | Some n => Ok n
  | None => Raise IndexError
  end.

(** [h, w = img.shape[:2]]. *)
Definition shape_hw (img : ndarray) : outcome (Z * Z) :=
  match shape img with
  | h :: w :: _ => Ok (h, w)
  | _ => Raise ValueError
  end.

(** [len(img.shape)]. *)
Definition ndim (img : ndarray) : Z := Z.of_nat (length (shape img)).

(** [img.size]. *)
Definition size (img : ndarray) : Z := zprod (shape img).

(** [img.copy()]. *)
Definition copy (img : ndarray) : ndarray := img.

(** [img.astype(np.uint8)] on an integer array: a C cast, which keeps the low
    eight bits. *)
Definition astype_uint8 (img : ndarray) : ndarray :=
  mk_ndarray (shape img) uint8 (map (fun v => v mod 256) (data img)).

(** ** The OpenCV routines the class calls *)
Module cv2.

(** How the binding reads an array as a matrix: rows, columns, channels.
    Rows and columns are C [int]s, a third axis of at most [CV_CN_MAX = 512]
    entries is the channel axis.  Other arrays are not modelled. *)
Definition int_max : Z := 2 ^ 31 - 1.

Definition mat_dims (img : ndarray) : option (Z * Z * Z) :=
  match shape img with
  | [h; w] =>
      if (0 <=? h) && (h <=? int_max) && (0 <=? w) && (w <=? int_max)
      then Some (h, w, 1) else None
  | [h; w; c] =>
      if (0 <=? h) && (h <=? int_max) && (0 <=? w) && (w <=? int_max)
         && (1 <=? c) && (c <=? 512)
      then Some (h, w, c) else None
  | _ => None
  end.

(** The shape of the array the binding returns for a matrix: a matrix of one
    channel comes back two-dimensional. *)
Definition mat_shape (h w c : Z) : list Z :=
  if c =? 1 then [h; w] else [h; w; c].

(** [Size::empty()]. *)
Definition size_empty (h w : Z) : bool := (h <=? 0) || (w <=? 0).

(** *** [cv2.resize(img, (dw, dh), interpolation=cv2.INTER_AREA)] *)

Definition clamp (lo hi t : Z) : Z := Z.max lo (Z.min hi t).

(** The source cells that destination cell [di] covers along one axis, when
    [sn] source cells are mapped onto [dn <= sn] destination cells, each
    with the length of the overlap (in units of [1 / dn] of a source cell,
    so that the overlaps of one destination cell add up to [sn]). *)
Definition cover (dn sn di : Z) : list (Z * Z) :=
  let lo := di * sn in
  let hi := (di + 1) * sn in
  let s0 := lo / dn in
  let s1 := (hi + dn - 1) / dn in
  map (fun k => let si := s0 + k in
                (si, clamp lo hi ((si + 1) * dn) - clamp lo hi (si * dn)))
      (zrange (s1 - s0)).

(** The overlap-weighted sum of channel [ch] over the source cells under
    one destination cell. *)
Definition area_sum (src : list Z) (sw c : Z) (cy cx : list (Z * Z)) (ch : Z) : Z :=
  zsum (map (fun '(sy, wy) =>
    zsum (map (fun '(sx, wx) =>
      wy * wx * nth (Z.to_nat ((sy * sw + sx) * c + ch)) src 0) cx)) cy).

(** Area averaging: every destination element is the mean of the source
    elements under it, weighted by overlap and rounded to the nearest
    integer, ties to even.  This is the mean OpenCV approximates, not its
    arithmetic: OpenCV forms the weights and the sum in single precision,
    and when it halves both sides it adds 2 to the sum of the four elements
    and shifts, which rounds a tie up.  An element computed here can
    therefore differ by one from the element OpenCV returns; the size, the
    element type and the channels of the result do not depend on it. *)
Definition inter_area (src : list Z) (sh sw c dh dw : Z) : list Z :=
  flat_map (fun dy =>
    flat_map (fun dx =>
      map (fun ch =>
             PyFloat.rne (area_sum src sw c (cover dh sh dy) (cover dw sw dx) ch)
                         (sh * sw))
          (zrange c))
      (zrange dw))
    (zrange dh).

(** The element types [INTER_AREA] is implemented for. *)
Definition area_depth (d : dtype) : bool :=
  match d with
  | uint8 | uint16 | int16 => true
  | int8 | int32 => false
  end.

(** [cvRound]: the nearest integer, ties to even. *)
Definition cvRound (x : PyFloat.float) : Z :=
  if 0 <=? PyFloat.expo x then PyFloat.mant x * 2 ^ PyFloat.expo x
  else PyFloat.rne (PyFloat.mant x) (2 ^ (- PyFloat.expo x)).

(** The factor by which [sn] source cells shrink to [dn], as [resize]
    computes it in C doubles: [inv_scale = (double)dn / sn], then
    [scale = 1. / inv_scale]. *)
Definition axis_scale (dn sn : Z) : PyFloat.float :=
  let inv_scale := PyFloat.round_ratio dn sn in
  let '(n, d) := PyFloat.scaled 1 (PyFloat.mant inv_scale) (PyFloat.expo inv_scale) in
  PyFloat.round_ratio n d.

(** [std::abs(scale - iscale) < DBL_EPSILON] with
    [iscale = saturate_cast<int>(scale)], that is [cvRound]; the difference
    of a double and the integer nearest to it is exact, and [DBL_EPSILON]
    is [2^-52]. *)
Definition integer_scale (scale : PyFloat.float) : bool :=
  if 0 <=? PyFloat.expo scale then true
  else
    let p := 2 ^ (- PyFloat.expo scale) in
    Z.abs (PyFloat.mant scale - cvRound scale * p) * 2 ^ 52 <? p.

(** [is_area_fast]: both sides shrink by a whole factor. *)
Definition is_area_fast (sh sw dh dw : Z) : bool :=
  integer_scale (axis_scale dw sw) && integer_scale (axis_scale dh sh).

(** [resize] asserts that neither the source nor the requested size is
    empty, copies when the two sizes agree, and otherwise resamples.  With
    [INTER_AREA] it averages areas when it shrinks along both axes, which
    is the only way the class calls it; enlarging is not modelled.  Area
    averaging asserts an element type it is implemented for and, unless
    both sides shrink by a whole factor, at most four channels. *)
Definition resize (img : ndarray) (dsize : Z * Z) : outcome ndarray :=
  let '(dw, dh) := dsize in
  match mat_dims img with
  | None => Unmodelled
  | Some (sh, sw, c) =>
      if size_empty sh sw then Raise cv2_error
      else if size_empty dh dw then Raise cv2_error
      else if (dh =? sh) && (dw =? sw)
      then Ok (mk_ndarray (mat_shape dh dw c) (dtype_of img) (data img))
      else if negb (area_depth (dtype_of img)) then Raise cv2_error
      else if (dh <=? sh) && (dw <=? sw)
      then if is_area_fast sh sw dh dw || (c <=? 4)
           then Ok (mk_ndarray (mat_shape dh dw c) (dtype_of img)
                               (inter_area (data img) sh sw c dh dw))
           else Raise cv2_error
      else Unmodelled
  end.

(** *** [cv2.cvtColor(img, cv2.COLOR_BGR2GRAY)] *)

(** OpenCV's 8-bit luma: the weights 0.114, 0.587 and 0.299 for blue, green
    and red in 15-bit fixed point, rounded. *)
Definition BY15 : Z := 3735.
Definition GY15 : Z := 19235.
Definition RY15 : Z := 9798.
Definition gray_shift : Z := 15.

Definition luma (b g r : Z) : Z :=
  Z.shiftr (b * BY15 + g * GY15 + r * RY15 + Z.shiftl 1 (gray_shift - 1)) gray_shift.

(** One gray value per pixel; a fourth channel is ignored. *)
Definition gray_data (src : list Z) (h w c : Z) : list Z :=
  map (fun i => let p := Z.to_nat (i * c) in
                luma (nth p src 0) (nth (S p) src 0) (nth (S (S p)) src 0))
      (zrange (h * w)).

(** [cvtColor] asserts a non-empty source of three or four channels.  The
    class calls it on [uint8] arrays only (after [astype]); other element
    types are not modelled. *)
Definition cvtColor_BGR2GRAY (img : ndarray) : outcome ndarray :=
  match mat_dims img with
  | None => Unmodelled
  | Some (h, w, c) =>
      if negb (dtype_eqb (dtype_of img) uint8) then Unmodelled
      else if size_empty h w then Raise cv2_error
      else if negb ((c =? 3) || (c =? 4)) then Raise cv2_error
      else Ok (mk_ndarray [h; w] uint8 (gray_data (data img) h w c))
  end.

(** *** [cv2.threshold(img, thresh, maxval, cv2.THRESH_BINARY)] *)

(** Returns the pair of the threshold used and the thresholded array:
    [maxval] where the element is greater than [thresh], 0 elsewhere.  From
    an empty source no array is obtained: the call fails, or, where the
    binding hands back [None] in place of the empty matrix, the one use the
    class makes of it, as an operand of [bitwise_and] or [bitwise_or],
    fails.  Both are [cv2.error], and nothing the class does in between
    can tell them apart, so the failure is recorded here.  The class calls
    [threshold] on [uint8] arrays only; other element types are not
    modelled. *)
Definition threshold_BINARY (img : ndarray) (thresh maxval : Z) : outcome (Z * ndarray) :=
  match mat_dims img with
  | None => Unmodelled
  | Some (h, w, c) =>
      if negb (dtype_eqb (dtype_of img) uint8) then Unmodelled
      else if size_empty h w then Raise cv2_error
      else Ok (thresh,
               mk_ndarray (mat_shape h w c) uint8
                          (map (fun v => if v >? thresh then maxval else 0) (data img)))
  end.

(** *** [cv2.bitwise_and(a, b)] and [cv2.bitwise_or(a, b)] *)

Fixpoint map2 (f : Z -> Z -> Z) (xs ys : list Z) : list Z :=
  match xs, ys with
  | x :: xs', y :: ys' => f x y :: map2 f xs' ys'
  | _, _ => []
  end.

Definition shape_eqb (s t : list Z) : bool :=
  if list_eq_dec Z.eq_dec s t then true else false.

(** Element by element on two arrays of the same size and type.  The class
    calls them on two non-empty [uint8] arrays of one shape; the rest is
    not modelled. *)
Definition bitwise (f : Z -> Z -> Z) (a b : ndarray) : outcome ndarray :=
  match mat_dims a, mat_dims b with
  | Some (h, w, c), Some _ =>
      if negb (dtype_eqb (dtype_of a) uint8 && dtype_eqb (dtype_of b) uint8) then Unmodelled
      else if negb (shape_eqb (shape a) (shape b)) then Unmodelled
      else if size_empty h w then Unmodelled
      else Ok (mk_ndarray (mat_shape h w c) uint8 (map2 f (data a) (data b)))
  | _, _ => Unmodelled
  end.

Definition bitwise_and : ndarray -> ndarray -> outcome ndarray := bitwise Z.land.
Definition bitwise_or : ndarray -> ndarray -> outcome ndarray := bitwise Z.lor.

(** *** [cv2.cvtColor(img, cv2.COLOR_BGR2RGB)] *)

(** Pixel by pixel, the first and the third channel change places. *)
Fixpoint swap_rb (src : list Z) : list Z :=
  match src with
  | x :: y :: z :: rest => z :: y :: x :: swap_rb rest
  | _ => []
  end.

(** The same on four channels, dropping the fourth. *)
Fixpoint swap_rb_drop (src : list Z) : list Z :=
  match src with
  | x :: y :: z :: _ :: rest => z :: y :: x :: swap_rb_drop rest
  | _ => []
  end.

(** [COLOR_BGR2RGB] and [COLOR_RGB2BGR] are one conversion code.  Like
    [COLOR_BGR2GRAY] it asserts a non-empty source of three or four
    channels; the result has three.  Element types other than [uint8] are
    not modelled. *)
Definition cvtColor_BGR2RGB (img : ndarray) : outcome ndarray :=
  match mat_dims img with
  | None => Unmodelled
  | Some (h, w, c) =>
      if negb (dtype_eqb (dtype_of img) uint8) then Unmodelled
      else if size_empty h w then Raise cv2_error
      else if c =? 3 then Ok (mk_ndarray [h; w; 3] uint8 (swap_rb (data img)))
      else if c =? 4 then Ok (mk_ndarray [h; w; 3] uint8 (swap_rb_drop (data img)))
      else Raise cv2_error
  end.

Definition cvtColor_RGB2BGR : ndarray -> outcome ndarray := cvtColor_BGR2RGB.

End cv2.

(** ** [class ImageProcessor] *)

(** [self.max_dimension] and [self.max_file_size], set once in [__init__]. *)
Definition max_dimension : Z := 2048.
Definition max_file_size : Z := 10 * 1024 * 1024.

(** [resize_if_needed]: shrink an image one of whose sides exceeds
    [max_dimension]. *)
Definition resize_if_needed (img : ndarray) : outcome ndarray :=
  '(height, width) <- shape_hw img ;;
  if (height >? max_dimension) || (width >? max_dimension) then
    sy <- PyFloat.truediv max_dimension height ;;
    sx <- PyFloat.truediv max_dimension width ;;
    let scale := PyFloat.min sy sx in
    let new_width := PyFloat.int (PyFloat.mul_int width scale) in
    let new_height := PyFloat.int (PyFloat.mul_int height scale) in
    cv2.resize img (new_width, new_height)
  else Ok img.

(** [optimize_memory_usage]: shrink if needed, then force [uint8]. *)
Definition optimize_memory_usage (img : ndarray) : outcome ndarray :=
  img <- resize_if_needed img ;;
  if negb (dtype_eqb (dtype_of img) uint8) then Ok (astype_uint8 img) else Ok img.

(** [resize_to_match]: bring two images to one size, the smaller along each
    axis. *)
Definition resize_to_match (img1 img2 : ndarray) : outcome (ndarray * ndarray) :=
  '(h1, w1) <- shape_hw img1 ;;
  '(h2, w2) <- shape_hw img2 ;;
  if (h1 =? h2) && (w1 =? w2) then Ok (img1, img2)
  else
    let target_height := Z.min h1 h2 in
    let target_width := Z.min w1 w2 in
    resized_img1 <- cv2.resize img1 (target_width, target_height) ;;
    resized_img2 <- cv2.resize img2 (target_width, target_height) ;;
    Ok (resized_img1, resized_img2).

(** [convert_to_binary]: gray, then threshold at 127. *)
Definition convert_to_binary (img : ndarray) : outcome ndarray :=
  gray <- (if ndim img =? 3 then cv2.cvtColor_BGR2GRAY img else Ok (copy img)) ;;
  '(_, binary) <- cv2.threshold_BINARY gray 127 255 ;;
  Ok binary.

(** [validate_dimensions]: [img1.shape == img2.shape]. *)
Definition validate_dimensions (img1 img2 : ndarray) : bool :=
  cv2.shape_eqb (shape img1) (shape img2).

(** [logical_and]. *)
Definition logical_and (img1 img2 : ndarray) : outcome ndarray :=
  '(img1, img2) <- resize_to_match img1 img2 ;;
  img1 <- optimize_memory_usage img1 ;;
  img2 <- optimize_memory_usage img2 ;;
  binary1 <- convert_to_binary img1 ;;
  binary2 <- convert_to_binary img2 ;;
  cv2.bitwise_and binary1 binary2.

(** [union_operation]. *)
Definition union_operation (img1 img2 : ndarray) : outcome ndarray :=
  '(img1, img2) <- resize_to_match img1 img2 ;;
  img1 <- optimize_memory_usage img1 ;;
  img2 <- optimize_memory_usage img2 ;;
  binary1 <- convert_to_binary img1 ;;
  binary2 <- convert_to_binary img2 ;;
  cv2.bitwise_or binary1 binary2.

(** The dictionary [get_image_info] returns. *)
Record image_info : Type := mk_info {
  info_shape : list Z;
  info_height : Z;
  info_width : Z;
  info_channels : Z;
  info_dtype : String.string;
  info_size : Z
}.

(** [get_image_info]. *)
Definition get_image_info (img : ndarray) : outcome image_info :=
  height <- shape_index img 0 ;;
  width <- shape_index img 1 ;;
  channels <- (if ndim img =? 2 then Ok (ndim img) else shape_index img 2) ;;
  Ok (mk_info (shape img) height width channels (dtype_name (dtype_of img)) (size img)).

(** ** Python strings

    A [str] is kept as the bytes of its UTF-8 encoding, which equality,
    substring tests, splitting and concatenation respect.  [lower] is
    [str.lower] on ASCII letters and leaves every other byte alone; Python
    also lowers cased letters beyond ASCII, to text that is again beyond
    ASCII or holds a [k] or an [i], so the comparison with [png], [jpg] and
    [jpeg] that the handler makes comes out the same. *)
Module PyStr.

(** [sub in s]. *)
Fixpoint contains (sub s : string) : bool :=
  if String.prefix sub s then true
  else match s with
       | EmptyString => false
       | String _ s' => contains sub s'
       end.

(** [s.split(sep)] for a non-empty [sep], scanning from the left: the piece
    before the next occurrence of [sep] and the pieces after it.  [skip]
    counts the characters of an occurrence still to pass over. *)
Fixpoint split_from (sep s : string) (skip : nat) : string * list string :=
  match s with
  | EmptyString => (EmptyString, [])
  | String c s' =>
      match skip with
      | S k => split_from sep s' k
      | O =>
          if String.prefix sep s
          then let '(p, ps) := split_from sep s' (String.length sep - 1) in
               (EmptyString, p :: ps)
          else let '(p, ps) := split_from sep s' 0 in
               (String c p, ps)
      end
  end.

Definition split (sep s : string) : list string :=
  let '(p, ps) := split_from sep s 0 in p :: ps.

Definition lower_char (c : ascii) : ascii :=
  let n := nat_of_ascii c in
  if ((65 <=? n) && (n <=? 90))%nat then ascii_of_nat (n + 32) else c.

(** [s.lower()]. *)
Fixpoint lower (s : string) : string :=
  match s with
  | EmptyString => EmptyString
  | String c s' => String (lower_char c) (lower s')
  end.

End PyStr.

(** ** The PIL images the file handler passes around *)
Module PIL.

(** The modes the handler's own conversions produce or that the model of
    [convert] reads; every other mode ([1], [P], [LA], [CMYK], ...) is
    [other]. *)
Inductive mode : Type := L | RGB | RGBA | other (name : string).

(** [im.mode], [im.size] (width first) and the pixels row by row, band by
    band. *)
Record Image : Type := mk { mode_of : mode; size : Z * Z; pixels : list Z }.

Definition bands (m : mode) : Z :=
  match m with
  | L => 1
  | RGB => 3
  | RGBA => 4
  | other _ => 0
  end.

Definition is_RGB (m : mode) : bool :=
  match m with RGB => true | _ => false end.

Fixpoint drop_alpha (src : list Z) : list Z :=
  match src with
  | r :: g :: b :: _ :: rest => r :: g :: b :: drop_alpha rest
  | _ => []
  end.

(** [im.convert('RGB')]: a gray value is repeated on the three bands, the
    alpha band is dropped.  Other modes are not modelled. *)
Definition convert_RGB (im : Image) : outcome Image :=
  match mode_of im with
  | L => Ok (mk RGB (size im) (flat_map (fun v => [v; v; v]) (pixels im)))
  | RGB => Ok im
  | RGBA => Ok (mk RGB (size im) (drop_alpha (pixels im)))
  | other _ => Unmodelled
  end.

(** [np.array(im)]: height first, one axis more when there are several
    bands. *)
Definition to_array (im : Image) : outcome ndarray :=
  let '(w, h) := size im in
  match mode_of im with
  | L => Ok (mk_ndarray [h; w] uint8 (pixels im))
  | RGB => Ok (mk_ndarray [h; w; 3] uint8 (pixels im))
  | RGBA => Ok (mk_ndarray [h; w; 4] uint8 (pixels im))
  | other _ => Unmodelled
  end.

(** [Image.fromarray(arr, mode=m)] on a non-empty [uint8] array whose shape
    fits the mode; [m = None] lets the shape decide.  The rest is not
    modelled. *)
Definition fromarray (arr : ndarray) (m : option mode) : outcome Image :=
  if negb (dtype_eqb (dtype_of arr) uint8) then Unmodelled
  else
    match shape arr, m with
    | [h; w], Some L | [h; w], None =>
        if (0 <? h) && (0 <? w) then Ok (mk L (w, h) (data arr)) else Unmodelled
    | [h; w; c], Some RGB =>
        if (0 <? h) && (0 <? w) && (c =? 3) then Ok (mk RGB (w, h) (data arr)) else Unmodelled
    | [h; w; c], None =>
        if (0 <? h) && (0 <? w) && (c =? 3) then Ok (mk RGB (w, h) (data arr))
        else if (0 <? h) && (0 <? w) && (c =? 4) then Ok (mk RGBA (w, h) (data arr))
        else Unmodelled
    | _, _ => Unmodelled
    end.

(** What [Image.open] makes of the bytes of an upload: an image, or an
    exception with its text. *)
Inductive opened : Type :=
| image (im : Image)
| failure (text : string).

End PIL.

(** ** What the user sees *)

(** The Streamlit calls the handlers below make. *)
Module st.
Inductive call : Type :=
| error (body : string)
| success (body : string)
| spinner (text : string).
End st.

(** One effect of a handler: a Streamlit call, or a line on standard
    output. *)
Inductive effect : Type :=
| display (c : st.call)
| print (line : string).

(** What a handler inspects of the exception it is given:
    [isinstance(error, ValueError)], [type(error).__name__] and
    [str(error)]. *)
Record exception : Type := mk_exception {
  is_ValueError : bool;
  type_name : string;
  text : string
}.

Definition newline : string := String (ascii_of_nat 10) EmptyString.

(** ** [class ErrorHandler] *)

(** [log_error]. *)
Definition log_error (error : exception) (context : string) : list effect :=
  let error_info :=
    ("錯誤上下文: " ++ context ++ newline
     ++ "錯誤類型: " ++ type_name error ++ newline
     ++ "錯誤訊息: " ++ text error ++ newline)%string in
  [print ("[ERROR] " ++ error_info)%string].

(** [handle_processing_error].  The inner [try] guards a call of [st.error],
    which does not raise here. *)
Definition handle_processing_error (error : exception) : list effect :=
  if is_ValueError error then
    if PyStr.contains "圖像尺寸不匹配" (text error) then
      let error_str := text error in
      if PyStr.contains "vs" error_str then
        let shapes := PyStr.split "vs" error_str in
        if (length shapes =? 2)%nat then
          [display (st.error "❌ 圖像尺寸不匹配，請確保兩個圖像具有相同的尺寸。")]
        else []
      else [display (st.error "❌ 圖像尺寸不匹配")]
    else [display (st.error ("❌ 處理錯誤: " ++ text error))]
  else
    display (st.error ("❌ 未預期的錯誤: " ++ text error))
    :: log_error error "圖像處理".

(** [display_success_message]. *)
Definition display_success_message (message : string) : list effect :=
  [display (st.success message)].

(** ** [class FileHandler] *)

(** A Streamlit [UploadedFile], as far as the handler reads it: its name, and
    what [Image.open] makes of the bytes [read()] returns. *)
Module UploadedFile.
Record t : Type := mk { name : string; opened : PIL.opened }.
End UploadedFile.

(** [self.supported_formats]. *)
Definition supported_formats : list string := [".png"; ".jpg"; ".jpeg"]%string.

(** [validate_image_format]: the text after the last dot decides. *)
Definition validate_image_format (uploaded_file : option UploadedFile.t) : bool :=
  match uploaded_file with
  | None => false
  | Some f =>
      let file_extension :=
        ("." ++ PyStr.lower (last (PyStr.split "." (UploadedFile.name f)) ""))%string in
      existsb (String.eqb file_extension) supported_formats
  end.

(** [convert_pil_to_numpy]: [np.array(pil_image)]. *)
Definition convert_pil_to_numpy (pil_image : PIL.Image) : outcome ndarray :=
  PIL.to_array pil_image.

(** [convert_numpy_to_pil]. *)
Definition convert_numpy_to_pil (np_image : ndarray) : outcome PIL.Image :=
  match shape np_image with
  | [_; _] => PIL.fromarray np_image (Some PIL.L)
  | [_; _; 3] =>
      rgb_image <- cv2.cvtColor_BGR2RGB np_image ;;
      PIL.fromarray rgb_image (Some PIL.RGB)
  | _ => PIL.fromarray np_image None
  end.

Section Handlers.

(** [str(e)] for the exceptions of the model; the wording of OpenCV's is
    left open. *)
Variable str : exn -> string.

Definition exception_of (e : exn) : exception :=
  match e with
  | cv2_error => mk_exception false "error" (str e)
  | ZeroDivisionError => mk_exception false "ZeroDivisionError" (str e)
  | ValueError => mk_exception true "ValueError" (str e)
  | IndexError => mk_exception false "IndexError" (str e)
  end.

(** [load_image_from_upload]: [Image.open], the conversion to RGB, and the
    channel swap for OpenCV; every exception ends in [None] and a
    message. *)
Definition load_image_from_upload (uploaded_file : option UploadedFile.t)
  : outcome (option ndarray * list effect) :=
  match uploaded_file with
  | None => Ok (None, [])
  | Some f =>
      match UploadedFile.opened f with
      | PIL.failure e =>
          Ok (None, [display (st.error ("載入圖像失敗: " ++ e))])
      | PIL.image pil_image =>
          match
            pil_image <- (if negb (PIL.is_RGB (PIL.mode_of pil_image))
                          then PIL.convert_RGB pil_image else Ok pil_image) ;;
            np_image <- convert_pil_to_numpy pil_image ;;
            cv2.cvtColor_RGB2BGR np_image
          with
          | Ok cv_image => Ok (Some cv_image, [])
          | Raise e => Ok (None, [display (st.error ("載入圖像失敗: " ++ str e))])
          | Unmodelled => Unmodelled
          end
      end
  end.

(** ** [class ImageLogicalOperationsApp] *)

(** [handle_operation]: both [except] clauses do the same. *)
Definition handle_operation (img1 img2 : ndarray) (operation_type : string)
  : outcome (option ndarray * list effect) :=
  let spinner := display (st.spinner "正在處理圖像...") in
  let attempt (op : ndarray -> ndarray -> outcome ndarray) (done : string) :=
    match op img1 img2 with
    | Ok result => Ok (Some result, spinner :: display_success_message done)
    | Raise e => Ok (None, spinner :: handle_processing_error (exception_of e))
    | Unmodelled => Unmodelled
    end in
  if (operation_type =? "邏輯AND運算")%string then
    attempt logical_and "邏輯AND運算完成！"%string
  else if (operation_type =? "聯合運算（OR）")%string then
    attempt union_operation "聯合運算完成！"%string
  else Ok (None, [spinner; display (st.error "未知的運算類型")]).

End Handlers.

(** ** The buffers of the specification *)

Definition is_u8 (v : Z) : bool := (0 <=? v) && (v <=? 255).

(** Height and width are positive and fit the C [int]s OpenCV keeps them in. *)
Definition dims_ok (h w : Z) : bool :=
  (0 <? h) && (h <=? cv2.int_max) && (0 <? w) && (w <=? cv2.int_max).

(** [n] elements, each an 8-bit unsigned integer. *)
Definition content_ok (img : ndarray) (n : Z) : bool :=
  dtype_eqb (dtype_of img) uint8
  && (Z.of_nat (length (data img)) =? n)
  && forallb is_u8 (data img).

(** A PixelBuffer: a two-dimensional (grayscale) array or a
    height x width x 3 array of 8-bit unsigned integers, of positive height
    and width. *)
Definition valid_buffer (img : ndarray) : bool :=
  match shape img with
  | [h; w] => dims_ok h w && content_ok img (h * w)
  | [h; w; c] => (c =? 3) && dims_ok h w && content_ok img (h * w * 3)
  | _ => false
  end.

(** (height, width) of a buffer. *)
Definition hw (img : ndarray) : Z * Z :=
  match shape img with
  | h :: w :: _ => (h, w)
  | _ => (0, 0)
  end.

(** The channel count: 1 for a two-dimensional array, the length of the
    third axis otherwise. *)
Definition channel_count (img : ndarray) : Z :=
  match shape img with
  | [_; _; c] => c
  | _ => 1
  end.


(** A BinaryBuffer holds 0 and 255 only. *)
Definition binary_value (v : Z) : bool := (v =? 0) || (v =? 255).

(** The height and width [resize_if_needed] leaves an [h] x [w] image with. *)
Definition clamped_hw (h w : Z) : Z * Z :=
  if (h >? max_dimension) || (w >? max_dimension) then
    let scale := PyFloat.min (PyFloat.round_ratio max_dimension h)
                             (PyFloat.round_ratio max_dimension w) in
    (PyFloat.int (PyFloat.mul_int h scale), PyFloat.int (PyFloat.mul_int w scale))
  else (h, w).

(** The reconciled size of two buffers: the smaller height and the smaller
    width, then the size ceiling. *)
Definition target_hw (a b : ndarray) : Z * Z :=
  let '(h1, w1) := hw a in
  let '(h2, w2) := hw b in
  clamped_hw (Z.min h1 h2) (Z.min w1 w2).

(** *** Binarization as the specification words it *)

(** The gray value of the pixel in row [y] and column [x]: the element itself
    in a single-channel buffer, the luma of its three channels (stored blue,
    green, red) in a colour buffer. *)
Definition gray_at (img : ndarray) (y x : Z) : Z :=
  match shape img with
  | [_; w; c] =>
      let p := Z.to_nat ((y * w + x) * c) in
      (nth p (data img) 0 * 3735 + nth (S p) (data img) 0 * 19235
       + nth (S (S p)) (data img) 0 * 9798 + 16384) / 32768
  | [_; w] => nth (Z.to_nat (y * w + x)) (data img) 0
  | _ => 0
  end.

(** Values above 127 become 255, the others 0. *)
Definition threshold_127 (v : Z) : Z := if v >? 127 then 255 else 0.

(** ** Notions the results are stated with *)

(** The body [logical_and] and [union_operation] share, with the final
    bitwise operator left open. *)
Definition pipeline (op : ndarray -> ndarray -> outcome ndarray)
    (img1 img2 : ndarray) : outcome ndarray :=
  '(img1, img2) <- resize_to_match img1 img2 ;;
  img1 <- optimize_memory_usage img1 ;;
  img2 <- optimize_memory_usage img2 ;;
  binary1 <- convert_to_binary img1 ;;
  binary2 <- convert_to_binary img2 ;;
  op binary1 binary2.

(** A non-empty [uint8] array that OpenCV reads as an [h] x [w] matrix of
    [c] channels. *)
Definition mat_u8 (img : ndarray) (h w c : Z) : Prop :=
  dtype_of img = uint8 /\ cv2.mat_dims img = Some (h, w, c) /\ 0 < h /\ 0 < w.

(** Such a matrix in the form the binding returns it: two-dimensional when it
    has one channel. *)
Definition pixel_matrix (img : ndarray) (h w c : Z) : Prop :=
  mat_u8 img h w c /\ shape img = cv2.mat_shape h w c.

(** The gray values [convert_to_binary] thresholds. *)
Definition grays (img : ndarray) : list Z :=
  match shape img with
  | [h; w; c] => cv2.gray_data (data img) h w c
  | _ => data img
  end.

(** [resized a a']: [a'] comes from [a] by successful calls of [cv2.resize]. *)
Inductive resized : ndarray -> ndarray -> Prop :=
| resized_refl img : resized img img
| resized_step img dsize img' img'' :
    cv2.resize img dsize = Ok img' -> resized img' img'' -> resized img img''.

(** The array holds as many elements as its matrix has. *)
Definition well_formed (img : ndarray) : Prop :=
  match cv2.mat_dims img with
  | Some (h, w, c) => Z.of_nat (length (data img)) = h * w * c
  | None => True
  end.



(** The planes the final operator combines. *)
Definition bits (img : ndarray) : list Z := map threshold_127 (grays img).

(** An operator that keeps 0s and 255s. *)
Definition keeps_binary (f : Z -> Z -> Z) : Prop :=
  forall x y, x = 0 \/ x = 255 -> y = 0 \/ y = 255 -> f x y = 0 \/ f x y = 255.

(** The Streamlit calls among the effects of a handler. *)
Definition shown (l : list effect) : list st.call :=
  flat_map (fun e => match e with display c => [c] | print _ => [] end) l.

(** What PIL hands over: a mode the model reads, a positive size within
    OpenCV's reach, and one value of eight bits per pixel and band. *)
Definition pil_valid (im : PIL.Image) : bool :=
  let '(w, h) := PIL.size im in
  (1 <=? PIL.bands (PIL.mode_of im)) && dims_ok h w
  && (Z.of_nat (length (PIL.pixels im)) =? h * w * PIL.bands (PIL.mode_of im))
  && forallb is_u8 (PIL.pixels im).

(** *** Sample buffers *)

(** A grayscale image 2049 pixels high and [w] wide, every pixel [v]. *)
Definition thin_gray (w v : Z) : ndarray :=
  mk_ndarray [2049; w] uint8 (repeat v (Z.to_nat (2049 * w))).

(** The buffers of the specification's first scenario. *)
Definition white_4x4 : ndarray := mk_ndarray [4; 4] uint8 (repeat 255 16).
Definition black_2x2 : ndarray := mk_ndarray [2; 2] uint8 (repeat 0 4).

Definition checker_2x2 : ndarray := mk_ndarray [2; 2] uint8 [0; 255; 255; 0].

(** A 2 x 2 colour image: blue, green, red and white pixels. *)
Definition bgr_2x2 : ndarray :=
  mk_ndarray [2; 2; 3] uint8 [255; 0; 0;  0; 255; 0;  0; 0; 255;  255; 255; 255].

Definition int32_row : ndarray := mk_ndarray [1; 2] int32 [256; 300].


Definition white_2x2 : ndarray := mk_ndarray [2; 2] uint8 (repeat 255 4).

(** A grayscale scan of two pixels, uploaded under an upper-case
    extension. *)
Definition gray_scan : PIL.Image := PIL.mk PIL.L (2, 1) [0; 255].
Definition scan_upload : UploadedFile.t := UploadedFile.mk "scan.PNG" (PIL.image gray_scan).

(** *** The size ceiling in the Standard Library's binary64

    The scale computation of [resize_if_needed] written with [SFdiv],
    [SFmul] and [SFltb] at precision 53, to check [PyFloat] against. *)

Definition sf_of_int (i : Z) : spec_float := binary_normalize 53 1024 i 0 false.

Definition sf_min (x y : spec_float) : spec_float :=
  if SFltb y x then y else x.

Definition sf_int (x : spec_float) : Z :=
  match x with
  | S754_finite s m e =>
      let n := if 0 <=? e then Z.pos m * 2 ^ e else Z.quot (Z.pos m) (2 ^ (- e)) in
      if s then - n else n
  | _ => 0
  end.

Definition binary64_clamped_hw (h w : Z) : Z * Z :=
  if (h >? max_dimension) || (w >? max_dimension) then
    let scale := sf_min (SFdiv 53 1024 (sf_of_int max_dimension) (sf_of_int h))
                        (SFdiv 53 1024 (sf_of_int max_dimension) (sf_of_int w)) in
    (sf_int (SFmul 53 1024 (sf_of_int h) scale), sf_int (SFmul 53 1024 (sf_of_int w) scale))
  else (h, w).

(** Sizes to compare the two on: squares, thin strips, odd ratios. *)
Definition sample_sizes : list (Z * Z) :=
  [(2049, 2049); (3000, 3000); (4096, 4096); (6000, 4000); (2500, 1777);
   (2049, 1); (1, 2049); (3000, 1); (3000, 2); (4096, 2); (4097, 2);
   (2048, 2049); (2049, 2048); (5000, 3); (12345, 6789); (99999, 7);
   (2147483647, 2147483647); (2147483647, 1048576); (1000000, 489);
   (7001, 7000); (2050, 1025); (65536, 4099); (3333, 3334); (2048, 2048)].

(** * Results *)

(** ** Python floats: rounding and the size ceiling *)

Module PyFloatFacts.
Import PyFloat.

Lemma rne_le_int a b K : 0 < b -> a <= K * b -> rne a b <= K.
Proof.
  intros Hb Ha. unfold rne.
  assert (Hq : a / b <= K) by (apply Z.div_le_upper_bound; lia).
  pose proof (Z.mod_pos_bound a b Hb) as Hr.
  pose proof (Z.div_mod a b ltac:(lia)) as Hdm.
  destruct (Z.eq_dec (a / b) K) as [E|E].
  - assert (a mod b = 0) by nia.
    replace (2 * (a mod b) ?= b) with Lt; [lia|].
    symmetry. apply Z.compare_lt_iff. lia.
  - destruct (2 * (a mod b) ?= b); [destruct (Z.even (a / b))| |]; lia.
Qed.

Lemma rne_nonneg a b : 0 <= a -> 0 < b -> 0 <= rne a b.
Proof.
  intros Ha Hb. unfold rne.
  assert (0 <= a / b) by (apply Z.div_pos; lia).
  destruct (2 * (a mod b) ?= b); [destruct (Z.even (a / b))| |]; lia.
Qed.

Lemma rne_upper a b : 0 < b -> rne a b * b <= a + b.
Proof.
  intros Hb. unfold rne.
  pose proof (Z.mod_pos_bound a b Hb) as Hr.
  pose proof (Z.div_mod a b ltac:(lia)) as Hdm.
  destruct (2 * (a mod b) ?= b); [destruct (Z.even (a / b))| |]; nia.
Qed.

Lemma rne_unit a : rne a 1 = a.
Proof.
  unfold rne. rewrite Z.mod_1_r, Z.div_1_r. reflexivity.
Qed.

Lemma expo_round_pos n d :
  expo (round_pos n d) <= Z.log2 n - Z.log2 d - 52.
Proof.
  unfold round_pos, ilog2_ratio, prec.
  destruct (scaled n d (Z.log2 n - Z.log2 d)) as [a b].
  destruct (b <=? a);
    match goal with |- context [scaled ?x ?y ?z] => destruct (scaled x y z) end;
    simpl; lia.
Qed.

Lemma mant_round_pos n d :
  expo (round_pos n d) <= 0 ->
  mant (round_pos n d) = rne (n * 2 ^ (- expo (round_pos n d))) d.
Proof.
  unfold round_pos, prec.
  set (e := ilog2_ratio n d - (53 - 1)).
  unfold scaled. destruct (0 <=? e) eqn:He; simpl; intros H.
  - apply Z.leb_le in He. assert (e = 0) by lia.
    replace e with 0 by lia. simpl. rewrite !Z.mul_1_r. reflexivity.
  - reflexivity.
Qed.

Lemma round_ratio_pos n d : 0 < n -> 0 < d -> round_ratio n d = round_pos n d.
Proof.
  intros Hn Hd. unfold round_ratio.
  destruct (n =? 0) eqn:E; [apply Z.eqb_eq in E; lia|].
  rewrite (Z.abs_eq n), (Z.abs_eq d) by lia.
  rewrite (Z.sgn_pos n), (Z.sgn_pos d) by lia.
  destruct (round_pos n d) as [m e]. simpl. f_equal. destruct m; reflexivity.
Qed.


Lemma compare_cross x y :
  expo x <= 0 -> expo y <= 0 ->
  compare x y = (mant x * 2 ^ (- expo y) ?= mant y * 2 ^ (- expo x)).
Proof.
  intros Hx Hy. unfold compare.
  set (e := Z.min (expo x) (expo y)).
  assert (He : e <= expo x /\ e <= expo y /\ 0 <= e - expo x - expo y) by (unfold e; lia).
  set (P := 2 ^ (e - expo x - expo y)).
  assert (HP : 0 < P) by (apply Z.pow_pos_nonneg; lia).
  replace (mant x * 2 ^ (- expo y)) with (mant x * 2 ^ (expo x - e) * P).
  2:{ unfold P. rewrite <- Z.mul_assoc, <- Z.pow_add_r by lia. do 2 f_equal. lia. }
  replace (mant y * 2 ^ (- expo x)) with (mant y * 2 ^ (expo y - e) * P).
  2:{ unfold P. rewrite <- Z.mul_assoc, <- Z.pow_add_r by lia. do 2 f_equal. lia. }
  destruct (Z.compare_spec (mant x * 2 ^ (expo x - e)) (mant y * 2 ^ (expo y - e)));
    symmetry; [apply Z.compare_eq_iff|apply Z.compare_lt_iff|apply Z.compare_gt_iff]; nia.
Qed.

Lemma mant_round_pos_nonneg n d : 0 <= n -> 0 < d -> 0 <= mant (round_pos n d).
Proof.
  intros Hn Hd. unfold round_pos, scaled.
  set (e := ilog2_ratio n d - (prec - 1)).
  destruct (0 <=? e) eqn:E; simpl; apply rne_nonneg.
  - lia.
  - apply Z.leb_le in E. apply Z.mul_pos_pos; [lia|]. apply Z.pow_pos_nonneg; lia.
  - apply Z.mul_nonneg_nonneg; [lia|]. apply Z.pow_nonneg. lia.
  - lia.
Qed.

Lemma int_nonneg x : 0 <= mant x -> 0 <= int x.
Proof.
  intros H. unfold int. destruct (0 <=? expo x) eqn:E.
  - apply Z.mul_nonneg_nonneg; [lia|]. apply Z.pow_nonneg. lia.
  - apply Z.leb_gt in E. apply Z.quot_pos; [lia|]. apply Z.pow_pos_nonneg; lia.
Qed.

Lemma min_cases x y :
  expo x <= 0 -> expo y <= 0 ->
  (min x y = x \/ min x y = y) /\ fle (min x y) x /\ fle (min x y) y.
Proof.
  intros Hx Hy. unfold min, ltb. rewrite (compare_cross y x Hy Hx).
  destruct (Z.compare_spec (mant y * 2 ^ (- expo x)) (mant x * 2 ^ (- expo y)));
    unfold fle; repeat split; auto; lia.
Qed.

Lemma log2_2048 : Z.log2 2048 = 11.
Proof. reflexivity. Qed.

(** What [2048 / v] rounds to, for a dimension [v]. *)
Lemma scale_facts v :
  0 < v ->
  let s := round_pos 2048 v in
  expo s <= -41 /\ 0 <= mant s
  /\ mant s * v <= 2048 * 2 ^ (- expo s) + v
  /\ 2 * v <= 2 ^ (- expo s)
  /\ (2048 <= v -> mant s <= 2 ^ (- expo s)).
Proof.
  intros Hv s.
  pose proof (expo_round_pos 2048 v) as He. fold s in He. rewrite log2_2048 in He.
  pose proof (Z.log2_nonneg v) as Hl.
  assert (He0 : expo s <= 0) by lia.
  pose proof (mant_round_pos 2048 v He0) as Hm. fold s in Hm.
  set (k := - expo s) in *.
  assert (Hk : 0 < 2 ^ k) by (apply Z.pow_pos_nonneg; lia).
  split; [lia|]. split; [rewrite Hm; apply rne_nonneg; lia|].
  split; [rewrite Hm; apply rne_upper; lia|].
  split.
  - destruct (Z.log2_spec v Hv) as [_ Hu].
    assert (2 ^ (41 + Z.log2 v) <= 2 ^ k) by (apply Z.pow_le_mono_r; lia).
    rewrite Z.pow_add_r in H by lia.
    rewrite Z.pow_succ_r in Hu by lia.
    assert (4 <= 2 ^ 41) by (vm_compute; discriminate).
    nia.
  - intros Hv2. rewrite Hm. apply rne_le_int; [lia|]. nia.
Qed.

(** [int(v * s)] for a dimension [v] and a scale [s] of negative exponent. *)
Lemma int_mul_int_bounds v s :
  0 < v <= cv2.int_max -> expo s <= 0 -> 0 <= mant s ->
  0 <= int (mul_int v s)
  /\ (mant s <= 2 ^ (- expo s) -> int (mul_int v s) <= v)
  /\ (2 * v * mant s <= 4097 * 2 ^ (- expo s) -> int (mul_int v s) <= 2048).
Proof.
  intros [Hv Hmax] Hes Hms. unfold mul_int, of_int.
  rewrite (round_ratio_pos v 1) by lia.
  pose proof (expo_round_pos v 1) as Hef. simpl (Z.log2 1) in Hef.
  assert (Hlv : Z.log2 v < 31).
  { apply Z.log2_lt_pow2; [lia|]. unfold cv2.int_max in Hmax. lia. }
  set (fw := round_pos v 1) in *.
  assert (Hef0 : expo fw <= 0) by lia.
  pose proof (mant_round_pos v 1 Hef0) as Hmf. fold fw in Hmf. rewrite rne_unit in Hmf.
  set (kf := - expo fw) in *. set (ks := - expo s) in *.
  assert (Hkf : 0 < 2 ^ kf) by (apply Z.pow_pos_nonneg; lia).
  assert (Hks : 0 < 2 ^ ks) by (apply Z.pow_pos_nonneg; lia).
  unfold mul. rewrite Hmf.
  replace (- (expo fw + expo s)) with (kf + ks) by (unfold kf, ks; lia).
  unfold scaled. replace (0 <=? kf + ks) with true by (symmetry; apply Z.leb_le; lia).
  rewrite Z.mul_1_l.
  set (m := v * 2 ^ kf * mant s). set (D := 2 ^ (kf + ks)).
  assert (HD : D = 2 ^ kf * 2 ^ ks) by (unfold D; apply Z.pow_add_r; lia).
  assert (HD0 : 0 < D) by nia.
  assert (Hm0 : 0 <= m) by (unfold m; nia).
  destruct (Z.eq_dec m 0) as [Em|Em].
  { rewrite Em. unfold round_ratio, int. simpl. lia. }
  rewrite (round_ratio_pos m D) by lia.
  pose proof (expo_round_pos m D) as Hex.
  assert (HlD : Z.log2 D = kf + ks) by (unfold D; apply Z.log2_pow2; lia).
  rewrite HlD in Hex.
  set (r := round_pos m D) in *.
  assert (Hint : forall N j, 0 <= j -> m * 2 ^ j <= N * D -> Z.log2 m < 52 + kf + ks - j ->
                    0 <= int r * 2 ^ j <= N).
  { intros N j Hj HN Hlog.
    assert (Hex0 : expo r <= - j) by lia.
    assert (Hr0 : expo r <= 0) by lia.
    pose proof (mant_round_pos m D Hr0) as Hmr. fold r in Hmr.
    set (kx := - expo r) in *.
    assert (Hkx : 0 < 2 ^ (kx - j)) by (apply Z.pow_pos_nonneg; lia).
    assert (Hj2 : 0 < 2 ^ j) by (apply Z.pow_pos_nonneg; lia).
    assert (Hsplit : 2 ^ kx = 2 ^ j * 2 ^ (kx - j)).
    { rewrite <- Z.pow_add_r by lia. f_equal. lia. }
    assert (Hub : mant r <= N * 2 ^ (kx - j)).
    { rewrite Hmr. apply rne_le_int; [lia|]. rewrite Hsplit. nia. }
    assert (Hlb : 0 <= mant r).
    { rewrite Hmr. apply rne_nonneg; nia. }
    unfold int.
    destruct (0 <=? expo r) eqn:E0.
    - apply Z.leb_le in E0. assert (expo r = 0) by lia. assert (j = 0) by lia. subst j.
      replace (expo r) with 0 by lia. replace (kx - 0) with 0 in Hub by lia.
      rewrite Z.pow_0_r in *. lia.
    - fold kx. assert (Hkx0 : 0 < 2 ^ kx) by (apply Z.pow_pos_nonneg; lia).
      rewrite Z.quot_div_nonneg by lia.
      assert (0 <= mant r / 2 ^ kx) by (apply Z.div_pos; lia).
      pose proof (Z.mul_div_le (mant r) (2 ^ kx) ltac:(lia)) as Hdl.
      set (q := mant r / 2 ^ kx) in *.
      split; [nia|].
      assert (q * 2 ^ j * 2 ^ (kx - j) <= N * 2 ^ (kx - j)) by (rewrite Hsplit in Hdl; nia).
      nia. }
  split; [|split].
  - apply int_nonneg. apply mant_round_pos_nonneg; lia.
  - intros Hle.
    assert (Hmv : m * 2 ^ 0 <= v * D) by (unfold m; rewrite HD, Z.pow_0_r; nia).
    assert (Z.log2 m < 31 + (kf + ks)).
    { apply Z.log2_lt_pow2; [lia|]. rewrite Z.pow_add_r by lia. fold D.
      assert (v < 2 ^ 31) by (unfold cv2.int_max in Hmax; lia). rewrite Z.pow_0_r in Hmv. nia. }
    destruct (Hint v 0 ltac:(lia) Hmv ltac:(lia)) as [_ H1]. rewrite Z.pow_0_r in H1. lia.
  - intros Hle.
    assert (Hmv : m * 2 ^ 1 <= 4097 * D) by (unfold m; rewrite HD, Z.pow_1_r; nia).
    assert (Z.log2 m < 12 + (kf + ks)).
    { apply Z.log2_lt_pow2; [lia|]. rewrite Z.pow_add_r by lia. fold D.
      rewrite Z.pow_1_r in Hmv. assert (2 ^ 12 = 4096) by reflexivity. nia. }
    destruct (Hint 4097 1 ltac:(lia) Hmv ltac:(lia)) as [_ H1]. rewrite Z.pow_1_r in H1. lia.
Qed.


(** [min] of the two scale factors: its exponent is negative, it is at most 1,
    and scaling either dimension by it stays within 2048 (up to the slack the
    rounding of the product absorbs). *)
Lemma scale_min_facts h w :
  0 < h -> 0 < w -> (2048 < h \/ 2048 < w) ->
  let s := min (round_pos 2048 h) (round_pos 2048 w) in
  expo s <= 0 /\ 0 <= mant s
  /\ mant s <= 2 ^ (- expo s)
  /\ 2 * h * mant s <= 4097 * 2 ^ (- expo s)
  /\ 2 * w * mant s <= 4097 * 2 ^ (- expo s).
Proof.
  intros Hh Hw Hbig s.
  destruct (scale_facts h Hh) as (Eh & Mh & Uh & Th & Oh).
  destruct (scale_facts w Hw) as (Ew & Mw & Uw & Tw & Ow).
  set (sh := round_pos 2048 h) in *. set (sw := round_pos 2048 w) in *.
  destruct (min_cases sh sw ltac:(lia) ltac:(lia)) as (Hc & Lh & Lw).
  fold s in Hc, Lh, Lw. unfold fle in Lh, Lw.
  assert (Es : expo s <= 0) by (destruct Hc as [-> | ->]; lia).
  assert (Ms : 0 <= mant s) by (destruct Hc as [-> | ->]; lia).
  set (ks := - expo s) in *. set (kh := - expo sh) in *. set (kw := - expo sw) in *.
  assert (Pks : 0 < 2 ^ ks) by (apply Z.pow_pos_nonneg; lia).
  assert (Pkh : 0 < 2 ^ kh) by (apply Z.pow_pos_nonneg; lia).
  assert (Pkw : 0 < 2 ^ kw) by (apply Z.pow_pos_nonneg; lia).
  split; [exact Es|]. split; [exact Ms|].
  assert (B : forall v sv, 0 < v -> 0 <= mant sv -> 0 < 2 ^ (- expo sv) ->
                mant s * 2 ^ (- expo sv) <= mant sv * 2 ^ ks ->
                mant sv * v <= 2048 * 2 ^ (- expo sv) + v -> 2 * v <= 2 ^ (- expo sv) ->
                2 * v * mant s <= 4097 * 2 ^ ks).
  { intros v sv Hv Msv Pk L U T. set (k := - expo sv) in *.
    assert (2 * v * mant s * 2 ^ k <= 4097 * 2 ^ ks * 2 ^ k) by nia.
    nia. }
  split; [|split].
  - destruct Hbig as [Hb|Hb].
    + specialize (Oh ltac:(lia)). fold kh in Oh. nia.
    + specialize (Ow ltac:(lia)). fold kw in Ow. nia.
  - apply (B h sh); assumption.
  - apply (B w sw); assumption.
Qed.

Lemma clamped_hw_bounds h w :
  0 < h <= cv2.int_max -> 0 < w <= cv2.int_max ->
  0 <= fst (clamped_hw h w) <= h /\ 0 <= snd (clamped_hw h w) <= w
  /\ fst (clamped_hw h w) <= 2048 /\ snd (clamped_hw h w) <= 2048.
Proof.
  intros Hh Hw. unfold clamped_hw, max_dimension.
  destruct ((h >? 2048) || (w >? 2048)) eqn:E.
  - assert (Hbig : 2048 < h \/ 2048 < w).
    { apply orb_true_iff in E. destruct E as [E|E]; apply Z.gtb_lt in E; lia. }
    rewrite !round_ratio_pos by lia.
    destruct (scale_min_facts h w ltac:(lia) ltac:(lia) Hbig) as (Es & Ms & O & Bh & Bw).
    set (s := min (round_pos 2048 h) (round_pos 2048 w)) in *.
    destruct (int_mul_int_bounds h s Hh Es Ms) as (h0 & h1 & h2).
    destruct (int_mul_int_bounds w s Hw Es Ms) as (w0 & w1 & w2).
    simpl. specialize (h1 O). specialize (w1 O). specialize (h2 Bh). specialize (w2 Bw). lia.
  - apply orb_false_iff in E. destruct E as [E1 E2].
    rewrite Z.gtb_ltb in E1, E2. apply Z.ltb_ge in E1, E2.
    simpl. lia.
Qed.

End PyFloatFacts.

Import PyFloatFacts.

(** ** The pipeline, step by step *)

Ltac conj := repeat match goal with |- _ /\ _ => split end.

Lemma logical_and_combine a b : logical_and a b = pipeline cv2.bitwise_and a b.
Proof. reflexivity. Qed.

Lemma union_operation_combine a b : union_operation a b = pipeline cv2.bitwise_or a b.
Proof. reflexivity. Qed.

Lemma resized_trans a b c : resized a b -> resized b c -> resized a c.
Proof.
  induction 1; intros; [assumption|]. eapply resized_step; eauto.
Qed.

Lemma resized_one img dsize img' : cv2.resize img dsize = Ok img' -> resized img img'.
Proof. intros R. eapply resized_step; [exact R|apply resized_refl]. Qed.

(** *** Matrices *)

Lemma size_empty_pos h w : 0 < h -> 0 < w -> cv2.size_empty h w = false.
Proof.
  intros. unfold cv2.size_empty. apply orb_false_iff. split; apply Z.leb_gt; lia.
Qed.

Lemma size_empty_false h w : cv2.size_empty h w = false -> 0 < h /\ 0 < w.
Proof.
  unfold cv2.size_empty. intros E. apply orb_false_iff in E. destruct E as [E1 E2].
  apply Z.leb_gt in E1, E2. lia.
Qed.

Lemma mat_dims_inv img h w c :
  cv2.mat_dims img = Some (h, w, c) ->
  0 <= h <= cv2.int_max /\ 0 <= w <= cv2.int_max /\ 1 <= c <= 512
  /\ (shape img = [h; w] /\ c = 1 \/ shape img = [h; w; c]).
Proof.
  unfold cv2.mat_dims.
  destruct (shape img) as [|h0 [|w0 [|c0 [|]]]]; try discriminate.
  - destruct (_ && _) eqn:E; [|discriminate]. intros H. inversion H; subst.
    repeat (apply andb_true_iff in E; destruct E as [E ?]).
    rewrite Z.leb_le in *. conj; auto; lia.
  - destruct (_ && _) eqn:E; [|discriminate]. intros H. inversion H; subst.
    repeat (apply andb_true_iff in E; destruct E as [E ?]).
    rewrite Z.leb_le in *. conj; auto; lia.
Qed.

Lemma mat_dims_shape s t d h w c :
  0 <= h <= cv2.int_max -> 0 <= w <= cv2.int_max -> 1 <= c <= 512 ->
  s = cv2.mat_shape h w c ->
  cv2.mat_dims (mk_ndarray s t d) = Some (h, w, c).
Proof.
  intros Bh Bw Bc ->. unfold cv2.mat_dims, cv2.mat_shape. simpl.
  assert (E : (0 <=? h) && (h <=? cv2.int_max) && (0 <=? w) && (w <=? cv2.int_max) = true).
  { repeat (apply andb_true_iff; split); apply Z.leb_le; lia. }
  destruct (c =? 1) eqn:C.
  - apply Z.eqb_eq in C. subst c. rewrite E. reflexivity.
  - rewrite E. simpl.
    replace ((1 <=? c) && (c <=? 512)) with true; [reflexivity|].
    symmetry. apply andb_true_iff; split; apply Z.leb_le; lia.
Qed.

Lemma valid_pixel_matrix img :
  valid_buffer img = true ->
  exists c, pixel_matrix img (fst (hw img)) (snd (hw img)) c /\ (c = 1 \/ c = 3)
            /\ Z.of_nat (length (data img)) = fst (hw img) * snd (hw img) * c
            /\ Forall (fun v => 0 <= v <= 255) (data img).
Proof.
  unfold valid_buffer, hw, dims_ok, content_ok, pixel_matrix, mat_u8.
  destruct img as [s t d]. simpl.
  destruct s as [|h [|w [|c [|]]]]; try discriminate; intros H;
    repeat match goal with
           | E : _ && _ = true |- _ => apply andb_true_iff in E; destruct E
           end;
    repeat match goal with
           | E : (_ <? _) = true |- _ => apply Z.ltb_lt in E
           | E : (_ <=? _) = true |- _ => apply Z.leb_le in E
           | E : (_ =? _) = true |- _ => apply Z.eqb_eq in E
           end;
    destruct t; try discriminate;
    assert (F : Forall (fun v => 0 <= v <= 255) d)
      by (apply Forall_forall; intros v Hv;
          match goal with
          | E : forallb is_u8 d = true |- _ =>
              rewrite forallb_forall in E; specialize (E v Hv); unfold is_u8 in E;
              apply andb_true_iff in E; destruct E as [E1 E2];
              apply Z.leb_le in E1, E2; lia
          end).
  - exists 1. simpl. conj; auto; try lia.
    apply (mat_dims_shape _ _ _ h w 1); try lia. reflexivity.
  - subst c. exists 3. simpl. conj; auto; try lia.
    apply (mat_dims_shape _ _ _ h w 3); try lia. reflexivity.
Qed.

Lemma mat_u8_hw img h w c : mat_u8 img h w c -> shape_hw img = Ok (h, w) /\ hw img = (h, w).
Proof.
  intros (_ & M & _). destruct (mat_dims_inv _ _ _ _ M) as (_ & _ & _ & [[S _]|S]);
    unfold shape_hw, hw; rewrite S; auto.
Qed.

Lemma mat_u8_fun img h w c h' w' c' :
  mat_u8 img h w c -> mat_u8 img h' w' c' -> h' = h /\ w' = w /\ c' = c.
Proof.
  intros (_ & M & _) (_ & M' & _). rewrite M in M'. inversion M'. auto.
Qed.

(** *** [cv2.resize] *)

Lemma resize_Ok_inv img dsize r :
  cv2.resize img dsize = Ok r ->
  exists sh sw c,
    cv2.mat_dims img = Some (sh, sw, c)
    /\ shape r = cv2.mat_shape (snd dsize) (fst dsize) c
    /\ dtype_of r = dtype_of img
    /\ 0 < snd dsize <= sh /\ 0 < fst dsize <= sw
    /\ data r = (if (snd dsize =? sh) && (fst dsize =? sw) then data img
                 else cv2.inter_area (data img) sh sw c (snd dsize) (fst dsize)).
Proof.
  destruct dsize as [dw dh]. unfold cv2.resize. simpl.
  destruct (cv2.mat_dims img) as [[[sh sw] c]|]; [|discriminate].
  destruct (cv2.size_empty sh sw) eqn:Es; [discriminate|].
  destruct (cv2.size_empty dh dw) eqn:Ed; [discriminate|].
  apply size_empty_false in Es, Ed.
  destruct ((dh =? sh) && (dw =? sw)) eqn:E.
  - intros H. inversion H; subst. simpl. pose proof E as E0.
    apply andb_true_iff in E. destruct E as [E1 E2]. apply Z.eqb_eq in E1, E2.
    exists sh, sw, c. rewrite E0. conj; auto; lia.
  - destruct (negb (cv2.area_depth (dtype_of img))); [discriminate|].
    destruct ((dh <=? sh) && (dw <=? sw)) eqn:E'; [|discriminate].
    destruct (cv2.is_area_fast sh sw dh dw || (c <=? 4)); [|discriminate].
    intros H. inversion H; subst. simpl.
    apply andb_true_iff in E'. destruct E' as [E1 E2]. apply Z.leb_le in E1, E2.
    exists sh, sw, c. rewrite E. conj; auto; lia.
Qed.

(** [resize] on a matrix of the pipeline, never asked to enlarge. *)
Lemma resize_mat img sh sw c dh dw :
  mat_u8 img sh sw c -> c <= 4 -> dh <= sh -> dw <= sw ->
  (cv2.size_empty dh dw = true /\ cv2.resize img (dw, dh) = Raise cv2_error)
  \/ (cv2.size_empty dh dw = false
      /\ exists r, cv2.resize img (dw, dh) = Ok r /\ pixel_matrix r dh dw c).
Proof.
  intros (D & M & Ph & Pw) Hc Hh Hw.
  destruct (mat_dims_inv _ _ _ _ M) as (Bh & Bw & Bc & S).
  unfold cv2.resize. rewrite M, D. cbv beta iota.
  rewrite (size_empty_pos sh sw) by assumption.
  destruct (cv2.size_empty dh dw) eqn:Ed; [left; auto|right].
  split; [reflexivity|]. apply size_empty_false in Ed.
  assert (G : forall d, pixel_matrix (mk_ndarray (cv2.mat_shape dh dw c) uint8 d) dh dw c).
  { intros d. unfold pixel_matrix, mat_u8. simpl. conj; auto; try lia.
    apply mat_dims_shape; auto; lia. }
  destruct ((dh =? sh) && (dw =? sw)).
  - eexists. split; [reflexivity|]. apply G.
  - simpl.
    replace ((dh <=? sh) && (dw <=? sw)) with true
      by (symmetry; apply andb_true_iff; split; apply Z.leb_le; lia).
    replace (c <=? 4) with true by (symmetry; apply Z.leb_le; lia).
    rewrite orb_true_r.
    eexists. split; [reflexivity|]. apply G.
Qed.

(** *** [resize_if_needed] and [optimize_memory_usage] *)

Lemma resize_if_needed_unfold img h w :
  shape_hw img = Ok (h, w) -> h <> 0 -> w <> 0 ->
  resize_if_needed img
  = if (h >? max_dimension) || (w >? max_dimension)
    then cv2.resize img (snd (clamped_hw h w), fst (clamped_hw h w))
    else Ok img.
Proof.
  intros S Hh Hw. unfold resize_if_needed, clamped_hw. rewrite S. cbn [bind].
  destruct ((h >? max_dimension) || (w >? max_dimension)); [|reflexivity].
  unfold PyFloat.truediv.
  replace (h =? 0) with false by (symmetry; apply Z.eqb_neq; lia).
  replace (w =? 0) with false by (symmetry; apply Z.eqb_neq; lia).
  reflexivity.
Qed.

Lemma clamped_hw_small h w :
  h <= max_dimension -> w <= max_dimension -> clamped_hw h w = (h, w).
Proof.
  intros Hh Hw. unfold clamped_hw.
  replace ((h >? max_dimension) || (w >? max_dimension)) with false; [reflexivity|].
  symmetry. apply orb_false_iff. rewrite !Z.gtb_ltb. split; apply Z.ltb_ge; lia.
Qed.

Lemma resize_if_needed_small img h w :
  shape_hw img = Ok (h, w) -> h <= max_dimension -> w <= max_dimension ->
  resize_if_needed img = Ok img.
Proof.
  intros S Hh Hw. unfold resize_if_needed. rewrite S. cbn [bind].
  replace (h >? max_dimension) with false by (symmetry; rewrite Z.gtb_ltb; apply Z.ltb_ge; lia).
  replace (w >? max_dimension) with false by (symmetry; rewrite Z.gtb_ltb; apply Z.ltb_ge; lia).
  reflexivity.
Qed.

Lemma resize_if_needed_mat img h w c :
  mat_u8 img h w c -> c <= 4 ->
  let k := clamped_hw h w in
  (cv2.size_empty (fst k) (snd k) = true /\ resize_if_needed img = Raise cv2_error)
  \/ (cv2.size_empty (fst k) (snd k) = false
      /\ exists r, resize_if_needed img = Ok r /\ mat_u8 r (fst k) (snd k) c
                   /\ (r = img \/ pixel_matrix r (fst k) (snd k) c)
                   /\ resized img r).
Proof.
  intros G Hc k. pose proof G as (D & M & Ph & Pw).
  destruct (mat_dims_inv _ _ _ _ M) as (Bh & Bw & Bc & S).
  destruct (mat_u8_hw img h w c G) as [Hs _].
  pose proof (clamped_hw_bounds h w ltac:(lia) ltac:(lia)) as B. fold k in B.
  rewrite (resize_if_needed_unfold img h w Hs) by lia. fold k.
  destruct ((h >? max_dimension) || (w >? max_dimension)) eqn:E.
  - destruct (resize_mat img h w c (fst k) (snd k) G Hc ltac:(lia) ltac:(lia))
      as [?|(E' & r & R & G')]; [left; assumption|right].
    split; [exact E'|]. exists r. conj; auto. { apply G'. } eapply resized_one; eauto.
  - right. apply orb_false_iff in E. destruct E as [E1 E2].
    rewrite Z.gtb_ltb in E1, E2. apply Z.ltb_ge in E1, E2.
    unfold k. rewrite clamped_hw_small by assumption. simpl.
    split; [apply size_empty_pos; assumption|].
    exists img. conj; auto. apply resized_refl.
Qed.

Lemma optimize_memory_usage_mat img h w c :
  mat_u8 img h w c -> c <= 4 ->
  let k := clamped_hw h w in
  (cv2.size_empty (fst k) (snd k) = true /\ optimize_memory_usage img = Raise cv2_error)
  \/ (cv2.size_empty (fst k) (snd k) = false
      /\ exists r, optimize_memory_usage img = Ok r /\ resize_if_needed img = Ok r
                   /\ mat_u8 r (fst k) (snd k) c
                   /\ (r = img \/ pixel_matrix r (fst k) (snd k) c)
                   /\ resized img r).
Proof.
  intros G Hc k. unfold optimize_memory_usage.
  destruct (resize_if_needed_mat img h w c G Hc) as [[E R]|(E & r & R & G' & K & Z)]; fold k in E.
  - left. rewrite R. auto.
  - right. split; [exact E|]. exists r. rewrite R. cbn [bind].
    pose proof G' as (D & _). rewrite D. simpl. auto.
Qed.

(** *** [resize_to_match] *)

Lemma resize_to_match_mat a b ha wa ca hb wb cb :
  mat_u8 a ha wa ca -> mat_u8 b hb wb cb -> ca <= 4 -> cb <= 4 ->
  exists a1 b1,
    resize_to_match a b = Ok (a1, b1)
    /\ mat_u8 a1 (Z.min ha hb) (Z.min wa wb) ca
    /\ mat_u8 b1 (Z.min ha hb) (Z.min wa wb) cb
    /\ (a1 = a \/ pixel_matrix a1 (Z.min ha hb) (Z.min wa wb) ca)
    /\ (b1 = b \/ pixel_matrix b1 (Z.min ha hb) (Z.min wa wb) cb)
    /\ resized a a1 /\ resized b b1
    /\ (ha = hb -> wa = wb -> a1 = a /\ b1 = b).
Proof.
  intros Ga Gb Hca Hcb.
  destruct (mat_u8_hw a _ _ _ Ga) as [Sa _]. destruct (mat_u8_hw b _ _ _ Gb) as [Sb _].
  pose proof Ga as (_ & _ & Pa1 & Pa2). pose proof Gb as (_ & _ & Pb1 & Pb2).
  unfold resize_to_match. rewrite Sa, Sb. cbn [bind].
  destruct ((ha =? hb) && (wa =? wb)) eqn:E.
  - apply andb_true_iff in E. destruct E as [E1 E2]. apply Z.eqb_eq in E1, E2. subst hb wb.
    rewrite !Z.min_id. exists a, b. conj; auto using resized_refl.
  - destruct (resize_mat a ha wa ca (Z.min ha hb) (Z.min wa wb) Ga Hca ltac:(lia) ltac:(lia))
      as [[Ee _]|(_ & a1 & Ra & Ga1)].
    { rewrite size_empty_pos in Ee by lia. discriminate. }
    destruct (resize_mat b hb wb cb (Z.min ha hb) (Z.min wa wb) Gb Hcb ltac:(lia) ltac:(lia))
      as [[Ee _]|(_ & b1 & Rb & Gb1)].
    { rewrite size_empty_pos in Ee by lia. discriminate. }
    rewrite Ra, Rb. cbn [bind]. exists a1, b1. conj; auto.
    + apply Ga1.
    + apply Gb1.
    + eapply resized_one; eauto.
    + eapply resized_one; eauto.
    + intros -> ->. rewrite !Z.eqb_refl in E. discriminate.
Qed.

(** *** [convert_to_binary] *)

Lemma threshold_gray h w d :
  0 < h <= cv2.int_max -> 0 < w <= cv2.int_max ->
  cv2.threshold_BINARY (mk_ndarray [h; w] uint8 d) 127 255
  = Ok (127, mk_ndarray [h; w] uint8 (map threshold_127 d)).
Proof.
  intros Bh Bw. unfold cv2.threshold_BINARY.
  rewrite (mat_dims_shape [h; w] uint8 d h w 1) by (try reflexivity; lia).
  cbv beta iota. rewrite size_empty_pos by lia. reflexivity.
Qed.

Lemma convert_to_binary_mat img h w c :
  mat_u8 img h w c ->
  (shape img = [h; w] \/ (shape img = [h; w; c] /\ (c = 3 \/ c = 4)) ->
   convert_to_binary img = Ok (mk_ndarray [h; w] uint8 (map threshold_127 (grays img))))
  /\ (shape img = [h; w; c] -> c <> 3 -> c <> 4 -> convert_to_binary img = Raise cv2_error).
Proof.
  intros (D & M & Ph & Pw).
  destruct (mat_dims_inv _ _ _ _ M) as (Bh & Bw & Bc & _).
  unfold convert_to_binary, ndim, grays. split.
  - intros [S|[S Hc]]; rewrite S;
      cbn [length Z.of_nat Pos.of_succ_nat Pos.succ Z.eqb Pos.eqb bind].
    + unfold copy. destruct img as [s t d]. simpl in *. subst s t.
      rewrite threshold_gray by lia. reflexivity.
    + unfold cv2.cvtColor_BGR2GRAY. rewrite M, D. cbv beta iota.
      rewrite size_empty_pos by lia.
      replace ((c =? 3) || (c =? 4)) with true
        by (destruct Hc; subst c; reflexivity).
      cbn [dtype_eqb negb bind].
      rewrite threshold_gray by lia. reflexivity.
  - intros S H3 H4. rewrite S.
    cbn [length Z.of_nat Pos.of_succ_nat Pos.succ Z.eqb Pos.eqb bind].
    unfold cv2.cvtColor_BGR2GRAY. rewrite M, D. cbv beta iota.
    rewrite size_empty_pos by lia.
    replace ((c =? 3) || (c =? 4)) with false; [reflexivity|].
    symmetry. apply orb_false_iff. split; apply Z.eqb_neq; assumption.
Qed.

Lemma pixel_matrix_convert img h w c :
  pixel_matrix img h w c -> c = 1 \/ c = 3 \/ c = 4 ->
  convert_to_binary img = Ok (mk_ndarray [h; w] uint8 (map threshold_127 (grays img))).
Proof.
  intros [G S] Hc. apply (proj1 (convert_to_binary_mat img h w c G)).
  unfold cv2.mat_shape in S.
  destruct Hc as [->|[->| ->]]; simpl in S; auto.
Qed.

(** *** [cv2.bitwise_and], [cv2.bitwise_or] *)

Lemma bitwise_spec f h w d1 d2 :
  0 < h <= cv2.int_max -> 0 < w <= cv2.int_max ->
  cv2.bitwise f (mk_ndarray [h; w] uint8 d1) (mk_ndarray [h; w] uint8 d2)
  = Ok (mk_ndarray [h; w] uint8 (cv2.map2 f d1 d2)).
Proof.
  intros Bh Bw. unfold cv2.bitwise.
  rewrite (mat_dims_shape [h; w] uint8 d1 h w 1) by (try reflexivity; lia).
  rewrite (mat_dims_shape [h; w] uint8 d2 h w 1) by (try reflexivity; lia).
  cbv beta iota.
  rewrite size_empty_pos by lia. cbn [dtype_of shape data dtype_eqb andb negb].
  unfold cv2.shape_eqb. destruct (list_eq_dec Z.eq_dec [h; w] [h; w]); [reflexivity|congruence].
Qed.

(** *** The whole pipeline *)

(** A matrix that is unchanged or freshly built keeps the array form of a
    pixel matrix. *)
Lemma kept_pixel_matrix a a2 h w h2 w2 c :
  pixel_matrix a h w c -> mat_u8 a2 h2 w2 c ->
  a2 = a \/ pixel_matrix a2 h2 w2 c -> pixel_matrix a2 h2 w2 c.
Proof.
  intros [G S] G2 [->|P]; [|exact P].
  destruct (mat_u8_fun _ _ _ _ _ _ _ G G2) as (-> & -> & _). split; assumption.
Qed.

(** On two non-empty [uint8] matrices the pipeline fails in the size ceiling
    or reaches binarization with two images of the reconciled size. *)
Lemma combine_mat op a b ha wa ca hb wb cb :
  mat_u8 a ha wa ca -> mat_u8 b hb wb cb -> ca <= 4 -> cb <= 4 ->
  let k := clamped_hw (Z.min ha hb) (Z.min wa wb) in
  (cv2.size_empty (fst k) (snd k) = true /\ pipeline op a b = Raise cv2_error)
  \/ (cv2.size_empty (fst k) (snd k) = false
      /\ exists a2 b2,
           mat_u8 a2 (fst k) (snd k) ca /\ mat_u8 b2 (fst k) (snd k) cb
           /\ (a2 = a \/ pixel_matrix a2 (fst k) (snd k) ca)
           /\ (b2 = b \/ pixel_matrix b2 (fst k) (snd k) cb)
           /\ resized a a2 /\ resized b b2
           /\ (ha = hb -> wa = wb -> resize_if_needed a = Ok a2 /\ resize_if_needed b = Ok b2)
           /\ pipeline op a b
              = (binary1 <- convert_to_binary a2 ;;
                 binary2 <- convert_to_binary b2 ;;
                 op binary1 binary2)).
Proof.
  intros Ga Gb Hca Hcb k.
  destruct (resize_to_match_mat a b _ _ _ _ _ _ Ga Gb Hca Hcb)
    as (a1 & b1 & R & Ga1 & Gb1 & Ka & Kb & Za & Zb & Same).
  unfold pipeline. rewrite R. cbn [bind].
  destruct (optimize_memory_usage_mat a1 _ _ _ Ga1 Hca)
    as [[E O]|(E & a2 & Oa & Ra & Ga2 & Ka2 & Za2)]; fold k in E.
  { left. rewrite O. auto. }
  destruct (optimize_memory_usage_mat b1 _ _ _ Gb1 Hcb)
    as [[E' O]|(_ & b2 & Ob & Rb & Gb2 & Kb2 & Zb2)].
  { fold k in E'. congruence. }
  right. split; [exact E|]. exists a2, b2. fold k in Ga2, Gb2, Ka2, Kb2.
  rewrite Oa, Ob. cbn [bind].
  conj; try assumption; eauto using resized_trans.
  - destruct Ka2 as [->|]; [|right; assumption].
    destruct Ka as [->|P]; [left; reflexivity|right].
    eapply kept_pixel_matrix; eauto.
  - destruct Kb2 as [->|]; [|right; assumption].
    destruct Kb as [->|P]; [left; reflexivity|right].
    eapply kept_pixel_matrix; eauto.
  - intros e1 e2. destruct (Same e1 e2) as [-> ->]. auto.
Qed.

(** On two PixelBuffers: the size ceiling fails, or the result is the final
    operator applied to the two binarized images. *)
Lemma combine_spec op a b ha wa ca hb wb cb :
  pixel_matrix a ha wa ca -> pixel_matrix b hb wb cb ->
  (ca = 1 \/ ca = 3 \/ ca = 4) -> (cb = 1 \/ cb = 3 \/ cb = 4) ->
  let k := clamped_hw (Z.min ha hb) (Z.min wa wb) in
  (cv2.size_empty (fst k) (snd k) = true /\ pipeline op a b = Raise cv2_error)
  \/ (cv2.size_empty (fst k) (snd k) = false
      /\ exists a2 b2,
           pixel_matrix a2 (fst k) (snd k) ca /\ pixel_matrix b2 (fst k) (snd k) cb
           /\ resized a a2 /\ resized b b2
           /\ (ha = hb -> wa = wb -> resize_if_needed a = Ok a2 /\ resize_if_needed b = Ok b2)
           /\ pipeline op a b
              = op (mk_ndarray [fst k; snd k] uint8 (map threshold_127 (grays a2)))
                   (mk_ndarray [fst k; snd k] uint8 (map threshold_127 (grays b2)))).
Proof.
  intros Pa Pb Ca Cb k.
  destruct (combine_mat op a b _ _ _ _ _ _ (proj1 Pa) (proj1 Pb) ltac:(lia) ltac:(lia))
    as [?|(E & a2 & b2 & Ga2 & Gb2 & Ka & Kb & Za & Zb & Same & C)]; [left; assumption|right].
  fold k in E, Ga2, Gb2, Ka, Kb.
  split; [exact E|]. exists a2, b2.
  pose proof (kept_pixel_matrix _ _ _ _ _ _ _ Pa Ga2 Ka) as Pa2.
  pose proof (kept_pixel_matrix _ _ _ _ _ _ _ Pb Gb2 Kb) as Pb2.
  conj; try assumption.
  rewrite C, (pixel_matrix_convert a2 _ _ _ Pa2 Ca), (pixel_matrix_convert b2 _ _ _ Pb2 Cb).
  reflexivity.
Qed.

(** *** Lists *)

Lemma length_zrange n : length (zrange n) = Z.to_nat n.
Proof. unfold zrange. rewrite length_map, length_seq. reflexivity. Qed.

Lemma nth_zrange_map {A} (g : Z -> A) n k d :
  0 <= k < n -> nth (Z.to_nat k) (map g (zrange n)) d = g k.
Proof.
  intros Hk. unfold zrange. rewrite map_map.
  rewrite (nth_indep _ d (g (Z.of_nat 0))) by (rewrite length_map, length_seq; lia).
  rewrite (map_nth (fun x => g (Z.of_nat x)) (seq 0 (Z.to_nat n)) 0%nat).
  rewrite seq_nth by lia. simpl. f_equal. lia.
Qed.

Lemma In_zrange n k : In k (zrange n) <-> 0 <= k < n.
Proof.
  unfold zrange. rewrite in_map_iff. split.
  - intros (i & <- & Hi). apply in_seq in Hi. lia.
  - intros Hk. exists (Z.to_nat k). split; [lia|]. apply in_seq. lia.
Qed.

Lemma length_flat_map_const {A B} (f : A -> list B) (l : list A) (k : nat) :
  (forall x, In x l -> length (f x) = k) -> length (flat_map f l) = (length l * k)%nat.
Proof.
  induction l as [|x l IH]; intros H; simpl; [reflexivity|].
  rewrite length_app, H, IH.
  - reflexivity.
  - intros y Hy. apply H. simpl. auto.
  - simpl. auto.
Qed.

Lemma length_map2 f xs ys : length (cv2.map2 f xs ys) = Nat.min (length xs) (length ys).
Proof.
  revert ys. induction xs as [|x xs IH]; intros [|y ys]; simpl; auto.
Qed.

Lemma map2_comm f xs ys :
  (forall x y, f x y = f y x) -> cv2.map2 f xs ys = cv2.map2 f ys xs.
Proof.
  intros C. revert ys. induction xs as [|x xs IH]; intros [|y ys]; simpl; auto.
  rewrite C, IH. reflexivity.
Qed.

Lemma map2_diag f xs : (forall x, In x xs -> f x x = x) -> cv2.map2 f xs xs = xs.
Proof.
  induction xs as [|x xs IH]; intros H; simpl; [reflexivity|].
  rewrite H, IH.
  - reflexivity.
  - intros y Hy. apply H. simpl. auto.
  - simpl. auto.
Qed.

Lemma Forall_map2 (P : Z -> Prop) f xs ys :
  (forall x y, In x xs -> In y ys -> P (f x y)) -> Forall P (cv2.map2 f xs ys).
Proof.
  revert ys. induction xs as [|x xs IH]; intros [|y ys] H; simpl; constructor.
  - apply H; simpl; auto.
  - apply IH. intros. apply H; simpl; auto.
Qed.

(** *** Thresholding *)

Lemma threshold_127_cases v : threshold_127 v = 0 \/ threshold_127 v = 255.
Proof. unfold threshold_127. destruct (v >? 127); auto. Qed.

Lemma threshold_127_binary v : binary_value v = true -> threshold_127 v = v.
Proof.
  unfold binary_value, threshold_127. intros H. apply orb_true_iff in H.
  destruct H as [H|H]; apply Z.eqb_eq in H; subst; reflexivity.
Qed.

Lemma land_binary x y : (x = 0 \/ x = 255) -> (y = 0 \/ y = 255) -> Z.land x y = 0 \/ Z.land x y = 255.
Proof. intros [->| ->] [->| ->]; simpl; auto. Qed.

Lemma lor_binary x y : (x = 0 \/ x = 255) -> (y = 0 \/ y = 255) -> Z.lor x y = 0 \/ Z.lor x y = 255.
Proof. intros [->| ->] [->| ->]; simpl; auto. Qed.

Lemma In_map_threshold v l : In v (map threshold_127 l) -> v = 0 \/ v = 255.
Proof.
  intros H. apply in_map_iff in H. destruct H as (u & <- & _). apply threshold_127_cases.
Qed.

(** *** Element counts *)

Lemma length_inter_area src sh sw c dh dw :
  length (cv2.inter_area src sh sw c dh dw) = (Z.to_nat dh * (Z.to_nat dw * Z.to_nat c))%nat.
Proof.
  unfold cv2.inter_area.
  rewrite (length_flat_map_const _ _ (Z.to_nat dw * Z.to_nat c)), length_zrange; [reflexivity|].
  intros dy _.
  rewrite (length_flat_map_const _ _ (Z.to_nat c)), length_zrange; [reflexivity|].
  intros dx _. rewrite length_map, length_zrange. reflexivity.
Qed.

Lemma well_formed_resize img dsize r :
  cv2.resize img dsize = Ok r -> well_formed img -> well_formed r.
Proof.
  intros R W. destruct (resize_Ok_inv _ _ _ R) as (sh & sw & c & M & S & D & Bh & Bw & E).
  destruct (mat_dims_inv _ _ _ _ M) as (Hh & Hw & Hc & _).
  unfold well_formed in *. rewrite M in W.
  destruct r as [s t d]. simpl in *.
  rewrite (mat_dims_shape s t d (snd dsize) (fst dsize) c) by (auto; lia).
  rewrite E. destruct ((snd dsize =? sh) && (fst dsize =? sw)) eqn:Q.
  - apply andb_true_iff in Q. destruct Q as [Q1 Q2]. apply Z.eqb_eq in Q1, Q2. congruence.
  - rewrite length_inter_area. lia.
Qed.

Lemma well_formed_resized a a2 : resized a a2 -> well_formed a -> well_formed a2.
Proof.
  induction 1; intros W; [assumption|]. eauto using well_formed_resize.
Qed.

Lemma length_grays img h w c :
  pixel_matrix img h w c -> well_formed img ->
  Z.of_nat (length (grays img)) = h * w.
Proof.
  intros [(D & M & Ph & Pw) S] W. unfold well_formed in W. rewrite M in W.
  unfold grays. rewrite S. unfold cv2.mat_shape. destruct (c =? 1) eqn:C.
  - apply Z.eqb_eq in C. subst c. lia.
  - unfold cv2.gray_data. rewrite length_map, length_zrange. nia.
Qed.

Lemma target_hw_eq a b :
  target_hw a b
  = clamped_hw (Z.min (fst (hw a)) (fst (hw b))) (Z.min (snd (hw a)) (snd (hw b))).
Proof. unfold target_hw. destruct (hw a), (hw b). reflexivity. Qed.

Lemma valid_well_formed img : valid_buffer img = true -> well_formed img.
Proof.
  intros V. destruct (valid_pixel_matrix img V) as (c & [(D & M & _) _] & _ & L & _).
  unfold well_formed. rewrite M. exact L.
Qed.

(** The pipeline on two PixelBuffers, with a bitwise operator at the end. *)
Lemma valid_combine f a b :
  valid_buffer a = true -> valid_buffer b = true ->
  let k := target_hw a b in
  (fst k <= Z.min (fst (hw a)) (fst (hw b)) /\ snd k <= Z.min (snd (hw a)) (snd (hw b))
   /\ fst k <= max_dimension /\ snd k <= max_dimension)
  /\ ((cv2.size_empty (fst k) (snd k) = true /\ pipeline (cv2.bitwise f) a b = Raise cv2_error)
      \/ (cv2.size_empty (fst k) (snd k) = false
          /\ exists a2 b2 ca cb,
               pixel_matrix a2 (fst k) (snd k) ca /\ pixel_matrix b2 (fst k) (snd k) cb
               /\ resized a a2 /\ resized b b2
               /\ (hw a = hw b -> resize_if_needed a = Ok a2 /\ resize_if_needed b = Ok b2)
               /\ Z.of_nat (length (grays a2)) = fst k * snd k
               /\ Z.of_nat (length (grays b2)) = fst k * snd k
               /\ pipeline (cv2.bitwise f) a b
                  = Ok (mk_ndarray [fst k; snd k] uint8
                          (cv2.map2 f (map threshold_127 (grays a2))
                                      (map threshold_127 (grays b2)))))).
Proof.
  intros Va Vb k.
  destruct (valid_pixel_matrix a Va) as (ca & Pa & Ca & _).
  destruct (valid_pixel_matrix b Vb) as (cb & Pb & Cb & _).
  pose proof (valid_well_formed a Va) as Wa. pose proof (valid_well_formed b Vb) as Wb.
  unfold k. rewrite target_hw_eq.
  set (ha := fst (hw a)) in *. set (wa := snd (hw a)) in *.
  set (hb := fst (hw b)) in *. set (wb := snd (hw b)) in *.
  destruct (proj1 Pa) as (_ & Ma & Pha & Pwa). destruct (proj1 Pb) as (_ & Mb & Phb & Pwb).
  destruct (mat_dims_inv _ _ _ _ Ma) as (Bha & Bwa & _).
  destruct (mat_dims_inv _ _ _ _ Mb) as (Bhb & Bwb & _).
  pose proof (clamped_hw_bounds (Z.min ha hb) (Z.min wa wb) ltac:(lia) ltac:(lia)) as B.
  set (k' := clamped_hw (Z.min ha hb) (Z.min wa wb)) in *.
  split; [unfold max_dimension; lia|].
  destruct (combine_spec (cv2.bitwise f) a b ha wa ca hb wb cb Pa Pb ltac:(tauto) ltac:(tauto))
    as [?|(E & a2 & b2 & Pa2 & Pb2 & Za & Zb & Same & C)]; [left; assumption|right].
  fold k' in E, Pa2, Pb2, C. split; [exact E|].
  exists a2, b2, ca, cb. apply size_empty_false in E.
  conj; try assumption.
  - intros Q. apply Same.
    + unfold ha, hb. rewrite Q. reflexivity.
    + unfold wa, wb. rewrite Q. reflexivity.
  - eapply length_grays; eauto using well_formed_resized.
  - eapply length_grays; eauto using well_formed_resized.
  - rewrite C. apply bitwise_spec; unfold cv2.int_max in *; lia.
Qed.

Lemma Ok_inj {A} (x y : A) : Ok x = Ok y -> x = y.
Proof. intros H. inversion H. reflexivity. Qed.

(** The same, read from a returned buffer. *)
Lemma valid_combine_Ok f a b r :
  valid_buffer a = true -> valid_buffer b = true ->
  pipeline (cv2.bitwise f) a b = Ok r ->
  let k := target_hw a b in
  (fst k <= Z.min (fst (hw a)) (fst (hw b)) /\ snd k <= Z.min (snd (hw a)) (snd (hw b))
   /\ fst k <= max_dimension /\ snd k <= max_dimension)
  /\ exists xs ys,
       Z.of_nat (length xs) = fst k * snd k /\ Z.of_nat (length ys) = fst k * snd k
       /\ r = mk_ndarray [fst k; snd k] uint8
                (cv2.map2 f (map threshold_127 xs) (map threshold_127 ys)).
Proof.
  intros Va Vb R k. destruct (valid_combine f a b Va Vb) as [B [[_ E]|(_ & a2 & b2 & ca & cb & H)]];
    fold k in B.
  - rewrite E in R. discriminate.
  - split; [exact B|]. destruct H as (_ & _ & _ & _ & _ & La & Lb & C). fold k in La, Lb, C.
    rewrite C in R. apply Ok_inj in R. subst r. eauto.
Qed.

(** ** Size, values, idempotence and commutativity of the result *)

(** C3.  The buffer either operation returns for two PixelBuffers is no
    higher and no wider than either input, and neither side exceeds
    [max_dimension] = 2048. *)
Theorem combine_never_upsamples a b r :
  valid_buffer a = true -> valid_buffer b = true ->
  logical_and a b = Ok r \/ union_operation a b = Ok r ->
  exists h w,
    shape r = [h; w]
    /\ h <= Z.min (fst (hw a)) (fst (hw b)) /\ w <= Z.min (snd (hw a)) (snd (hw b))
    /\ h <= max_dimension /\ w <= max_dimension.
Proof.
  intros Va Vb [R|R];
    [rewrite logical_and_combine in R|rewrite union_operation_combine in R];
    destruct (valid_combine_Ok _ a b r Va Vb R) as (B & xs & ys & _ & _ & ->);
    exists (fst (target_hw a b)), (snd (target_hw a b)); simpl; tauto.
Qed.

(** C5.  Every element of the buffer either operation returns for two
    PixelBuffers is 0 or 255, and the buffer is a two-dimensional
    (single-channel) [uint8] array of the reconciled height and width. *)
Theorem combine_result_binary a b r :
  valid_buffer a = true -> valid_buffer b = true ->
  logical_and a b = Ok r \/ union_operation a b = Ok r ->
  Forall (fun v => v = 0 \/ v = 255) (data r)
  /\ shape r = [fst (target_hw a b); snd (target_hw a b)]
  /\ dtype_of r = uint8
  /\ Z.of_nat (length (data r)) = fst (target_hw a b) * snd (target_hw a b).
Proof.
  intros Va Vb [R|R];
    [rewrite logical_and_combine in R|rewrite union_operation_combine in R];
    destruct (valid_combine_Ok _ a b r Va Vb R) as (B & xs & ys & Lx & Ly & ->); simpl;
    (conj; auto;
     [apply Forall_map2; intros x y Hx Hy;
      apply In_map_threshold in Hx; apply In_map_threshold in Hy;
      auto using land_binary, lor_binary
     |rewrite length_map2, !length_map; lia]).
Qed.

(** C7.  On a single-channel binary buffer no side of which exceeds 2048,
    both operations applied to the buffer and itself return the buffer. *)
Theorem combine_idempotent x h w :
  valid_buffer x = true -> shape x = [h; w] ->
  h <= max_dimension -> w <= max_dimension ->
  forallb binary_value (data x) = true ->
  logical_and x x = Ok x /\ union_operation x x = Ok x.
Proof.
  intros V S Hh Hw Bin.
  assert (Hhw : hw x = (h, w)) by (unfold hw; rewrite S; reflexivity).
  assert (K : target_hw x x = (h, w)).
  { rewrite target_hw_eq, Hhw. simpl. rewrite !Z.min_id. apply clamped_hw_small; assumption. }
  assert (R : resize_if_needed x = Ok x).
  { destruct (valid_pixel_matrix x V) as (c & [G _] & _).
    destruct (mat_u8_hw x _ _ _ G) as [Hs _]. destruct G as (_ & _ & Ph & Pw).
    rewrite (resize_if_needed_unfold x _ _ Hs) by lia.
    rewrite Hhw. simpl.
    replace ((h >? max_dimension) || (w >? max_dimension)) with false; [reflexivity|].
    symmetry. apply orb_false_iff. rewrite !Z.gtb_ltb. split; apply Z.ltb_ge; lia. }
  assert (D : dtype_of x = uint8).
  { destruct (valid_pixel_matrix x V) as (c & [(D & _) _] & _). exact D. }
  assert (T : map threshold_127 (grays x) = data x).
  { unfold grays. rewrite S. rewrite forallb_forall in Bin.
    rewrite <- (map_id (data x)) at 2. apply map_ext_in.
    intros v Hv. apply threshold_127_binary. auto. }
  assert (Q : forall f, (forall v, In v (data x) -> f v v = v) ->
                   pipeline (cv2.bitwise f) x x = Ok x).
  { intros f Hf.
    destruct (valid_combine f x x V V) as [_ [[E _]|(_ & a2 & b2 & ca & cb & H)]].
    - rewrite K in E. simpl in E.
      destruct (valid_pixel_matrix x V) as (c & [(_ & _ & Ph & Pw) _] & _).
      rewrite Hhw in Ph, Pw. simpl in Ph, Pw.
      rewrite size_empty_pos in E by assumption. discriminate.
    - destruct H as (_ & _ & _ & _ & Same & _ & _ & C).
      destruct (Same eq_refl) as [R1 R2]. rewrite R in R1, R2.
      apply Ok_inj in R1, R2. subst a2 b2.
      rewrite C, K, T. simpl. rewrite map2_diag by assumption.
      destruct x as [s t d]. simpl in *. subst. reflexivity. }
  rewrite forallb_forall in Bin.
  assert (Bv : forall v, In v (data x) -> v = 0 \/ v = 255).
  { intros v Hv. specialize (Bin v Hv). unfold binary_value in Bin.
    apply orb_true_iff in Bin. destruct Bin as [E|E]; apply Z.eqb_eq in E; auto. }
  rewrite logical_and_combine, union_operation_combine. split; apply Q; intros v Hv;
    destruct (Bv v Hv) as [-> | ->]; reflexivity.
Qed.

(** C8.  On two PixelBuffers of the same height and width both operations
    commute: the two orders give the same buffer, or fail alike. *)
Theorem combine_commutative a b :
  valid_buffer a = true -> valid_buffer b = true -> hw a = hw b ->
  logical_and a b = logical_and b a /\ union_operation a b = union_operation b a.
Proof.
  intros Va Vb Q.
  assert (K : target_hw b a = target_hw a b).
  { rewrite !target_hw_eq, Q. reflexivity. }
  assert (C : forall f, (forall x y, f x y = f y x) ->
                   pipeline (cv2.bitwise f) a b = pipeline (cv2.bitwise f) b a).
  { intros f Hf.
    destruct (valid_combine f a b Va Vb) as [_ [[E R]|(E & a2 & b2 & ca & cb & H)]];
      destruct (valid_combine f b a Vb Va) as [_ [[E' R']|(E' & b3 & a3 & cb' & ca' & H')]];
      rewrite K in *; try congruence.
    destruct H as (_ & _ & _ & _ & Same & _ & _ & C).
    destruct H' as (_ & _ & _ & _ & Same' & _ & _ & C').
    destruct (Same Q) as [Ra Rb]. destruct (Same' (eq_sym Q)) as [Rb' Ra'].
    rewrite Ra in Ra'. rewrite Rb in Rb'. apply Ok_inj in Ra', Rb'. subst a3 b3.
    rewrite C, C'. f_equal. f_equal. apply map2_comm. exact Hf. }
  rewrite !logical_and_combine, !union_operation_combine.
  split; apply C; [apply Z.land_comm|apply Z.lor_comm].
Qed.

(** ** Binarization *)

Lemma luma_div b g r :
  cv2.luma b g r = (b * 3735 + g * 19235 + r * 9798 + 16384) / 32768.
Proof.
  unfold cv2.luma, cv2.BY15, cv2.GY15, cv2.RY15, cv2.gray_shift.
  rewrite Z.shiftr_div_pow2 by lia. reflexivity.
Qed.

Lemma nth_grays img h w c y x :
  pixel_matrix img h w c -> c = 1 \/ c = 3 ->
  0 <= y < h -> 0 <= x < w ->
  nth (Z.to_nat (y * w + x)) (map threshold_127 (grays img)) 0
  = threshold_127 (gray_at img y x).
Proof.
  intros [G S] Hc Hy Hx. unfold grays, gray_at. rewrite S. unfold cv2.mat_shape.
  destruct Hc as [-> | ->]; simpl.
  - change 0 with (threshold_127 0) at 1. apply map_nth.
  - unfold cv2.gray_data. rewrite map_map.
    rewrite nth_zrange_map by nia. rewrite luma_div. reflexivity.
Qed.

(** C4.  [convert_to_binary] turns a PixelBuffer into a single-channel
    buffer of the same height and width whose element at (y, x) is 255 when
    the gray value there exceeds 127 and 0 otherwise; the gray value is the
    element itself in a single-channel buffer and the luma of the three
    channels in a colour buffer. *)
Theorem convert_to_binary_correct img :
  valid_buffer img = true ->
  let h := fst (hw img) in
  let w := snd (hw img) in
  exists r,
    convert_to_binary img = Ok r
    /\ shape r = [h; w] /\ dtype_of r = uint8
    /\ Z.of_nat (length (data r)) = h * w
    /\ (forall y x, 0 <= y < h -> 0 <= x < w ->
          let v := nth (Z.to_nat (y * w + x)) (data r) 0 in
          (127 < gray_at img y x -> v = 255) /\ (gray_at img y x <= 127 -> v = 0)).
Proof.
  intros V h w. destruct (valid_pixel_matrix img V) as (c & P & Hc & _).
  fold h w in P. pose proof (valid_well_formed img V) as W.
  rewrite (pixel_matrix_convert img h w c P) by tauto.
  eexists. split; [reflexivity|]. simpl. conj; auto.
  - rewrite length_map. eapply length_grays; eauto.
  - intros y x Hy Hx. rewrite (nth_grays img h w c y x P Hc) by assumption.
    unfold threshold_127. split; intros Hg.
    + replace (gray_at img y x >? 127) with true; [reflexivity|].
      symmetry. rewrite Z.gtb_ltb. apply Z.ltb_lt. lia.
    + replace (gray_at img y x >? 127) with false; [reflexivity|].
      symmetry. rewrite Z.gtb_ltb. apply Z.ltb_ge. lia.
Qed.

(** ** [get_image_info] *)

(** C2, at a two-dimensional array: height and width are the first two
    shape components, and the channels entry is 2, the number of axes, where
    the channel count is 1. *)
Theorem get_image_info_gray_channels h w t d :
  get_image_info (mk_ndarray [h; w] t d)
  = Ok (mk_info [h; w] h w 2 (dtype_name t) (h * (w * 1))).
Proof. reflexivity. Qed.

(** On a three-dimensional array the channels entry is the third shape
    component. *)
Lemma get_image_info_colour_channels h w c t d :
  get_image_info (mk_ndarray [h; w; c] t d)
  = Ok (mk_info [h; w; c] h w c (dtype_name t) (h * (w * (c * 1)))).
Proof. reflexivity. Qed.

(** ** When the size ceiling leaves nothing *)

Lemma pipeline_fails_when_ceiling_vanishes a b :
  valid_buffer a = true -> valid_buffer b = true ->
  cv2.size_empty (fst (target_hw a b)) (snd (target_hw a b)) = true ->
  logical_and a b = Raise cv2_error /\ union_operation a b = Raise cv2_error.
Proof.
  intros Va Vb E. rewrite logical_and_combine, union_operation_combine.
  split.
  - destruct (valid_combine Z.land a b Va Vb) as [_ [[_ R]|[E' _]]]; [exact R|congruence].
  - destruct (valid_combine Z.lor a b Va Vb) as [_ [[_ R]|[E' _]]]; [exact R|congruence].
Qed.

Lemma pipeline_returns a b :
  valid_buffer a = true -> valid_buffer b = true ->
  cv2.size_empty (fst (target_hw a b)) (snd (target_hw a b)) = false ->
  exists r1 r2, logical_and a b = Ok r1 /\ union_operation a b = Ok r2.
Proof.
  intros Va Vb E. rewrite logical_and_combine, union_operation_combine.
  destruct (valid_combine Z.land a b Va Vb) as [_ [[E' _]|(_ & ? & ? & ? & ? & H1)]]; [congruence|].
  destruct (valid_combine Z.lor a b Va Vb) as [_ [[E' _]|(_ & ? & ? & ? & ? & H2)]]; [congruence|].
  destruct H1 as (_ & _ & _ & _ & _ & _ & _ & C1).
  destruct H2 as (_ & _ & _ & _ & _ & _ & _ & C2).
  eauto.
Qed.

(** Two grayscale buffers 2049 pixels high, 1 and 2 pixels wide: the
    reconciled size 2049 x 1 exceeds the ceiling, the scaled width is
    [int(0.9995...)] = 0, and both operations raise. *)
Lemma mismatched_thin_images_fail :
  valid_buffer (thin_gray 1 0) = true /\ valid_buffer (thin_gray 2 0) = true
  /\ hw (thin_gray 1 0) <> hw (thin_gray 2 0)
  /\ logical_and (thin_gray 1 0) (thin_gray 2 0) = Raise cv2_error
  /\ union_operation (thin_gray 1 0) (thin_gray 2 0) = Raise cv2_error.
Proof.
  assert (V1 : valid_buffer (thin_gray 1 0) = true) by (vm_compute; reflexivity).
  assert (V2 : valid_buffer (thin_gray 2 0) = true) by (vm_compute; reflexivity).
  split; [exact V1|]. split; [exact V2|].
  split; [vm_compute; discriminate|].
  apply (pipeline_fails_when_ceiling_vanishes _ _ V1 V2). vm_compute. reflexivity.
Qed.

(** C9, at an all-zero (for OR: all-255) grayscale buffer 2049 x 1 and a
    second buffer of that size: both operations raise, no buffer is
    returned. *)
Theorem thin_zero_image_fails :
  valid_buffer (thin_gray 1 0) = true /\ valid_buffer (thin_gray 1 255) = true
  /\ logical_and (thin_gray 1 0) (thin_gray 1 255) = Raise cv2_error
  /\ union_operation (thin_gray 1 255) (thin_gray 1 0) = Raise cv2_error.
Proof.
  assert (V1 : valid_buffer (thin_gray 1 0) = true) by (vm_compute; reflexivity).
  assert (V2 : valid_buffer (thin_gray 1 255) = true) by (vm_compute; reflexivity).
  split; [exact V1|]. split; [exact V2|]. split.
  - apply (proj1 (pipeline_fails_when_ceiling_vanishes _ _ V1 V2 ltac:(vm_compute; reflexivity))).
  - apply (proj2 (pipeline_fails_when_ceiling_vanishes _ _ V2 V1 ltac:(vm_compute; reflexivity))).
Qed.

(** ** Invalid buffers *)


Lemma mat_dims_hw img h w c :
  cv2.mat_dims img = Some (h, w, c) ->
  hw img = (h, w) /\ shape_hw img = Ok (h, w) /\ channel_count img = c.
Proof.
  intros M. destruct (mat_dims_inv _ _ _ _ M) as (_ & _ & _ & [[S ->]|S]);
    unfold hw, shape_hw, channel_count; rewrite S; auto.
Qed.


(** *** Matrices of any element type *)













(** ** Element-type normalization *)




(** *** Area averaging keeps a constant image constant *)

Lemma zsum_app l1 l2 : zsum (l1 ++ l2) = zsum l1 + zsum l2.
Proof. induction l1 as [|x l1 IH]; simpl; [reflexivity|]. rewrite IH. lia. Qed.

Lemma zrange_succ n : 0 <= n -> zrange (n + 1) = zrange n ++ [n].
Proof.
  intros Hn. unfold zrange. replace (Z.to_nat (n + 1)) with (S (Z.to_nat n)) by lia.
  rewrite seq_S, map_app. simpl. do 2 f_equal. lia.
Qed.

Lemma zsum_telescope (G : Z -> Z) a n :
  0 <= n ->
  zsum (map (fun k => G (a + k + 1) - G (a + k)) (zrange n)) = G (a + n) - G a.
Proof.
  intros Hn. pattern n. apply natlike_ind; [| |exact Hn].
  - simpl. replace (a + 0) with a by lia. lia.
  - intros m Hm IH. unfold Z.succ. rewrite zrange_succ by assumption.
    rewrite map_app, zsum_app, IH. simpl.
    replace (a + (m + 1)) with (a + m + 1) by lia. lia.
Qed.

Lemma clamp_low lo hi t : lo <= hi -> t <= lo -> cv2.clamp lo hi t = lo.
Proof. unfold cv2.clamp. lia. Qed.

Lemma clamp_high lo hi t : lo <= hi -> hi <= t -> cv2.clamp lo hi t = hi.
Proof. unfold cv2.clamp. lia. Qed.

(** The cells a destination cell covers lie in the source, and their
    overlaps add up to the length of the destination cell. *)
Lemma cover_spec dn sn di :
  0 < dn <= sn -> 0 <= di < dn ->
  (forall si wt, In (si, wt) (cv2.cover dn sn di) -> 0 <= si < sn)
  /\ zsum (map snd (cv2.cover dn sn di)) = sn.
Proof.
  intros Hd Hi. unfold cv2.cover.
  set (lo := di * sn). set (hi := (di + 1) * sn).
  set (s0 := lo / dn). set (s1 := (hi + dn - 1) / dn).
  assert (Hlo : 0 <= lo) by (unfold lo; nia).
  assert (Hlh : lo <= hi) by (unfold lo, hi; nia).
  assert (Hhi : hi <= dn * sn) by (unfold hi; nia).
  assert (H0 : 0 <= s0) by (apply Z.div_pos; lia).
  assert (H0l : dn * s0 <= lo) by (apply Z.mul_div_le; lia).
  assert (H1u : s1 <= sn).
  { assert (s1 < sn + 1); [|lia]. apply Z.div_lt_upper_bound; nia. }
  assert (H1h : hi <= dn * s1).
  { unfold s1. pose proof (Z.div_mod (hi + dn - 1) dn ltac:(lia)).
    pose proof (Z.mod_pos_bound (hi + dn - 1) dn ltac:(lia)). nia. }
  assert (H01 : s0 <= s1).
  { unfold s0, s1. apply Z.div_le_mono; lia. }
  split.
  - intros si wt Hin. apply in_map_iff in Hin. destruct Hin as (k & E & Hk).
    inversion E; subst. apply In_zrange in Hk. lia.
  - rewrite map_map. cbv zeta. cbn [snd].
    pose proof (zsum_telescope (fun t => cv2.clamp lo hi (t * dn)) s0 (s1 - s0) ltac:(lia)) as T.
    cbv beta in T. rewrite T.
    replace (s0 + (s1 - s0)) with s1 by lia.
    rewrite clamp_high, clamp_low by nia. unfold hi, lo. lia.
Qed.

Lemma area_sum_uniform src sw c cy cx ch v :
  (forall sy wy sx wx, In (sy, wy) cy -> In (sx, wx) cx ->
     nth (Z.to_nat ((sy * sw + sx) * c + ch)) src 0 = v) ->
  cv2.area_sum src sw c cy cx ch = v * (zsum (map snd cy) * zsum (map snd cx)).
Proof.
  unfold cv2.area_sum. induction cy as [|[sy wy] cy IH]; intros H; simpl; [lia|].
  rewrite IH by (intros; eapply H; simpl; eauto).
  assert (E : zsum (map (fun '(sx, wx) =>
                 wy * wx * nth (Z.to_nat ((sy * sw + sx) * c + ch)) src 0) cx)
              = v * (wy * zsum (map snd cx))).
  { assert (Hx : forall sx wx, In (sx, wx) cx ->
                   nth (Z.to_nat ((sy * sw + sx) * c + ch)) src 0 = v)
      by (intros; eapply H; simpl; eauto).
    clear -Hx. induction cx as [|[sx wx] cx IHx]; simpl; [lia|].
    rewrite IHx by (intros; eapply Hx; simpl; eauto).
    rewrite (Hx sx wx) by (simpl; auto). lia. }
  rewrite E. lia.
Qed.

Lemma rne_exact v d : 0 < d -> PyFloat.rne (v * d) d = v.
Proof.
  intros Hd. unfold PyFloat.rne. rewrite Z.mod_mul, Z.div_mul by lia.
  destruct (Z.compare_spec (2 * 0) d); lia.
Qed.

Lemma nth_uniform (l : list Z) v k :
  Forall (fun x => x = v) l -> (k < length l)%nat -> nth k l 0 = v.
Proof.
  intros F Hk. rewrite Forall_forall in F. apply F. apply nth_In. exact Hk.
Qed.

Lemma inter_area_uniform src sh sw c dh dw v :
  0 < dh <= sh -> 0 < dw <= sw -> 0 < c ->
  Z.of_nat (length src) = sh * sw * c ->
  Forall (fun x => x = v) src ->
  Forall (fun x => x = v) (cv2.inter_area src sh sw c dh dw).
Proof.
  intros Hh Hw Hc L F. apply Forall_forall. intros x Hx. unfold cv2.inter_area in Hx.
  apply in_flat_map in Hx. destruct Hx as (dy & Hdy & Hx).
  apply in_flat_map in Hx. destruct Hx as (dx & Hdx & Hx).
  apply in_map_iff in Hx. destruct Hx as (ch & <- & Hch).
  apply In_zrange in Hdy, Hdx, Hch.
  destruct (cover_spec dh sh dy ltac:(lia) Hdy) as [Ry Sy].
  destruct (cover_spec dw sw dx ltac:(lia) Hdx) as [Rx Sx].
  rewrite (area_sum_uniform _ _ _ _ _ _ v).
  - rewrite Sy, Sx. apply rne_exact. nia.
  - intros sy wy sx wx Hy Hxx. specialize (Ry _ _ Hy). specialize (Rx _ _ Hxx).
    apply nth_uniform; [exact F|].
    assert (B1 : 0 <= sy * sw + sx <= sh * sw - 1) by nia.
    assert (B2 : 0 <= (sy * sw + sx) * c + ch < sh * sw * c) by nia.
    lia.
Qed.

Lemma uniform_resize img dsize r v :
  cv2.resize img dsize = Ok r -> well_formed img ->
  Forall (fun x => x = v) (data img) -> Forall (fun x => x = v) (data r).
Proof.
  intros R W F. destruct (resize_Ok_inv _ _ _ R) as (sh & sw & c & M & _ & _ & Bh & Bw & E).
  destruct (mat_dims_inv _ _ _ _ M) as (_ & _ & Hc & _).
  unfold well_formed in W. rewrite M in W. rewrite E.
  destruct ((snd dsize =? sh) && (fst dsize =? sw)); [exact F|].
  apply inter_area_uniform; auto; lia.
Qed.

Lemma uniform_resized a a2 v :
  resized a a2 -> well_formed a ->
  Forall (fun x => x = v) (data a) -> Forall (fun x => x = v) (data a2).
Proof.
  induction 1; intros W F; [exact F|].
  apply IHresized; eauto using well_formed_resize, uniform_resize.
Qed.

Lemma luma_gray v : cv2.luma v v v = v.
Proof.
  rewrite luma_div.
  replace (v * 3735 + v * 19235 + v * 9798 + 16384) with (16384 + v * 32768) by lia.
  rewrite Z.div_add by lia. reflexivity.
Qed.

Lemma grays_uniform img h w c v :
  pixel_matrix img h w c -> c = 1 \/ c = 3 -> well_formed img ->
  Forall (fun x => x = v) (data img) -> Forall (fun x => x = v) (grays img).
Proof.
  intros [(D & M & Ph & Pw) S] Hc W F. unfold well_formed in W. rewrite M in W.
  unfold grays. rewrite S. unfold cv2.mat_shape.
  destruct Hc as [-> | ->]; simpl; [exact F|].
  apply Forall_forall. intros x Hx. unfold cv2.gray_data in Hx.
  apply in_map_iff in Hx. destruct Hx as (i & <- & Hi). apply In_zrange in Hi.
  assert (B : 0 <= i * 3 /\ i * 3 + 2 < h * w * 3) by nia.
  rewrite !(nth_uniform _ v) by (auto; lia). apply luma_gray.
Qed.

Lemma Forall_eq_repeat (l : list Z) v :
  Forall (fun x => x = v) l -> l = repeat v (length l).
Proof.
  induction 1 as [|x l -> _ IH]; simpl; [reflexivity|]. f_equal. exact IH.
Qed.

Lemma map2_absorb f v xs ys :
  Forall (fun x => x = v) xs -> (forall y, In y ys -> f v y = v) ->
  length xs = length ys ->
  cv2.map2 f xs ys = repeat v (length xs).
Proof.
  intros F. revert ys. induction F as [|x xs -> _ IH]; intros [|y ys] H L; simpl in *;
    try discriminate; [reflexivity|].
  rewrite H by auto. f_equal. apply IH; auto.
Qed.

(** Whenever a buffer is returned, an all-zero first operand makes [AND]
    all-zero and an all-255 first operand makes [OR] all-255, at the
    reconciled size (the law of C9 on the inputs the size ceiling does not
    defeat). *)
Theorem absorbing_operand_when_returned a b r :
  valid_buffer a = true -> valid_buffer b = true ->
  let blank v := mk_ndarray [fst (target_hw a b); snd (target_hw a b)] uint8
                   (repeat v (Z.to_nat (fst (target_hw a b) * snd (target_hw a b)))) in
  (Forall (fun x => x = 0) (data a) -> logical_and a b = Ok r -> r = blank 0)
  /\ (Forall (fun x => x = 255) (data a) -> union_operation a b = Ok r -> r = blank 255).
Proof.
  intros Va Vb blank.
  destruct (valid_pixel_matrix a Va) as (ca & Pa & Ca & _).
  destruct (valid_pixel_matrix b Vb) as (cb & Pb & Cb & _).
  pose proof (valid_well_formed a Va) as Wa. pose proof (valid_well_formed b Vb) as Wb.
  assert (Q : forall f v, threshold_127 v = v ->
                (forall y, y = 0 \/ y = 255 -> f v y = v) ->
                Forall (fun x => x = v) (data a) ->
                pipeline (cv2.bitwise f) a b = Ok r -> r = blank v).
  { intros f v Tv Hf F R. unfold blank. rewrite target_hw_eq in *.
    destruct (combine_spec (cv2.bitwise f) a b _ _ ca _ _ cb Pa Pb ltac:(tauto) ltac:(tauto))
      as [[_ E]|(E & a2 & b2 & Pa2 & Pb2 & Za & Zb & _ & C)]; [congruence|].
    set (k := clamped_hw _ _) in *.
    pose proof (well_formed_resized _ _ Za Wa) as Wa2.
    pose proof (well_formed_resized _ _ Zb Wb) as Wb2.
    pose proof (length_grays _ _ _ _ Pa2 Wa2) as La.
    pose proof (length_grays _ _ _ _ Pb2 Wb2) as Lb.
    pose proof (grays_uniform _ _ _ _ v Pa2 Ca Wa2 (uniform_resized _ _ v Za Wa F)) as Ua.
    destruct (proj1 Pa2) as (_ & M2 & Ph & Pw).
    destruct (mat_dims_inv _ _ _ _ M2) as (Bh & Bw & _).
    rewrite C, bitwise_spec in R by lia. apply Ok_inj in R. subst r. f_equal.
    rewrite (map2_absorb f v).
    - rewrite length_map. f_equal. lia.
    - apply Forall_forall. intros x Hx. apply in_map_iff in Hx.
      destruct Hx as (u & <- & Hu). rewrite Forall_forall in Ua. rewrite (Ua u Hu). exact Tv.
    - intros y Hy. apply Hf. eapply In_map_threshold; eauto.
    - rewrite !length_map. lia. }
  split; intros F R.
  - apply (Q Z.land 0); auto.
  - apply (Q Z.lor 255); auto. intros y [-> | ->]; reflexivity.
Qed.

(** ** The operations return unless the size ceiling leaves nothing *)

(** On two PixelBuffers both operations return a buffer when the reconciled
    size is not empty, and both raise [cv2.error] when it is. *)
Theorem operations_return_or_ceiling_vanishes a b :
  valid_buffer a = true -> valid_buffer b = true ->
  (cv2.size_empty (fst (target_hw a b)) (snd (target_hw a b)) = false
   /\ exists r1 r2, logical_and a b = Ok r1 /\ union_operation a b = Ok r2)
  \/ (cv2.size_empty (fst (target_hw a b)) (snd (target_hw a b)) = true
      /\ logical_and a b = Raise cv2_error /\ union_operation a b = Raise cv2_error).
Proof.
  intros Va Vb.
  destruct (cv2.size_empty (fst (target_hw a b)) (snd (target_hw a b))) eqn:E.
  - right. split; [reflexivity|]. apply pipeline_fails_when_ceiling_vanishes; assumption.
  - left. split; [reflexivity|]. apply pipeline_returns; assumption.
Qed.

Lemma operations_return_witness :
  (cv2.size_empty (fst (target_hw white_4x4 black_2x2)) (snd (target_hw white_4x4 black_2x2))
   = false
   /\ exists r1 r2, logical_and white_4x4 black_2x2 = Ok r1
                    /\ union_operation white_4x4 black_2x2 = Ok r2)
  \/ (cv2.size_empty (fst (target_hw white_4x4 black_2x2)) (snd (target_hw white_4x4 black_2x2))
      = true
      /\ logical_and white_4x4 black_2x2 = Raise cv2_error
      /\ union_operation white_4x4 black_2x2 = Raise cv2_error).
Proof.
  apply (operations_return_or_ceiling_vanishes white_4x4 black_2x2); reflexivity.
Defined.

(** * Further results: composition, the ceiling, files and messages *)

(** ** Same-size buffers within the ceiling *)

Lemma valid_hw_pos img :
  valid_buffer img = true ->
  0 < fst (hw img) <= cv2.int_max /\ 0 < snd (hw img) <= cv2.int_max.
Proof.
  intros V. destruct (valid_pixel_matrix img V) as (c & [(D & M & Ph & Pw) S] & _).
  destruct (mat_dims_inv _ _ _ _ M) as (Bh & Bw & _). lia.
Qed.

Lemma valid_shape_hw img : valid_buffer img = true -> shape_hw img = Ok (hw img).
Proof.
  intros V. destruct (valid_pixel_matrix img V) as (c & [M S] & _).
  destruct (mat_u8_hw _ _ _ _ M) as [E1 E2]. rewrite E1, E2. reflexivity.
Qed.

Lemma pipeline_same_size f a b h w :
  valid_buffer a = true -> valid_buffer b = true ->
  hw a = (h, w) -> hw b = (h, w) -> h <= max_dimension -> w <= max_dimension ->
  pipeline (cv2.bitwise f) a b
  = Ok (mk_ndarray [h; w] uint8
          (cv2.map2 f (map threshold_127 (grays a)) (map threshold_127 (grays b)))).
Proof.
  intros Va Vb Ha Hb Hh Hw.
  destruct (valid_hw_pos a Va) as [Pa1 Pa2]. rewrite Ha in Pa1, Pa2. simpl in Pa1, Pa2.
  assert (K : target_hw a b = (h, w)).
  { rewrite target_hw_eq, Ha, Hb. simpl. rewrite !Z.min_id. apply clamped_hw_small; assumption. }
  destruct (valid_combine f a b Va Vb) as [_ [[E _]|[_ (a2 & b2 & ca & cb & _ & _ & _ & _ & R & _ & _ & P)]]].
  - rewrite K in E. simpl in E. rewrite size_empty_pos in E by lia. discriminate.
  - rewrite P, K. simpl.
    destruct (R ltac:(congruence)) as [Ra Rb].
    rewrite (resize_if_needed_small a h w) in Ra
      by (try rewrite valid_shape_hw by assumption; try congruence; assumption).
    rewrite (resize_if_needed_small b h w) in Rb
      by (try rewrite valid_shape_hw by assumption; try congruence; assumption).
    apply Ok_inj in Ra, Rb. subst a2 b2. reflexivity.
Qed.

Lemma nth_map2 f xs ys k :
  (k < length xs)%nat -> (k < length ys)%nat ->
  nth k (cv2.map2 f xs ys) 0 = f (nth k xs 0) (nth k ys 0).
Proof.
  revert ys k. induction xs as [|x xs IH]; intros [|y ys] [|k] Hx Hy; simpl in *;
    try lia; try reflexivity.
  apply IH; lia.
Qed.

Lemma valid_grays img :
  valid_buffer img = true ->
  exists c, pixel_matrix img (fst (hw img)) (snd (hw img)) c /\ (c = 1 \/ c = 3)
            /\ Z.of_nat (length (grays img)) = fst (hw img) * snd (hw img).
Proof.
  intros V. destruct (valid_pixel_matrix img V) as (c & P & C & _).
  exists c. conj; try assumption.
  apply (length_grays img _ _ c P). apply valid_well_formed. exact V.
Qed.

Lemma index_in_range h w y x : 0 <= y < h -> 0 <= x < w -> 0 <= y * w + x < h * w.
Proof. intros. nia. Qed.

Lemma same_size_pointwise f a b h w :
  valid_buffer a = true -> valid_buffer b = true ->
  hw a = (h, w) -> hw b = (h, w) -> h <= max_dimension -> w <= max_dimension ->
  exists r,
    pipeline (cv2.bitwise f) a b = Ok r
    /\ shape r = [h; w] /\ dtype_of r = uint8
    /\ Z.of_nat (length (data r)) = h * w
    /\ (forall y x, 0 <= y < h -> 0 <= x < w ->
          nth (Z.to_nat (y * w + x)) (data r) 0
          = f (threshold_127 (gray_at a y x)) (threshold_127 (gray_at b y x))).
Proof.
  intros Va Vb Ha Hb Hh Hw.
  destruct (valid_grays a Va) as (ca & Pa & Ca & La).
  destruct (valid_grays b Vb) as (cb & Pb & Cb & Lb).
  rewrite Ha in Pa, La. rewrite Hb in Pb, Lb. simpl in Pa, La, Pb, Lb.
  eexists. split; [apply (pipeline_same_size f a b h w); assumption|]. simpl.
  conj; try reflexivity.
  - rewrite length_map2, !length_map. lia.
  - intros y x Hy Hx. pose proof (index_in_range h w y x Hy Hx) as I.
    rewrite nth_map2 by (rewrite length_map; lia).
    rewrite (nth_grays a h w ca y x Pa Ca Hy Hx), (nth_grays b h w cb y x Pb Cb Hy Hx).
    reflexivity.
Qed.

(** On two PixelBuffers of one size within the ceiling [logical_and] returns
    the plane of that size that holds 255 exactly where the gray values of
    both inputs exceed 127, and 0 elsewhere. *)
Theorem logical_and_pointwise a b h w :
  valid_buffer a = true -> valid_buffer b = true ->
  hw a = (h, w) -> hw b = (h, w) -> h <= max_dimension -> w <= max_dimension ->
  exists r,
    logical_and a b = Ok r
    /\ shape r = [h; w] /\ dtype_of r = uint8
    /\ Z.of_nat (length (data r)) = h * w
    /\ (forall y x, 0 <= y < h -> 0 <= x < w ->
          nth (Z.to_nat (y * w + x)) (data r) 0
          = if (gray_at a y x >? 127) && (gray_at b y x >? 127) then 255 else 0).
Proof.
  intros Va Vb Ha Hb Hh Hw.
  destruct (same_size_pointwise Z.land a b h w Va Vb Ha Hb Hh Hw) as (r & E & S & D & L & P).
  exists r. rewrite logical_and_combine. conj; try assumption.
  intros y x Hy Hx. rewrite (P y x Hy Hx). unfold threshold_127.
  destruct (gray_at a y x >? 127), (gray_at b y x >? 127); reflexivity.
Qed.

(** Likewise [union_operation]: 255 exactly where the gray value of at
    least one input exceeds 127. *)
Theorem union_operation_pointwise a b h w :
  valid_buffer a = true -> valid_buffer b = true ->
  hw a = (h, w) -> hw b = (h, w) -> h <= max_dimension -> w <= max_dimension ->
  exists r,
    union_operation a b = Ok r
    /\ shape r = [h; w] /\ dtype_of r = uint8
    /\ Z.of_nat (length (data r)) = h * w
    /\ (forall y x, 0 <= y < h -> 0 <= x < w ->
          nth (Z.to_nat (y * w + x)) (data r) 0
          = if (gray_at a y x >? 127) || (gray_at b y x >? 127) then 255 else 0).
Proof.
  intros Va Vb Ha Hb Hh Hw.
  destruct (same_size_pointwise Z.lor a b h w Va Vb Ha Hb Hh Hw) as (r & E & S & D & L & P).
  exists r. rewrite union_operation_combine. conj; try assumption.
  intros y x Hy Hx. rewrite (P y x Hy Hx). unfold threshold_127.
  destruct (gray_at a y x >? 127), (gray_at b y x >? 127); reflexivity.
Qed.

Lemma logical_and_pointwise_witness :
  exists r,
    logical_and bgr_2x2 checker_2x2 = Ok r
    /\ shape r = [2; 2] /\ dtype_of r = uint8
    /\ Z.of_nat (length (data r)) = 2 * 2
    /\ (forall y x, 0 <= y < 2 -> 0 <= x < 2 ->
          nth (Z.to_nat (y * 2 + x)) (data r) 0
          = if (gray_at bgr_2x2 y x >? 127) && (gray_at checker_2x2 y x >? 127)
            then 255 else 0).
Proof.
  apply (logical_and_pointwise bgr_2x2 checker_2x2 2 2); try reflexivity;
    vm_compute; discriminate.
Defined.

Lemma union_operation_pointwise_witness :
  exists r,
    union_operation bgr_2x2 checker_2x2 = Ok r
    /\ shape r = [2; 2] /\ dtype_of r = uint8
    /\ Z.of_nat (length (data r)) = 2 * 2
    /\ (forall y x, 0 <= y < 2 -> 0 <= x < 2 ->
          nth (Z.to_nat (y * 2 + x)) (data r) 0
          = if (gray_at bgr_2x2 y x >? 127) || (gray_at checker_2x2 y x >? 127)
            then 255 else 0).
Proof.
  apply (union_operation_pointwise bgr_2x2 checker_2x2 2 2); try reflexivity;
    vm_compute; discriminate.
Defined.

(** ** Chaining the operations *)

Lemma map_threshold_binary l :
  Forall (fun v => v = 0 \/ v = 255) l -> map threshold_127 l = l.
Proof.
  induction 1 as [|v l [-> | ->] _ IH]; simpl; [reflexivity| |]; rewrite IH; reflexivity.
Qed.

Lemma Forall_map_threshold l : Forall (fun v => v = 0 \/ v = 255) (map threshold_127 l).
Proof.
  apply Forall_forall. intros v Hv. exact (In_map_threshold v l Hv).
Qed.

Lemma binary_is_u8 l : Forall (fun v => v = 0 \/ v = 255) l -> forallb is_u8 l = true.
Proof.
  induction 1 as [|v l [-> | ->] _ IH]; simpl; [reflexivity| |]; exact IH.
Qed.

Lemma binary_forallb l :
  Forall (fun v => v = 0 \/ v = 255) l -> forallb binary_value l = true.
Proof.
  induction 1 as [|v l [-> | ->] _ IH]; simpl; [reflexivity| |]; exact IH.
Qed.

(** A two-dimensional array of 0s and 255s is a buffer, and binarization
    reads it as it is. *)
Lemma binary_buffer h w d :
  0 < h <= cv2.int_max -> 0 < w <= cv2.int_max ->
  Z.of_nat (length d) = h * w -> Forall (fun v => v = 0 \/ v = 255) d ->
  let x := mk_ndarray [h; w] uint8 d in
  valid_buffer x = true /\ hw x = (h, w) /\ map threshold_127 (grays x) = d.
Proof.
  intros Hh Hw L B x. conj.
  - unfold valid_buffer, dims_ok, content_ok. simpl.
    rewrite (binary_is_u8 d B).
    repeat (apply andb_true_intro; split); try reflexivity;
      first [apply Z.ltb_lt; lia | apply Z.leb_le; lia | apply Z.eqb_eq; lia].
  - reflexivity.
  - unfold grays. simpl. apply map_threshold_binary. exact B.
Qed.

Lemma land_keeps_binary : keeps_binary Z.land.
Proof. intros x y Hx Hy. apply land_binary; assumption. Qed.

Lemma lor_keeps_binary : keeps_binary Z.lor.
Proof. intros x y Hx Hy. apply lor_binary; assumption. Qed.

Lemma Forall_In (P : Z -> Prop) l v : Forall P l -> In v l -> P v.
Proof. intros F. exact (proj1 (Forall_forall P l) F v). Qed.

Lemma map2_keeps_binary f xs ys :
  keeps_binary f ->
  Forall (fun v => v = 0 \/ v = 255) xs -> Forall (fun v => v = 0 \/ v = 255) ys ->
  Forall (fun v => v = 0 \/ v = 255) (cv2.map2 f xs ys).
Proof.
  intros K Fx Fy. apply Forall_map2. intros x y Hx Hy.
  apply K; [exact (Forall_In _ _ _ Fx Hx) | exact (Forall_In _ _ _ Fy Hy)].
Qed.

Lemma bits_binary img : Forall (fun v => v = 0 \/ v = 255) (bits img).
Proof. apply Forall_map_threshold. Qed.

Lemma length_bits img :
  valid_buffer img = true -> Z.of_nat (length (bits img)) = fst (hw img) * snd (hw img).
Proof.
  intros V. destruct (valid_grays img V) as (c & _ & _ & L).
  unfold bits. rewrite length_map. exact L.
Qed.

(** Both operands a fresh plane of 0s and 255s. *)
Lemma pipeline_planes f h w d1 d2 :
  0 < h <= max_dimension -> 0 < w <= max_dimension ->
  Z.of_nat (length d1) = h * w -> Z.of_nat (length d2) = h * w ->
  Forall (fun v => v = 0 \/ v = 255) d1 -> Forall (fun v => v = 0 \/ v = 255) d2 ->
  pipeline (cv2.bitwise f) (mk_ndarray [h; w] uint8 d1) (mk_ndarray [h; w] uint8 d2)
  = Ok (mk_ndarray [h; w] uint8 (cv2.map2 f d1 d2)).
Proof.
  intros Hh Hw L1 L2 B1 B2.
  assert (M : max_dimension <= cv2.int_max) by (vm_compute; discriminate).
  destruct (binary_buffer h w d1 ltac:(lia) ltac:(lia) L1 B1) as (V1 & H1 & G1).
  destruct (binary_buffer h w d2 ltac:(lia) ltac:(lia) L2 B2) as (V2 & H2 & G2).
  rewrite (pipeline_same_size f _ _ h w V1 V2 H1 H2) by lia.
  rewrite G1, G2. reflexivity.
Qed.

Lemma pipeline_bits f a b h w :
  valid_buffer a = true -> valid_buffer b = true ->
  hw a = (h, w) -> hw b = (h, w) -> h <= max_dimension -> w <= max_dimension ->
  pipeline (cv2.bitwise f) a b = Ok (mk_ndarray [h; w] uint8 (cv2.map2 f (bits a) (bits b))).
Proof. apply pipeline_same_size. Qed.

Lemma convert_to_binary_bits img :
  valid_buffer img = true ->
  convert_to_binary img = Ok (mk_ndarray [fst (hw img); snd (hw img)] uint8 (bits img)).
Proof.
  intros V. destruct (valid_grays img V) as (c & P & C & _).
  apply (pixel_matrix_convert img _ _ c P). lia.
Qed.

(** *** Identities of [map2] *)

Lemma map2_assoc f xs ys zs :
  (forall x y z, f (f x y) z = f x (f y z)) ->
  cv2.map2 f (cv2.map2 f xs ys) zs = cv2.map2 f xs (cv2.map2 f ys zs).
Proof.
  intros A. revert ys zs.
  induction xs as [|x xs IH]; intros [|y ys] [|z zs]; simpl; try reflexivity.
  rewrite A, IH. reflexivity.
Qed.

Lemma map2_absorption f g xs ys :
  (forall x y, f x (g x y) = x) -> length xs = length ys ->
  cv2.map2 f xs (cv2.map2 g xs ys) = xs.
Proof.
  intros A. revert ys.
  induction xs as [|x xs IH]; intros [|y ys] L; simpl in *; try discriminate; try reflexivity.
  rewrite A, IH by congruence. reflexivity.
Qed.

Lemma map2_distr f g xs ys zs :
  (forall x y z, f x (g y z) = g (f x y) (f x z)) ->
  cv2.map2 f xs (cv2.map2 g ys zs) = cv2.map2 g (cv2.map2 f xs ys) (cv2.map2 f xs zs).
Proof.
  intros A. revert ys zs.
  induction xs as [|x xs IH]; intros [|y ys] [|z zs]; simpl; try reflexivity.
  rewrite A, IH. reflexivity.
Qed.

Lemma land_lor_absorb x y : Z.land x (Z.lor x y) = x.
Proof.
  apply Z.bits_inj'. intros n _. rewrite Z.land_spec, Z.lor_spec.
  destruct (Z.testbit x n), (Z.testbit y n); reflexivity.
Qed.

Lemma lor_land_absorb x y : Z.lor x (Z.land x y) = x.
Proof.
  apply Z.bits_inj'. intros n _. rewrite Z.lor_spec, Z.land_spec.
  destruct (Z.testbit x n), (Z.testbit y n); reflexivity.
Qed.

(** *** Three buffers of one size *)

Section SameSize.

Variables (a b c : ndarray) (h w : Z).
Hypothesis Va : valid_buffer a = true.
Hypothesis Vb : valid_buffer b = true.
Hypothesis Vc : valid_buffer c = true.
Hypothesis Ha : hw a = (h, w).
Hypothesis Hb : hw b = (h, w).
Hypothesis Hc : hw c = (h, w).
Hypothesis Hh : h <= max_dimension.
Hypothesis Hw : w <= max_dimension.

Lemma same_size_dims : 0 < h <= max_dimension /\ 0 < w <= max_dimension.
Proof.
  destruct (valid_hw_pos a Va) as [P1 P2]. rewrite Ha in P1, P2. simpl in P1, P2. lia.
Qed.

Lemma same_size_lengths :
  Z.of_nat (length (bits a)) = h * w /\ Z.of_nat (length (bits b)) = h * w
  /\ Z.of_nat (length (bits c)) = h * w.
Proof.
  pose proof (length_bits a Va) as La. pose proof (length_bits b Vb) as Lb.
  pose proof (length_bits c Vc) as Lc. rewrite Ha in La. rewrite Hb in Lb. rewrite Hc in Lc.
  simpl in *. auto.
Qed.

Lemma length_map2_same f xs ys n :
  Z.of_nat (length xs) = n -> Z.of_nat (length ys) = n ->
  Z.of_nat (length (cv2.map2 f xs ys)) = n.
Proof. intros. rewrite length_map2. lia. Qed.

(** [g (f a b) c]. *)
Lemma nest_left f g :
  keeps_binary f ->
  (r <- pipeline (cv2.bitwise f) a b ;; pipeline (cv2.bitwise g) r c)
  = Ok (mk_ndarray [h; w] uint8 (cv2.map2 g (cv2.map2 f (bits a) (bits b)) (bits c))).
Proof.
  intros K. destruct same_size_dims as [Dh Dw]. destruct same_size_lengths as (La & Lb & Lc).
  assert (M : max_dimension <= cv2.int_max) by (vm_compute; discriminate).
  rewrite (pipeline_bits f a b h w) by assumption. cbn [bind].
  pose proof (map2_keeps_binary f _ _ K (bits_binary a) (bits_binary b)) as B.
  pose proof (length_map2_same f _ _ _ La Lb) as L.
  destruct (binary_buffer h w _ ltac:(lia) ltac:(lia) L B) as (V & H & G).
  rewrite (pipeline_bits g _ c h w V Vc H Hc Hh Hw). unfold bits at 1. rewrite G. reflexivity.
Qed.

(** [g a (f b c)]. *)
Lemma nest_right f g :
  keeps_binary f ->
  (r <- pipeline (cv2.bitwise f) b c ;; pipeline (cv2.bitwise g) a r)
  = Ok (mk_ndarray [h; w] uint8 (cv2.map2 g (bits a) (cv2.map2 f (bits b) (bits c)))).
Proof.
  intros K. destruct same_size_dims as [Dh Dw]. destruct same_size_lengths as (La & Lb & Lc).
  assert (M : max_dimension <= cv2.int_max) by (vm_compute; discriminate).
  rewrite (pipeline_bits f b c h w) by assumption. cbn [bind].
  pose proof (map2_keeps_binary f _ _ K (bits_binary b) (bits_binary c)) as B.
  pose proof (length_map2_same f _ _ _ Lb Lc) as L.
  destruct (binary_buffer h w _ ltac:(lia) ltac:(lia) L B) as (V & H & G).
  rewrite (pipeline_bits g a _ h w Va V Ha H Hh Hw). unfold bits at 2. rewrite G. reflexivity.
Qed.

(** [g (f a b) (f a c)]. *)
Lemma nest_both f g :
  keeps_binary f ->
  (r1 <- pipeline (cv2.bitwise f) a b ;;
   r2 <- pipeline (cv2.bitwise f) a c ;;
   pipeline (cv2.bitwise g) r1 r2)
  = Ok (mk_ndarray [h; w] uint8
          (cv2.map2 g (cv2.map2 f (bits a) (bits b)) (cv2.map2 f (bits a) (bits c)))).
Proof.
  intros K. destruct same_size_dims as [Dh Dw]. destruct same_size_lengths as (La & Lb & Lc).
  rewrite (pipeline_bits f a b h w), (pipeline_bits f a c h w) by assumption. cbn [bind].
  apply pipeline_planes; try assumption.
  - apply length_map2_same; assumption.
  - apply length_map2_same; assumption.
  - apply map2_keeps_binary; [assumption|apply bits_binary..].
  - apply map2_keeps_binary; [assumption|apply bits_binary..].
Qed.

End SameSize.

(** On three PixelBuffers of one size within the ceiling the grouping of
    either operation does not matter: both groupings return the same
    buffer. *)
Theorem combine_associative a b c h w :
  valid_buffer a = true -> valid_buffer b = true -> valid_buffer c = true ->
  hw a = (h, w) -> hw b = (h, w) -> hw c = (h, w) ->
  h <= max_dimension -> w <= max_dimension ->
  (exists r, (x <- logical_and a b ;; logical_and x c) = Ok r
             /\ (x <- logical_and b c ;; logical_and a x) = Ok r)
  /\ (exists r, (x <- union_operation a b ;; union_operation x c) = Ok r
                /\ (x <- union_operation b c ;; union_operation a x) = Ok r).
Proof.
  intros Va Vb Vc Ha Hb Hc Hh Hw. split; eexists; split.
  - exact (nest_left a b c h w Va Vb Vc Ha Hb Hc Hh Hw Z.land Z.land land_keeps_binary).
  - change logical_and with (pipeline (cv2.bitwise Z.land)).
    rewrite (nest_right a b c h w Va Vb Vc Ha Hb Hc Hh Hw Z.land Z.land land_keeps_binary).
    rewrite (map2_assoc Z.land) by (intros; symmetry; apply Z.land_assoc). reflexivity.
  - exact (nest_left a b c h w Va Vb Vc Ha Hb Hc Hh Hw Z.lor Z.lor lor_keeps_binary).
  - change union_operation with (pipeline (cv2.bitwise Z.lor)).
    rewrite (nest_right a b c h w Va Vb Vc Ha Hb Hc Hh Hw Z.lor Z.lor lor_keeps_binary).
    rewrite (map2_assoc Z.lor) by (intros; symmetry; apply Z.lor_assoc). reflexivity.
Qed.

(** Absorption, on two PixelBuffers of one size within the ceiling:
    [AND] of [a] with the [OR] of [a] and [b], and [OR] of [a] with their
    [AND], are the binarization of [a]. *)
Theorem combine_absorption a b h w :
  valid_buffer a = true -> valid_buffer b = true ->
  hw a = (h, w) -> hw b = (h, w) ->
  h <= max_dimension -> w <= max_dimension ->
  (x <- union_operation a b ;; logical_and a x) = convert_to_binary a
  /\ (x <- logical_and a b ;; union_operation a x) = convert_to_binary a.
Proof.
  intros Va Vb Ha Hb Hh Hw.
  pose proof (length_bits a Va) as La. pose proof (length_bits b Vb) as Lb.
  rewrite Ha in La. rewrite Hb in Lb. simpl in La, Lb.
  assert (L : length (bits a) = length (bits b)) by lia.
  rewrite (convert_to_binary_bits a Va), Ha. simpl. split.
  - change logical_and with (pipeline (cv2.bitwise Z.land)).
    change union_operation with (pipeline (cv2.bitwise Z.lor)).
    rewrite (nest_right a a b h w Va Va Vb Ha Ha Hb Hh Hw Z.lor Z.land lor_keeps_binary).
    rewrite (map2_absorption Z.land Z.lor _ _ land_lor_absorb L). reflexivity.
  - change logical_and with (pipeline (cv2.bitwise Z.land)).
    change union_operation with (pipeline (cv2.bitwise Z.lor)).
    rewrite (nest_right a a b h w Va Va Vb Ha Ha Hb Hh Hw Z.land Z.lor land_keeps_binary).
    rewrite (map2_absorption Z.lor Z.land _ _ lor_land_absorb L). reflexivity.
Qed.

(** On three PixelBuffers of one size within the ceiling each operation
    distributes over the other. *)
Theorem combine_distributive a b c h w :
  valid_buffer a = true -> valid_buffer b = true -> valid_buffer c = true ->
  hw a = (h, w) -> hw b = (h, w) -> hw c = (h, w) ->
  h <= max_dimension -> w <= max_dimension ->
  (exists r, (x <- union_operation b c ;; logical_and a x) = Ok r
             /\ (x <- logical_and a b ;; y <- logical_and a c ;; union_operation x y) = Ok r)
  /\ (exists r, (x <- logical_and b c ;; union_operation a x) = Ok r
                /\ (x <- union_operation a b ;; y <- union_operation a c ;; logical_and x y)
                   = Ok r).
Proof.
  intros Va Vb Vc Ha Hb Hc Hh Hw. split; eexists; split.
  - exact (nest_right a b c h w Va Vb Vc Ha Hb Hc Hh Hw Z.lor Z.land lor_keeps_binary).
  - change logical_and with (pipeline (cv2.bitwise Z.land)).
    change union_operation with (pipeline (cv2.bitwise Z.lor)).
    rewrite (nest_both a b c h w Va Vb Vc Ha Hb Hc Hh Hw Z.land Z.lor land_keeps_binary).
    rewrite (map2_distr Z.land Z.lor) by (intros; apply Z.land_lor_distr_r). reflexivity.
  - exact (nest_right a b c h w Va Vb Vc Ha Hb Hc Hh Hw Z.land Z.lor land_keeps_binary).
  - change logical_and with (pipeline (cv2.bitwise Z.land)).
    change union_operation with (pipeline (cv2.bitwise Z.lor)).
    rewrite (nest_both a b c h w Va Vb Vc Ha Hb Hc Hh Hw Z.lor Z.land lor_keeps_binary).
    rewrite (map2_distr Z.lor Z.land) by (intros; apply Z.lor_land_distr_r). reflexivity.
Qed.

Lemma combine_associative_witness :
  (exists r, (x <- logical_and bgr_2x2 checker_2x2 ;; logical_and x white_2x2) = Ok r
             /\ (x <- logical_and checker_2x2 white_2x2 ;; logical_and bgr_2x2 x) = Ok r)
  /\ (exists r, (x <- union_operation bgr_2x2 checker_2x2 ;; union_operation x white_2x2) = Ok r
                /\ (x <- union_operation checker_2x2 white_2x2 ;; union_operation bgr_2x2 x)
                   = Ok r).
Proof.
  apply (combine_associative bgr_2x2 checker_2x2 white_2x2 2 2); try reflexivity;
    vm_compute; discriminate.
Defined.

Lemma combine_absorption_witness :
  (x <- union_operation bgr_2x2 checker_2x2 ;; logical_and bgr_2x2 x)
  = convert_to_binary bgr_2x2
  /\ (x <- logical_and bgr_2x2 checker_2x2 ;; union_operation bgr_2x2 x)
     = convert_to_binary bgr_2x2.
Proof.
  apply (combine_absorption bgr_2x2 checker_2x2 2 2); try reflexivity;
    vm_compute; discriminate.
Defined.

Lemma combine_distributive_witness :
  (exists r, (x <- union_operation checker_2x2 white_2x2 ;; logical_and bgr_2x2 x) = Ok r
             /\ (x <- logical_and bgr_2x2 checker_2x2 ;;
                 y <- logical_and bgr_2x2 white_2x2 ;; union_operation x y) = Ok r)
  /\ (exists r, (x <- logical_and checker_2x2 white_2x2 ;; union_operation bgr_2x2 x) = Ok r
                /\ (x <- union_operation bgr_2x2 checker_2x2 ;;
                    y <- union_operation bgr_2x2 white_2x2 ;; logical_and x y) = Ok r).
Proof.
  apply (combine_distributive bgr_2x2 checker_2x2 white_2x2 2 2); try reflexivity;
    vm_compute; discriminate.
Defined.

(** ** Results fed back *)

(** Binarizing twice is binarizing once: on a PixelBuffer
    [convert_to_binary] returns a PixelBuffer of the same height and width
    that holds 0s and 255s only and that it maps to itself. *)
Theorem convert_to_binary_idempotent img :
  valid_buffer img = true ->
  exists r, convert_to_binary img = Ok r
            /\ valid_buffer r = true /\ hw r = hw img
            /\ forallb binary_value (data r) = true
            /\ convert_to_binary r = Ok r.
Proof.
  intros V. destruct (valid_hw_pos img V) as [Ph Pw].
  pose proof (length_bits img V) as L.
  destruct (binary_buffer _ _ _ Ph Pw L (bits_binary img)) as (Vr & Hr & G).
  eexists. split; [apply (convert_to_binary_bits img V)|].
  conj.
  - exact Vr.
  - rewrite Hr. destruct (hw img). reflexivity.
  - apply binary_forallb, bits_binary.
  - rewrite (convert_to_binary_bits _ Vr), Hr.
    change (map threshold_127 (grays (mk_ndarray [fst (hw img); snd (hw img)] uint8 (bits img))))
      with (bits (mk_ndarray [fst (hw img); snd (hw img)] uint8 (bits img))) in G.
    rewrite G. reflexivity.
Qed.

Lemma result_plane f a b r :
  valid_buffer a = true -> valid_buffer b = true -> keeps_binary f ->
  pipeline (cv2.bitwise f) a b = Ok r ->
  exists h w d,
    r = mk_ndarray [h; w] uint8 d
    /\ 0 < h <= max_dimension /\ 0 < w <= max_dimension
    /\ Z.of_nat (length d) = h * w
    /\ Forall (fun v => v = 0 \/ v = 255) d.
Proof.
  intros Va Vb K E.
  destruct (valid_combine f a b Va Vb)
    as [(_ & _ & Bh & Bw) [[_ F]|[N (a2 & b2 & ca & cb & _ & _ & _ & _ & _ & La & Lb & P)]]].
  - rewrite F in E. discriminate.
  - rewrite P in E. apply Ok_inj in E. subst r.
    apply size_empty_false in N. destruct N as [Nh Nw].
    do 3 eexists. split; [reflexivity|]. conj; try lia.
    + rewrite length_map2, !length_map. lia.
    + apply map2_keeps_binary; [exact K|apply Forall_map_threshold..].
Qed.

Lemma plane_fixed h w d :
  0 < h <= max_dimension -> 0 < w <= max_dimension ->
  Z.of_nat (length d) = h * w -> Forall (fun v => v = 0 \/ v = 255) d ->
  let r := mk_ndarray [h; w] uint8 d in
  valid_buffer r = true /\ convert_to_binary r = Ok r
  /\ logical_and r r = Ok r /\ union_operation r r = Ok r.
Proof.
  intros Hh Hw L B r.
  assert (M : max_dimension <= cv2.int_max) by (vm_compute; discriminate).
  destruct (binary_buffer h w d ltac:(lia) ltac:(lia) L B) as (V & H & G). fold r in V, H, G.
  conj.
  - exact V.
  - rewrite (convert_to_binary_bits r V), H. change (bits r) with (map threshold_127 (grays r)).
    rewrite G. reflexivity.
  - change logical_and with (pipeline (cv2.bitwise Z.land)). unfold r.
    rewrite pipeline_planes by assumption.
    rewrite map2_diag by (intros; apply Z.land_diag). reflexivity.
  - change union_operation with (pipeline (cv2.bitwise Z.lor)). unfold r.
    rewrite pipeline_planes by assumption.
    rewrite map2_diag by (intros; apply Z.lor_diag). reflexivity.
Qed.

(** Whatever either operation returns on two PixelBuffers is a PixelBuffer
    again, and a fixed point: binarization and both operations applied to it
    (with itself) return it unchanged. *)
Theorem result_feeds_back a b r :
  valid_buffer a = true -> valid_buffer b = true ->
  logical_and a b = Ok r \/ union_operation a b = Ok r ->
  valid_buffer r = true /\ convert_to_binary r = Ok r
  /\ logical_and r r = Ok r /\ union_operation r r = Ok r.
Proof.
  intros Va Vb [E|E].
  - destruct (result_plane Z.land a b r Va Vb land_keeps_binary E)
      as (h & w & d & -> & Hh & Hw & L & B).
    apply plane_fixed; assumption.
  - destruct (result_plane Z.lor a b r Va Vb lor_keeps_binary E)
      as (h & w & d & -> & Hh & Hw & L & B).
    apply plane_fixed; assumption.
Qed.

(** ** [optimize_memory_usage] a second time *)

Lemma mat_shape_hw h w c t d :
  shape_hw (mk_ndarray (cv2.mat_shape h w c) t d) = Ok (h, w)
  /\ hw (mk_ndarray (cv2.mat_shape h w c) t d) = (h, w).
Proof. unfold cv2.mat_shape. destruct (c =? 1); split; reflexivity. Qed.

Lemma shape_hw_hw img h w : shape_hw img = Ok (h, w) -> hw img = (h, w).
Proof.
  unfold shape_hw, hw. destruct (shape img) as [|h0 [|w0 s]]; try discriminate.
  intros E. apply Ok_inj in E. exact E.
Qed.

Lemma shape_hw_shape a b : shape a = shape b -> shape_hw a = shape_hw b.
Proof. unfold shape_hw. intros ->. reflexivity. Qed.

(** Whatever [resize_if_needed] returns is within the ceiling. *)
Lemma resize_if_needed_within img r :
  resize_if_needed img = Ok r ->
  exists h w, shape_hw r = Ok (h, w) /\ h <= max_dimension /\ w <= max_dimension.
Proof.
  intros E. destruct (shape_hw img) as [[h w]| |] eqn:S;
    try (unfold resize_if_needed in E; rewrite S in E; discriminate).
  destruct (Z.eq_dec h 0) as [Zh|Zh].
  { subst h. unfold resize_if_needed in E. rewrite S in E. cbn [bind] in E.
    destruct (w >? max_dimension) eqn:W.
    - simpl in E. discriminate.
    - simpl in E. apply Ok_inj in E. subst r. exists 0, w. conj; try assumption.
      + unfold max_dimension. lia.
      + rewrite Z.gtb_ltb in W. apply Z.ltb_ge in W. exact W. }
  destruct (Z.eq_dec w 0) as [Zw|Zw].
  { subst w. unfold resize_if_needed in E. rewrite S in E. cbn [bind] in E.
    destruct (h >? max_dimension) eqn:H.
    - unfold PyFloat.truediv in E. destruct (h =? 0); simpl in E; discriminate.
    - simpl in E. apply Ok_inj in E. subst r. exists h, 0. conj; try assumption.
      + rewrite Z.gtb_ltb in H. apply Z.ltb_ge in H. exact H.
      + unfold max_dimension. lia. }
  rewrite (resize_if_needed_unfold img h w S Zh Zw) in E.
  destruct ((h >? max_dimension) || (w >? max_dimension)) eqn:T.
  - destruct (resize_Ok_inv _ _ _ E) as (sh & sw & c & M & Sr & _ & Bh & Bw & _).
    simpl in Sr, Bh, Bw.
    destruct (mat_dims_hw _ _ _ _ M) as (_ & S' & _). rewrite S in S'. apply Ok_inj in S'.
    injection S' as -> ->.
    destruct (mat_dims_inv _ _ _ _ M) as (Ih & Iw & _).
    destruct (clamped_hw_bounds sh sw ltac:(lia) ltac:(lia)) as (_ & _ & Uh & Uw).
    exists (fst (clamped_hw sh sw)), (snd (clamped_hw sh sw)). conj.
    + destruct r as [s t d]. simpl in Sr. subst s. apply mat_shape_hw.
    + exact Uh.
    + exact Uw.
  - apply Ok_inj in E. subst r. apply orb_false_iff in T. destruct T as [T1 T2].
    rewrite Z.gtb_ltb in T1, T2. apply Z.ltb_ge in T1, T2.
    exists h, w. conj; assumption.
Qed.

(** Whatever [optimize_memory_usage] returns, for any array, is [uint8] and
    within the ceiling, and a second call returns it unchanged. *)
Theorem optimize_memory_usage_idempotent img r :
  optimize_memory_usage img = Ok r ->
  dtype_of r = uint8
  /\ fst (hw r) <= max_dimension /\ snd (hw r) <= max_dimension
  /\ optimize_memory_usage r = Ok r.
Proof.
  unfold optimize_memory_usage at 1. intros E.
  destruct (resize_if_needed img) as [r'| |] eqn:R; try discriminate. cbn [bind] in E.
  destruct (resize_if_needed_within img r' R) as (h & w & S & Hh & Hw).
  assert (Sr : shape r = shape r' /\ dtype_of r = uint8).
  { destruct (dtype_eqb (dtype_of r') uint8) eqn:D; simpl in E; apply Ok_inj in E; subst r.
    - split; [reflexivity|]. destruct (dtype_of r'); try discriminate. reflexivity.
    - split; reflexivity. }
  destruct Sr as [Sr Dr].
  assert (S2 : shape_hw r = Ok (h, w)) by (rewrite (shape_hw_shape r r' Sr); exact S).
  rewrite (shape_hw_hw r h w S2). simpl. conj; try assumption.
  unfold optimize_memory_usage. rewrite (resize_if_needed_small r h w S2 Hh Hw). cbn [bind].
  rewrite Dr. reflexivity.
Qed.

Lemma convert_to_binary_idempotent_witness :
  exists r, convert_to_binary bgr_2x2 = Ok r
            /\ valid_buffer r = true /\ hw r = hw bgr_2x2
            /\ forallb binary_value (data r) = true
            /\ convert_to_binary r = Ok r.
Proof. exact (convert_to_binary_idempotent bgr_2x2 eq_refl). Defined.

Lemma result_feeds_back_witness :
  let r := mk_ndarray [2; 2] uint8 [0; 255; 255; 255] in
  valid_buffer r = true /\ convert_to_binary r = Ok r
  /\ logical_and r r = Ok r /\ union_operation r r = Ok r.
Proof.
  apply (result_feeds_back bgr_2x2 checker_2x2); try reflexivity.
  right. vm_compute. reflexivity.
Defined.

Lemma optimize_memory_usage_idempotent_witness :
  let r := mk_ndarray [1; 2] uint8 [0; 44] in
  dtype_of r = uint8
  /\ fst (hw r) <= max_dimension /\ snd (hw r) <= max_dimension
  /\ optimize_memory_usage r = Ok r.
Proof.
  apply (optimize_memory_usage_idempotent int32_row). vm_compute. reflexivity.
Defined.

(** ** Python floats: the scale from both sides *)

Module PyFloatBounds.
Import PyFloat.

Lemma rne_ge_int a b K : 0 < b -> K * b <= a -> K <= rne a b.
Proof.
  intros Hb Ha. unfold rne.
  assert (K <= a / b) by (apply Z.div_le_lower_bound; lia).
  destruct (2 * (a mod b) ?= b); [destruct (Z.even (a / b))| |]; lia.
Qed.

Lemma rne_lower a b : 0 < b -> 2 * a <= 2 * (rne a b * b) + b.
Proof.
  intros Hb. unfold rne.
  pose proof (Z.mod_pos_bound a b Hb) as Hr.
  pose proof (Z.div_mod a b ltac:(lia)) as Hdm.
  destruct (Z.compare_spec (2 * (a mod b)) b); [destruct (Z.even (a / b))| |]; nia.
Qed.

(** [int] of the float nearest to [m / 2^n], from above. *)
Lemma int_round_pos_upper m n N j :
  0 < m -> 0 <= n -> 0 <= j -> 0 <= N < 2 ^ 52 -> m * 2 ^ j <= N * 2 ^ n ->
  int (round_pos m (2 ^ n)) * 2 ^ j <= N.
Proof.
  intros Hm Hn Hj [HN0 HN] Hle.
  assert (Pn : 0 < 2 ^ n) by (apply Z.pow_pos_nonneg; lia).
  assert (Pj : 0 < 2 ^ j) by (apply Z.pow_pos_nonneg; lia).
  assert (Hlt : m * 2 ^ j < 2 ^ (52 + n)) by (rewrite Z.pow_add_r by lia; nia).
  assert (Hjn : j < 52 + n).
  { destruct (Z_lt_le_dec j (52 + n)) as [L|L]; [exact L|].
    assert (2 ^ (52 + n) <= 2 ^ j) by (apply Z.pow_le_mono_r; lia). nia. }
  assert (Hlog : Z.log2 m < 52 + n - j).
  { apply Z.log2_lt_pow2; [lia|].
    replace (52 + n) with (52 + n - j + j) in Hlt by lia.
    rewrite Z.pow_add_r in Hlt by lia. nia. }
  pose proof (expo_round_pos m (2 ^ n)) as Hex. rewrite Z.log2_pow2 in Hex by lia.
  set (r := round_pos m (2 ^ n)) in *.
  assert (Hr0 : expo r <= 0) by lia.
  pose proof (mant_round_pos m (2 ^ n) Hr0) as Hmr. fold r in Hmr.
  set (kx := - expo r) in *.
  assert (Hkx : 0 < 2 ^ (kx - j)) by (apply Z.pow_pos_nonneg; lia).
  assert (Hsplit : 2 ^ kx = 2 ^ j * 2 ^ (kx - j)).
  { rewrite <- Z.pow_add_r by lia. f_equal. lia. }
  assert (Hub : mant r <= N * 2 ^ (kx - j)).
  { rewrite Hmr. apply rne_le_int; [lia|]. rewrite Hsplit. nia. }
  assert (Hlb : 0 <= mant r).
  { rewrite Hmr. apply rne_nonneg; nia. }
  unfold int.
  destruct (0 <=? expo r) eqn:E0.
  - apply Z.leb_le in E0. assert (expo r = 0) by lia. assert (j = 0) by lia. subst j.
    replace (expo r) with 0 by lia. replace (kx - 0) with 0 in Hub by lia.
    rewrite Z.pow_0_r in *. lia.
  - fold kx. assert (Hkx0 : 0 < 2 ^ kx) by (apply Z.pow_pos_nonneg; lia).
    rewrite Z.quot_div_nonneg by lia.
    assert (0 <= mant r / 2 ^ kx) by (apply Z.div_pos; lia).
    pose proof (Z.mul_div_le (mant r) (2 ^ kx) ltac:(lia)) as Hdl.
    set (q := mant r / 2 ^ kx) in *.
    assert (q * 2 ^ j * 2 ^ (kx - j) <= N * 2 ^ (kx - j)) by (rewrite Hsplit in Hdl; nia).
    nia.
Qed.

(** The same from below. *)
Lemma int_round_pos_lower m n K :
  0 < m -> 0 <= n -> m < 2 ^ (53 + n) -> K * 2 ^ n <= m ->
  K <= int (round_pos m (2 ^ n)).
Proof.
  intros Hm Hn Hlt Hle.
  assert (Pn : 0 < 2 ^ n) by (apply Z.pow_pos_nonneg; lia).
  assert (Hlog : Z.log2 m < 53 + n) by (apply Z.log2_lt_pow2; lia).
  pose proof (expo_round_pos m (2 ^ n)) as Hex. rewrite Z.log2_pow2 in Hex by lia.
  set (r := round_pos m (2 ^ n)) in *.
  assert (Hr0 : expo r <= 0) by lia.
  pose proof (mant_round_pos m (2 ^ n) Hr0) as Hmr. fold r in Hmr.
  set (kx := - expo r) in *.
  assert (Hkx0 : 0 < 2 ^ kx) by (apply Z.pow_pos_nonneg; lia).
  assert (Hlb : K * 2 ^ kx <= mant r).
  { rewrite Hmr. apply rne_ge_int; [lia|]. nia. }
  assert (Hnn : 0 <= mant r).
  { rewrite Hmr. apply rne_nonneg; nia. }
  unfold int.
  destruct (0 <=? expo r) eqn:E0.
  - apply Z.leb_le in E0. assert (E : expo r = 0) by lia.
    rewrite E. replace kx with 0 in Hlb by lia. rewrite Z.pow_0_r in *. lia.
  - fold kx. rewrite Z.quot_div_nonneg by lia.
    apply Z.div_le_lower_bound; lia.
Qed.

(** [v * s] is the float nearest to the exact product. *)
Lemma mul_int_as_ratio v s :
  0 < v <= cv2.int_max -> expo s <= 0 -> 0 <= mant s ->
  exists kf, 0 <= kf
    /\ mul_int v s = round_ratio (v * 2 ^ kf * mant s) (2 ^ (kf + - expo s)).
Proof.
  intros [Hv Hmax] Hes Hms. unfold mul_int, of_int.
  rewrite (round_ratio_pos v 1) by lia.
  pose proof (expo_round_pos v 1) as Hef. simpl (Z.log2 1) in Hef.
  assert (Hlv : Z.log2 v < 31).
  { apply Z.log2_lt_pow2; [lia|]. unfold cv2.int_max in Hmax. lia. }
  set (fw := round_pos v 1) in *.
  assert (Hef0 : expo fw <= 0) by lia.
  pose proof (mant_round_pos v 1 Hef0) as Hmf. fold fw in Hmf. rewrite rne_unit in Hmf.
  exists (- expo fw). split; [lia|].
  unfold mul. rewrite Hmf.
  replace (- (expo fw + expo s)) with (- expo fw + - expo s) by lia.
  unfold scaled.
  replace (0 <=? - expo fw + - expo s) with true by (symmetry; apply Z.leb_le; lia).
  rewrite Z.mul_1_l. reflexivity.
Qed.

Lemma int_mul_int_upper v s N j :
  0 < v <= cv2.int_max -> expo s <= 0 -> 0 <= mant s ->
  0 <= j -> 0 <= N < 2 ^ 52 ->
  v * mant s * 2 ^ j <= N * 2 ^ (- expo s) ->
  int (mul_int v s) * 2 ^ j <= N.
Proof.
  intros Hv Hes Hms Hj HN Hle.
  destruct (mul_int_as_ratio v s Hv Hes Hms) as (kf & Hkf & ->).
  set (ks := - expo s) in *.
  assert (Pf : 0 < 2 ^ kf) by (apply Z.pow_pos_nonneg; lia).
  assert (Ps : 0 < 2 ^ ks) by (apply Z.pow_pos_nonneg; lia).
  assert (Pj : 0 < 2 ^ j) by (apply Z.pow_pos_nonneg; lia).
  set (m := v * 2 ^ kf * mant s).
  assert (Hm0 : 0 <= m) by (unfold m; nia).
  destruct (Z.eq_dec m 0) as [Em|Em].
  { rewrite Em. unfold round_ratio, int. simpl. lia. }
  rewrite (round_ratio_pos m) by lia.
  apply int_round_pos_upper; try lia.
  rewrite Z.pow_add_r by lia. unfold m. nia.
Qed.

Lemma int_mul_int_lower v s K :
  0 < v <= cv2.int_max -> expo s <= 0 -> 0 <= mant s ->
  v * mant s < 2 ^ 53 * 2 ^ (- expo s) ->
  K * 2 ^ (- expo s) <= v * mant s ->
  K <= int (mul_int v s).
Proof.
  intros Hv Hes Hms Hlt Hle.
  destruct (mul_int_as_ratio v s Hv Hes Hms) as (kf & Hkf & ->).
  set (ks := - expo s) in *.
  assert (Pf : 0 < 2 ^ kf) by (apply Z.pow_pos_nonneg; lia).
  assert (Ps : 0 < 2 ^ ks) by (apply Z.pow_pos_nonneg; lia).
  set (m := v * 2 ^ kf * mant s).
  assert (Hm0 : 0 <= m) by (unfold m; nia).
  destruct (Z.eq_dec m 0) as [Em|Em].
  { rewrite Em. unfold round_ratio, int. simpl.
    assert (mant s = 0) by (unfold m in Em; nia). nia. }
  rewrite (round_ratio_pos m) by lia.
  apply int_round_pos_lower; try lia.
  - rewrite !Z.pow_add_r by lia. unfold m. nia.
  - rewrite Z.pow_add_r by lia. unfold m. nia.
Qed.

(** More of what [2048 / v] rounds to. *)
Lemma scale_more v :
  0 < v ->
  let s := round_pos 2048 v in
  2 * (2048 * 2 ^ (- expo s)) <= 2 * (mant s * v) + v
  /\ 2 ^ 40 * v <= 2 ^ (- expo s).
Proof.
  intros Hv s.
  pose proof (expo_round_pos 2048 v) as He. fold s in He. rewrite log2_2048 in He.
  pose proof (Z.log2_nonneg v) as Hl.
  assert (He0 : expo s <= 0) by lia.
  pose proof (mant_round_pos 2048 v He0) as Hm. fold s in Hm.
  set (k := - expo s) in *.
  split.
  - rewrite Hm. apply rne_lower. lia.
  - destruct (Z.log2_spec v Hv) as [_ Hu].
    assert (H : 2 ^ (41 + Z.log2 v) <= 2 ^ k) by (apply Z.pow_le_mono_r; lia).
    rewrite Z.pow_add_r in H by lia.
    rewrite Z.pow_succ_r in Hu by lia.
    assert (2 ^ 41 = 2 * 2 ^ 40) by reflexivity.
    assert (0 < 2 ^ 40) by reflexivity.
    nia.
Qed.

(** The scale [resize_if_needed] uses, from both sides. *)
Lemma scale_min_more h w :
  0 < h -> 0 < w ->
  let s := min (round_pos 2048 h) (round_pos 2048 w) in
  (8191 * 2 ^ (- expo s) <= 4 * (mant s * h) \/ 8191 * 2 ^ (- expo s) <= 4 * (mant s * w))
  /\ mant s * h * 2 ^ 40 <= (2048 * 2 ^ 40 + 1) * 2 ^ (- expo s)
  /\ mant s * w * 2 ^ 40 <= (2048 * 2 ^ 40 + 1) * 2 ^ (- expo s).
Proof.
  intros Hh Hw s.
  destruct (scale_facts h Hh) as (Eh & Mh & Uh & Th & _).
  destruct (scale_facts w Hw) as (Ew & Mw & Uw & Tw & _).
  destruct (scale_more h Hh) as (Lh & Fh).
  destruct (scale_more w Hw) as (Lw & Fw).
  set (sh := round_pos 2048 h) in *. set (sw := round_pos 2048 w) in *.
  destruct (min_cases sh sw ltac:(lia) ltac:(lia)) as (Hc & Gh & Gw).
  fold s in Hc, Gh, Gw. unfold fle in Gh, Gw.
  assert (Es : expo s <= 0) by (destruct Hc as [-> | ->]; lia).
  assert (Ms : 0 <= mant s) by (destruct Hc as [-> | ->]; lia).
  set (ks := - expo s) in *. set (kh := - expo sh) in *. set (kw := - expo sw) in *.
  assert (Pks : 0 < 2 ^ ks) by (apply Z.pow_pos_nonneg; lia).
  assert (Pkh : 0 < 2 ^ kh) by (apply Z.pow_pos_nonneg; lia).
  assert (Pkw : 0 < 2 ^ kw) by (apply Z.pow_pos_nonneg; lia).
  assert (P40 : 0 < 2 ^ 40) by reflexivity.
  assert (U : forall v sv, 0 < v -> 0 < 2 ^ (- expo sv) ->
                mant s * 2 ^ (- expo sv) <= mant sv * 2 ^ ks ->
                mant sv * v <= 2048 * 2 ^ (- expo sv) + v ->
                2 ^ 40 * v <= 2 ^ (- expo sv) ->
                mant s * v * 2 ^ 40 <= (2048 * 2 ^ 40 + 1) * 2 ^ ks).
  { intros v sv Hv Pk G Up F. set (k := - expo sv) in *.
    assert (A1 : mant s * 2 ^ k * v <= mant sv * v * 2 ^ ks) by nia.
    assert (A2 : mant sv * v * 2 ^ ks <= (2048 * 2 ^ k + v) * 2 ^ ks) by nia.
    assert (A3 : v * 2 ^ 40 * 2 ^ ks <= 2 ^ k * 2 ^ ks) by nia.
    assert (A4 : mant s * v * 2 ^ 40 * 2 ^ k <= (2048 * 2 ^ 40 + 1) * 2 ^ ks * 2 ^ k) by nia.
    nia. }
  split; [|split].
  - destruct Hc as [Hc|Hc].
    + left. unfold ks. rewrite Hc. fold kh. lia.
    + right. unfold ks. rewrite Hc. fold kw. lia.
  - apply (U h sh); assumption.
  - apply (U w sw); assumption.
Qed.

End PyFloatBounds.

Import PyFloatBounds.

Section Ceiling.

Variables h w : Z.
Hypothesis Hh : 0 < h <= cv2.int_max.
Hypothesis Hw : 0 < w <= cv2.int_max.
Hypothesis Hbig : 2048 < h \/ 2048 < w.

Let s := PyFloat.min (PyFloat.round_pos 2048 h) (PyFloat.round_pos 2048 w).

Lemma clamped_hw_scale :
  clamped_hw h w = (PyFloat.int (PyFloat.mul_int h s), PyFloat.int (PyFloat.mul_int w s)).
Proof.
  unfold clamped_hw, max_dimension.
  replace ((h >? 2048) || (w >? 2048)) with true.
  - rewrite !round_ratio_pos by lia. reflexivity.
  - symmetry. apply orb_true_iff. destruct Hbig; [left|right]; apply Z.gtb_lt; lia.
Qed.

(** The longer side comes out as 2047 or 2048. *)
Lemma clamped_hw_longer :
  (w <= h -> 2047 <= fst (clamped_hw h w))
  /\ (h <= w -> 2047 <= snd (clamped_hw h w)).
Proof.
  rewrite clamped_hw_scale. cbn [fst snd].
  destruct (scale_min_facts h w ltac:(lia) ltac:(lia) Hbig) as (Es & Ms & O & _ & _).
  destruct (scale_min_more h w ltac:(lia) ltac:(lia)) as (L & _ & _).
  fold s in Es, Ms, O, L.
  set (ks := - PyFloat.expo s) in *.
  assert (Pks : 0 < 2 ^ ks) by (apply Z.pow_pos_nonneg; lia).
  assert (I : cv2.int_max < 2 ^ 31) by reflexivity.
  assert (P53 : 2 ^ 53 = 2 ^ 31 * 2 ^ 22) by reflexivity.
  assert (P31 : 0 < 2 ^ 31) by reflexivity.
  split; intros Hle.
  - apply int_mul_int_lower; try assumption; fold ks; nia.
  - apply int_mul_int_lower; try assumption; fold ks; nia.
Qed.

(** No side vanishes while the sides are within 2047 : 1 of each other. *)
Lemma clamped_hw_positive :
  Z.max h w <= 2047 * Z.min h w ->
  1 <= fst (clamped_hw h w) /\ 1 <= snd (clamped_hw h w).
Proof.
  intros R. rewrite clamped_hw_scale. cbn [fst snd].
  destruct (scale_min_facts h w ltac:(lia) ltac:(lia) Hbig) as (Es & Ms & O & _ & _).
  destruct (scale_min_more h w ltac:(lia) ltac:(lia)) as (L & _ & _).
  fold s in Es, Ms, O, L.
  set (ks := - PyFloat.expo s) in *.
  assert (Pks : 0 < 2 ^ ks) by (apply Z.pow_pos_nonneg; lia).
  assert (I : cv2.int_max < 2 ^ 31) by reflexivity.
  assert (P53 : 2 ^ 53 = 2 ^ 31 * 2 ^ 22) by reflexivity.
  assert (P31 : 0 < 2 ^ 31) by reflexivity.
  split; apply int_mul_int_lower; try assumption; fold ks; nia.
Qed.

(** Beyond 2048 : 1 the shorter side rounds to nothing. *)
Lemma clamped_hw_vanishes :
  (2048 * w < h -> snd (clamped_hw h w) = 0)
  /\ (2048 * h < w -> fst (clamped_hw h w) = 0).
Proof.
  rewrite clamped_hw_scale. cbn [fst snd].
  destruct (scale_min_facts h w ltac:(lia) ltac:(lia) Hbig) as (Es & Ms & O & _ & _).
  destruct (scale_min_more h w ltac:(lia) ltac:(lia)) as (L & Uh & Uw).
  fold s in Es, Ms, O, L, Uh, Uw.
  destruct (int_mul_int_bounds h s Hh Es Ms) as (h0 & _).
  destruct (int_mul_int_bounds w s Hw Es Ms) as (w0 & _).
  set (ks := - PyFloat.expo s) in *.
  assert (Pks : 0 < 2 ^ ks) by (apply Z.pow_pos_nonneg; lia).
  assert (I : cv2.int_max < 2 ^ 31) by reflexivity.
  assert (P31 : 2 ^ 31 = 2147483648) by reflexivity.
  assert (P40 : 2 ^ 40 = 1099511627776) by reflexivity.
  assert (P32 : 2 ^ 32 = 4294967296) by reflexivity.
  assert (P52 : 2 ^ 52 = 4503599627370496) by reflexivity.
  (* the scale is at least 2047 / 2^31 *)
  assert (X : 2047 * 512 * 2 ^ ks <= PyFloat.mant s * 2 ^ 40).
  { rewrite P40. destruct L as [L|L]; nia. }
  rewrite P40 in *.
  split; intros R.
  - assert (S1 : (2048 * w + 1) * PyFloat.mant s <= h * PyFloat.mant s)
      by (apply Z.mul_le_mono_nonneg_r; lia).
    assert (B : PyFloat.int (PyFloat.mul_int w s) * 2 ^ 32 <= 2 ^ 32 - 1).
    { apply int_mul_int_upper; try assumption; try lia. fold ks. rewrite P32. lia. }
    rewrite P32 in B. lia.
  - assert (S1 : (2048 * h + 1) * PyFloat.mant s <= w * PyFloat.mant s)
      by (apply Z.mul_le_mono_nonneg_r; lia).
    assert (B : PyFloat.int (PyFloat.mul_int h s) * 2 ^ 32 <= 2 ^ 32 - 1).
    { apply int_mul_int_upper; try assumption; try lia. fold ks. rewrite P32. lia. }
    rewrite P32 in B. lia.
Qed.

End Ceiling.

(** ** The size ceiling, in numbers *)

(** When [resize_if_needed] shrinks a PixelBuffer, the longer side of what it
    returns is 2047 or 2048 pixels: the scale is rounded twice, which can
    cost the last pixel but no more. *)
Theorem resize_if_needed_longer_side img r :
  valid_buffer img = true ->
  max_dimension < Z.max (fst (hw img)) (snd (hw img)) ->
  resize_if_needed img = Ok r ->
  2047 <= Z.max (fst (hw r)) (snd (hw r)) <= max_dimension
  /\ (snd (hw img) <= fst (hw img) -> 2047 <= fst (hw r))
  /\ (fst (hw img) <= snd (hw img) -> 2047 <= snd (hw r)).
Proof.
  intros V Big E.
  destruct (valid_hw_pos img V) as [Ph Pw].
  destruct (valid_pixel_matrix img V) as (c & [M _] & C & _).
  set (h := fst (hw img)) in *. set (w := snd (hw img)) in *.
  assert (Hbig : 2048 < h \/ 2048 < w) by (unfold max_dimension in Big; lia).
  destruct (resize_if_needed_mat img h w c M ltac:(lia)) as [[_ F]|[_ (r' & E' & M' & _)]].
  - rewrite F in E. discriminate.
  - rewrite E' in E. apply Ok_inj in E. subst r'.
    destruct (mat_u8_hw _ _ _ _ M') as [_ ->]. cbn [fst snd].
    destruct (clamped_hw_longer h w Ph Pw Hbig) as [L1 L2].
    destruct (clamped_hw_bounds h w Ph Pw) as (_ & _ & U1 & U2).
    unfold max_dimension. conj; try assumption; lia.
Qed.

Lemma target_dims a b :
  valid_buffer a = true -> valid_buffer b = true ->
  0 < Z.min (fst (hw a)) (fst (hw b)) <= cv2.int_max
  /\ 0 < Z.min (snd (hw a)) (snd (hw b)) <= cv2.int_max.
Proof.
  intros Va Vb. destruct (valid_hw_pos a Va), (valid_hw_pos b Vb). lia.
Qed.

(** With [th] and [tw] the smaller height and the smaller width of two
    PixelBuffers: both operations return when neither exceeds 2048 or when
    the longer is at most 2047 times the shorter, and both raise
    [cv2.error] when the longer exceeds 2048 and is more than 2048 times the
    shorter. *)
Theorem operations_return_by_aspect a b :
  valid_buffer a = true -> valid_buffer b = true ->
  let th := Z.min (fst (hw a)) (fst (hw b)) in
  let tw := Z.min (snd (hw a)) (snd (hw b)) in
  (Z.max th tw <= max_dimension \/ Z.max th tw <= 2047 * Z.min th tw ->
   exists r1 r2, logical_and a b = Ok r1 /\ union_operation a b = Ok r2)
  /\ (max_dimension < Z.max th tw -> max_dimension * Z.min th tw < Z.max th tw ->
      logical_and a b = Raise cv2_error /\ union_operation a b = Raise cv2_error).
Proof.
  intros Va Vb th tw.
  destruct (target_dims a b Va Vb) as [Ph Pw]. fold th in Ph. fold tw in Pw.
  pose proof (target_hw_eq a b) as K. fold th tw in K.
  unfold max_dimension. split.
  - intros R. apply (pipeline_returns a b Va Vb). rewrite K.
    destruct (Z_le_gt_dec (Z.max th tw) 2048) as [S|B].
    + rewrite clamped_hw_small by (unfold max_dimension; lia).
      apply size_empty_pos; simpl; lia.
    + assert (Hbig : 2048 < th \/ 2048 < tw) by lia.
      destruct (clamped_hw_positive th tw Ph Pw Hbig ltac:(lia)).
      apply size_empty_pos; lia.
  - intros B R. apply (pipeline_fails_when_ceiling_vanishes a b Va Vb). rewrite K.
    assert (Hbig : 2048 < th \/ 2048 < tw) by lia.
    destruct (clamped_hw_vanishes th tw Ph Pw Hbig) as [Zw Zh].
    unfold cv2.size_empty. apply orb_true_iff.
    destruct (Z_le_gt_dec tw th).
    + right. rewrite Zw by lia. reflexivity.
    + left. rewrite Zh by lia. reflexivity.
Qed.

Lemma resize_if_needed_longer_side_witness :
  let r := mk_ndarray [2048; 1] uint8 (repeat 0 2048) in
  2047 <= Z.max (fst (hw r)) (snd (hw r)) <= max_dimension
  /\ (snd (hw (thin_gray 2 0)) <= fst (hw (thin_gray 2 0)) -> 2047 <= fst (hw r))
  /\ (fst (hw (thin_gray 2 0)) <= snd (hw (thin_gray 2 0)) -> 2047 <= snd (hw r)).
Proof.
  assert (V : valid_buffer (thin_gray 2 0) = true) by (vm_compute; reflexivity).
  assert (B : max_dimension < Z.max (fst (hw (thin_gray 2 0))) (snd (hw (thin_gray 2 0))))
    by (vm_compute; reflexivity).
  assert (E : resize_if_needed (thin_gray 2 0)
              = Ok (mk_ndarray [2048; 1] uint8 (repeat 0 2048)))
    by (vm_compute; reflexivity).
  exact (resize_if_needed_longer_side (thin_gray 2 0) _ V B E).
Defined.

Lemma operations_return_by_aspect_witness :
  (exists r1 r2, logical_and white_4x4 black_2x2 = Ok r1
                 /\ union_operation white_4x4 black_2x2 = Ok r2)
  /\ logical_and (thin_gray 1 0) (thin_gray 2 0) = Raise cv2_error
  /\ union_operation (thin_gray 1 0) (thin_gray 2 0) = Raise cv2_error.
Proof.
  assert (V1 : valid_buffer (thin_gray 1 0) = true) by (vm_compute; reflexivity).
  assert (V2 : valid_buffer (thin_gray 2 0) = true) by (vm_compute; reflexivity).
  split.
  - apply (proj1 (operations_return_by_aspect white_4x4 black_2x2 eq_refl eq_refl)).
    left. vm_compute. discriminate.
  - apply (proj2 (operations_return_by_aspect (thin_gray 1 0) (thin_gray 2 0) V1 V2));
      vm_compute; reflexivity.
Defined.

(** *** Area averaging stays within the range of its source *)

Lemma cover_nonneg dn sn di si wt :
  0 < dn -> In (si, wt) (cv2.cover dn sn di) -> 0 <= wt.
Proof.
  intros Hd Hin. unfold cv2.cover in Hin. apply in_map_iff in Hin.
  destruct Hin as (k & E & _). inversion E; subst. unfold cv2.clamp. nia.
Qed.

Lemma nth_in_range (l : list Z) k :
  Forall (fun v => 0 <= v <= 255) l -> 0 <= nth k l 0 <= 255.
Proof.
  intros F. destruct (Nat.lt_ge_cases k (length l)) as [H|H].
  - rewrite Forall_forall in F. apply F. apply nth_In. exact H.
  - rewrite nth_overflow by exact H. lia.
Qed.

Lemma weighted_row_range (g : Z -> Z) wy cx :
  0 <= wy -> (forall sx wx, In (sx, wx) cx -> 0 <= wx) ->
  (forall sx, 0 <= g sx <= 255) ->
  0 <= zsum (map (fun '(sx, wx) => wy * wx * g sx) cx) <= 255 * (wy * zsum (map snd cx)).
Proof.
  intros Hy Hx Hg. unfold zsum.
  induction cx as [|[sx wx] cx IH]; cbn [map fold_right snd]; [lia|].
  specialize (IH ltac:(intros; eapply Hx; simpl; eauto)).
  pose proof (Hx sx wx ltac:(simpl; auto)) as Hwx. pose proof (Hg sx) as Hv.
  assert (0 <= wy * wx) by nia.
  assert (0 <= wy * wx * g sx <= 255 * (wy * wx)) by nia.
  lia.
Qed.

Lemma area_sum_range src sw c cy cx ch :
  (forall sy wy, In (sy, wy) cy -> 0 <= wy) ->
  (forall sx wx, In (sx, wx) cx -> 0 <= wx) ->
  Forall (fun v => 0 <= v <= 255) src ->
  0 <= cv2.area_sum src sw c cy cx ch <= 255 * (zsum (map snd cy) * zsum (map snd cx)).
Proof.
  intros Hy Hx F. unfold cv2.area_sum.
  induction cy as [|[sy wy] cy IH]; [simpl; lia|].
  specialize (IH ltac:(intros; eapply Hy; simpl; eauto)).
  pose proof (Hy sy wy ltac:(simpl; auto)) as Hwy.
  unfold zsum in *. cbn [map fold_right snd].
  pose proof (weighted_row_range
                (fun sx => nth (Z.to_nat ((sy * sw + sx) * c + ch)) src 0) wy cx Hwy Hx
                ltac:(intros; apply nth_in_range; exact F)) as R.
  cbv beta in R. unfold zsum in R. lia.
Qed.

Lemma inter_area_range src sh sw c dh dw :
  0 < dh <= sh -> 0 < dw <= sw ->
  Forall (fun v => 0 <= v <= 255) src ->
  Forall (fun v => 0 <= v <= 255) (cv2.inter_area src sh sw c dh dw).
Proof.
  intros Hh Hw F. apply Forall_forall. intros x Hx. unfold cv2.inter_area in Hx.
  apply in_flat_map in Hx. destruct Hx as (dy & Hdy & Hx).
  apply in_flat_map in Hx. destruct Hx as (dx & Hdx & Hx).
  apply in_map_iff in Hx. destruct Hx as (ch & <- & Hch).
  apply In_zrange in Hdy, Hdx.
  destruct (cover_spec dh sh dy ltac:(lia) Hdy) as [_ Sy].
  destruct (cover_spec dw sw dx ltac:(lia) Hdx) as [_ Sx].
  pose proof (area_sum_range src sw c (cv2.cover dh sh dy) (cv2.cover dw sw dx) ch
                ltac:(intros; eapply cover_nonneg; [|eassumption]; lia)
                ltac:(intros; eapply cover_nonneg; [|eassumption]; lia) F) as R.
  rewrite Sy, Sx in R. split.
  - apply rne_nonneg; nia.
  - apply rne_le_int; nia.
Qed.

Lemma range_resize img dsize r :
  cv2.resize img dsize = Ok r ->
  Forall (fun v => 0 <= v <= 255) (data img) -> Forall (fun v => 0 <= v <= 255) (data r).
Proof.
  intros R F. destruct (resize_Ok_inv _ _ _ R) as (sh & sw & c & M & _ & _ & Bh & Bw & E).
  rewrite E. destruct ((snd dsize =? sh) && (fst dsize =? sw)); [exact F|].
  apply inter_area_range; auto.
Qed.

Lemma range_resized a a2 :
  resized a a2 ->
  Forall (fun v => 0 <= v <= 255) (data a) -> Forall (fun v => 0 <= v <= 255) (data a2).
Proof.
  induction 1; intros F; [exact F|]. apply IHresized. eapply range_resize; eassumption.
Qed.

Lemma range_forallb l : Forall (fun v => 0 <= v <= 255) l -> forallb is_u8 l = true.
Proof.
  intros F. apply forallb_forall. intros v Hv. rewrite Forall_forall in F.
  specialize (F v Hv). unfold is_u8. apply andb_true_intro. split; apply Z.leb_le; lia.
Qed.

(** A well-formed matrix of one or three channels with values of eight
    bits is a buffer. *)
Lemma pixel_matrix_valid img h w c :
  pixel_matrix img h w c -> c = 1 \/ c = 3 -> well_formed img ->
  Forall (fun v => 0 <= v <= 255) (data img) ->
  valid_buffer img = true /\ hw img = (h, w) /\ channel_count img = c.
Proof.
  intros [(D & M & Ph & Pw) S] C W F.
  destruct (mat_dims_inv _ _ _ _ M) as (Bh & Bw & _).
  destruct (mat_dims_hw _ _ _ _ M) as (H & _ & CC).
  unfold well_formed in W. rewrite M in W.
  split; [|auto].
  unfold valid_buffer, dims_ok, content_ok. rewrite S, D, (range_forallb _ F).
  destruct C as [-> | ->]; cbn [cv2.mat_shape Z.eqb Pos.eqb dtype_eqb];
    rewrite !andb_true_iff, ?Z.ltb_lt, ?Z.leb_le, ?Z.eqb_eq; conj; try reflexivity; lia.
Qed.

Lemma valid_channel_count img :
  valid_buffer img = true -> channel_count img = 1 \/ channel_count img = 3.
Proof.
  intros V. destruct (valid_pixel_matrix img V) as (c & [(_ & M & _) _] & C & _).
  destruct (mat_dims_hw _ _ _ _ M) as (_ & _ & ->). exact C.
Qed.

(** A buffer after successful calls of [cv2.resize], read as an [h] x [w]
    matrix, is a buffer of that size with the same channels. *)
Lemma resized_buffer a a1 h w :
  valid_buffer a = true ->
  mat_u8 a1 h w (channel_count a) ->
  a1 = a \/ pixel_matrix a1 h w (channel_count a) ->
  resized a a1 ->
  valid_buffer a1 = true /\ hw a1 = (h, w) /\ channel_count a1 = channel_count a.
Proof.
  intros V M K R.
  destruct (valid_pixel_matrix a V) as (c & P & C & _ & F).
  assert (E : channel_count a = c).
  { destruct P as [(_ & Ma & _) _]. destruct (mat_dims_hw _ _ _ _ Ma) as (_ & _ & E). exact E. }
  rewrite E in *.
  pose proof (kept_pixel_matrix a a1 _ _ _ _ _ P M K) as P1.
  exact (pixel_matrix_valid a1 _ _ _ P1 C (well_formed_resized _ _ R (valid_well_formed a V))
           (range_resized _ _ R F)).
Qed.

Lemma valid_channels_le img : valid_buffer img = true -> channel_count img <= 4.
Proof.
  intros V. destruct (valid_pixel_matrix img V) as (c & [(_ & M & _) _] & C & _).
  destruct (mat_dims_hw _ _ _ _ M) as (_ & _ & ->). lia.
Qed.

Lemma valid_mat_u8 img :
  valid_buffer img = true ->
  mat_u8 img (fst (hw img)) (snd (hw img)) (channel_count img).
Proof.
  intros V. destruct (valid_pixel_matrix img V) as (c & [M _] & _).
  pose proof M as (_ & Md & _). destruct (mat_dims_hw _ _ _ _ Md) as (_ & _ & ->). exact M.
Qed.

(** [resize_to_match] returns for every two PixelBuffers, and what it
    returns are two PixelBuffers of one size, the smaller height and the
    smaller width, each with the channels of its input. *)
Theorem resize_to_match_valid a b :
  valid_buffer a = true -> valid_buffer b = true ->
  exists a' b',
    resize_to_match a b = Ok (a', b')
    /\ valid_buffer a' = true /\ valid_buffer b' = true
    /\ hw a' = (Z.min (fst (hw a)) (fst (hw b)), Z.min (snd (hw a)) (snd (hw b)))
    /\ hw b' = hw a'
    /\ channel_count a' = channel_count a /\ channel_count b' = channel_count b.
Proof.
  intros Va Vb.
  destruct (resize_to_match_mat a b _ _ _ _ _ _ (valid_mat_u8 a Va) (valid_mat_u8 b Vb)
              (valid_channels_le a Va) (valid_channels_le b Vb))
    as (a1 & b1 & E & Ma1 & Mb1 & Ka & Kb & Ra & Rb & _).
  destruct (resized_buffer a a1 _ _ Va Ma1 Ka Ra) as (Va1 & Ha1 & Ca1).
  destruct (resized_buffer b b1 _ _ Vb Mb1 Kb Rb) as (Vb1 & Hb1 & Cb1).
  exists a1, b1. conj; try assumption. congruence.
Qed.

(** On a PixelBuffer [optimize_memory_usage] is [resize_if_needed]: what it
    returns is a PixelBuffer of the clamped size with the same channels. *)
Theorem optimize_memory_usage_valid img r :
  valid_buffer img = true -> optimize_memory_usage img = Ok r ->
  valid_buffer r = true
  /\ resize_if_needed img = Ok r
  /\ hw r = clamped_hw (fst (hw img)) (snd (hw img))
  /\ channel_count r = channel_count img.
Proof.
  intros V E.
  destruct (optimize_memory_usage_mat img _ _ _ (valid_mat_u8 img V) (valid_channels_le img V))
    as [[_ X]|[_ (r' & E' & R & M' & K & Rz)]].
  - rewrite X in E. discriminate.
  - rewrite E' in E. apply Ok_inj in E. subst r'.
    destruct (resized_buffer img r _ _ V M' K Rz) as (Vr & Hr & Cr).
    conj; try assumption.
    rewrite Hr. destruct (clamped_hw _ _). reflexivity.
Qed.

Lemma resize_to_match_valid_witness :
  exists a' b',
    resize_to_match white_4x4 black_2x2 = Ok (a', b')
    /\ valid_buffer a' = true /\ valid_buffer b' = true
    /\ hw a' = (Z.min (fst (hw white_4x4)) (fst (hw black_2x2)),
                Z.min (snd (hw white_4x4)) (snd (hw black_2x2)))
    /\ hw b' = hw a'
    /\ channel_count a' = channel_count white_4x4
    /\ channel_count b' = channel_count black_2x2.
Proof. exact (resize_to_match_valid white_4x4 black_2x2 eq_refl eq_refl). Defined.

Lemma optimize_memory_usage_valid_witness :
  valid_buffer bgr_2x2 = true
  /\ resize_if_needed bgr_2x2 = Ok bgr_2x2
  /\ hw bgr_2x2 = clamped_hw (fst (hw bgr_2x2)) (snd (hw bgr_2x2))
  /\ channel_count bgr_2x2 = channel_count bgr_2x2.
Proof. exact (optimize_memory_usage_valid bgr_2x2 bgr_2x2 eq_refl eq_refl). Defined.

Lemma shape_eqb_eq s t : cv2.shape_eqb s t = true <-> s = t.
Proof.
  unfold cv2.shape_eqb. destruct (list_eq_dec Z.eq_dec s t); split; auto; discriminate.
Qed.

(** The shape of a buffer, from its size and its channel count. *)
Lemma valid_shape img :
  valid_buffer img = true ->
  shape img = cv2.mat_shape (fst (hw img)) (snd (hw img)) (channel_count img).
Proof.
  intros V. destruct (valid_pixel_matrix img V) as (c & [(_ & M & _) S] & _).
  destruct (mat_dims_hw _ _ _ _ M) as (_ & _ & ->). exact S.
Qed.

(** When [validate_dimensions] holds of two PixelBuffers, [resize_to_match]
    returns them as they are; for two buffers of one channel count the
    converse holds too. *)
Theorem validate_dimensions_resize a b :
  valid_buffer a = true -> valid_buffer b = true ->
  (validate_dimensions a b = true -> resize_to_match a b = Ok (a, b))
  /\ (channel_count a = channel_count b ->
      resize_to_match a b = Ok (a, b) -> validate_dimensions a b = true).
Proof.
  intros Va Vb. unfold validate_dimensions. rewrite shape_eqb_eq. split.
  - intros E. unfold resize_to_match.
    rewrite (shape_hw_shape a b E), (valid_shape_hw b Vb).
    destruct (hw b) as [h w]. cbn [bind]. rewrite !Z.eqb_refl. reflexivity.
  - intros C R.
    destruct (valid_pixel_matrix a Va) as (ca & [Ma _] & Ca & _).
    destruct (valid_pixel_matrix b Vb) as (cb & [Mb _] & Cb & _).
    destruct (resize_to_match_mat a b _ _ _ _ _ _ Ma Mb ltac:(lia) ltac:(lia))
      as (a1 & b1 & E & Ma1 & Mb1 & _).
    rewrite E in R. apply Ok_inj in R. injection R as -> ->.
    destruct (mat_u8_hw _ _ _ _ Ma1) as [_ Ha]. destruct (mat_u8_hw _ _ _ _ Mb1) as [_ Hb].
    rewrite (valid_shape a Va), (valid_shape b Vb), C.
    assert (H : hw a = hw b) by congruence. rewrite H. reflexivity.
Qed.

Lemma validate_dimensions_resize_witness :
  resize_to_match checker_2x2 black_2x2 = Ok (checker_2x2, black_2x2)
  /\ validate_dimensions checker_2x2 black_2x2 = true.
Proof.
  split.
  - apply (proj1 (validate_dimensions_resize checker_2x2 black_2x2 eq_refl eq_refl)).
    reflexivity.
  - apply (proj2 (validate_dimensions_resize checker_2x2 black_2x2 eq_refl eq_refl));
      reflexivity.
Defined.

(** ** The order of the operands *)

Lemma resize_to_match_swap a b a1 b1 :
  resize_to_match a b = Ok (a1, b1) -> resize_to_match b a = Ok (b1, a1).
Proof.
  unfold resize_to_match.
  destruct (shape_hw a) as [[h1 w1]| |]; try discriminate.
  destruct (shape_hw b) as [[h2 w2]| |]; try discriminate.
  cbn [bind]. rewrite (Z.eqb_sym h2 h1), (Z.eqb_sym w2 w1).
  destruct ((h1 =? h2) && (w1 =? w2)).
  - intros E. apply Ok_inj in E. injection E as -> ->. reflexivity.
  - rewrite (Z.min_comm h2 h1), (Z.min_comm w2 w1).
    destruct (cv2.resize a (Z.min w1 w2, Z.min h1 h2)) as [ra| |]; try discriminate.
    destruct (cv2.resize b (Z.min w1 w2, Z.min h1 h2)) as [rb| |]; try discriminate.
    cbn [bind]. intros E. apply Ok_inj in E. injection E as -> ->. reflexivity.
Qed.

Lemma resize_to_match_same a b :
  shape_hw a = Ok (hw a) -> shape_hw b = Ok (hw b) -> hw a = hw b ->
  resize_to_match a b = Ok (a, b).
Proof.
  intros Sa Sb E. unfold resize_to_match. rewrite Sa, Sb, E.
  destruct (hw b) as [h w]. cbn [bind]. rewrite !Z.eqb_refl. reflexivity.
Qed.

(** Reconciling the sizes beforehand changes nothing. *)
Lemma pipeline_after_resize op a b a1 b1 :
  resize_to_match a b = Ok (a1, b1) ->
  shape_hw a1 = Ok (hw a1) -> shape_hw b1 = Ok (hw b1) -> hw a1 = hw b1 ->
  pipeline op a b = pipeline op a1 b1.
Proof.
  intros E Sa Sb H. unfold pipeline.
  rewrite E, (resize_to_match_same a1 b1 Sa Sb H). reflexivity.
Qed.

Lemma pipeline_comm_same_size f a b :
  (forall x y, f x y = f y x) ->
  valid_buffer a = true -> valid_buffer b = true -> hw a = hw b ->
  pipeline (cv2.bitwise f) a b = pipeline (cv2.bitwise f) b a.
Proof.
  intros Hf Va Vb Q.
  assert (K : target_hw b a = target_hw a b).
  { rewrite !target_hw_eq, Q. reflexivity. }
  destruct (valid_combine f a b Va Vb) as [_ [[E R]|(E & a2 & b2 & ca & cb & H)]];
    destruct (valid_combine f b a Vb Va) as [_ [[E' R']|(E' & b3 & a3 & cb' & ca' & H')]];
    rewrite K in *; try congruence.
  destruct H as (_ & _ & _ & _ & Same & _ & _ & C).
  destruct H' as (_ & _ & _ & _ & Same' & _ & _ & C').
  destruct (Same Q) as [Ra Rb]. destruct (Same' (eq_sym Q)) as [Rb' Ra'].
  rewrite Ra in Ra'. rewrite Rb in Rb'. apply Ok_inj in Ra', Rb'. subst a3 b3.
  rewrite C, C'. f_equal. f_equal. apply map2_comm. exact Hf.
Qed.

Lemma pipeline_comm f a b :
  (forall x y, f x y = f y x) ->
  valid_buffer a = true -> valid_buffer b = true ->
  pipeline (cv2.bitwise f) a b = pipeline (cv2.bitwise f) b a.
Proof.
  intros Hf Va Vb.
  destruct (resize_to_match_mat a b _ _ _ _ _ _ (valid_mat_u8 a Va) (valid_mat_u8 b Vb)
              (valid_channels_le a Va) (valid_channels_le b Vb))
    as (a1 & b1 & E & Ma1 & Mb1 & Ka & Kb & Ra & Rb & _).
  destruct (resized_buffer a a1 _ _ Va Ma1 Ka Ra) as (Va1 & Ha1 & _).
  destruct (resized_buffer b b1 _ _ Vb Mb1 Kb Rb) as (Vb1 & Hb1 & _).
  assert (H : hw b1 = hw a1) by congruence.
  pose proof (resize_to_match_swap a b a1 b1 E) as E'.
  rewrite (pipeline_after_resize _ a b a1 b1 E)
    by (try apply valid_shape_hw; try assumption; congruence).
  rewrite (pipeline_after_resize _ b a b1 a1 E')
    by (try apply valid_shape_hw; try assumption; congruence).
  apply pipeline_comm_same_size; try assumption. congruence.
Qed.

(** Both operations commute on any two PixelBuffers, of one size or not:
    the two orders give the same buffer, or fail alike. *)
Theorem combine_commutative_any_size a b :
  valid_buffer a = true -> valid_buffer b = true ->
  logical_and a b = logical_and b a /\ union_operation a b = union_operation b a.
Proof.
  intros Va Vb. rewrite !logical_and_combine, !union_operation_combine.
  split; apply pipeline_comm; try assumption; [apply Z.land_comm|apply Z.lor_comm].
Qed.

Lemma combine_commutative_any_size_witness :
  logical_and white_4x4 black_2x2 = logical_and black_2x2 white_4x4
  /\ union_operation white_4x4 black_2x2 = union_operation black_2x2 white_4x4.
Proof. exact (combine_commutative_any_size white_4x4 black_2x2 eq_refl eq_refl). Defined.

(** Reconciling the sizes beforehand changes nothing: on what
    [resize_to_match] returns for two PixelBuffers, [resize_to_match] is the
    identity and both operations give what they give on the inputs. *)
Theorem reconciled_operands a b a' b' :
  valid_buffer a = true -> valid_buffer b = true ->
  resize_to_match a b = Ok (a', b') ->
  resize_to_match a' b' = Ok (a', b')
  /\ logical_and a' b' = logical_and a b
  /\ union_operation a' b' = union_operation a b.
Proof.
  intros Va Vb E.
  destruct (resize_to_match_mat a b _ _ _ _ _ _ (valid_mat_u8 a Va) (valid_mat_u8 b Vb)
              (valid_channels_le a Va) (valid_channels_le b Vb))
    as (a1 & b1 & E1 & Ma1 & Mb1 & Ka & Kb & Ra & Rb & _).
  rewrite E1 in E. apply Ok_inj in E. injection E as -> ->.
  destruct (resized_buffer a a' _ _ Va Ma1 Ka Ra) as (Va1 & Ha1 & _).
  destruct (resized_buffer b b' _ _ Vb Mb1 Kb Rb) as (Vb1 & Hb1 & _).
  assert (H : hw a' = hw b') by congruence.
  pose proof (valid_shape_hw a' Va1) as Sa. pose proof (valid_shape_hw b' Vb1) as Sb.
  conj.
  - exact (resize_to_match_same a' b' Sa Sb H).
  - rewrite !logical_and_combine. symmetry.
    exact (pipeline_after_resize _ a b a' b' E1 Sa Sb H).
  - rewrite !union_operation_combine. symmetry.
    exact (pipeline_after_resize _ a b a' b' E1 Sa Sb H).
Qed.

Lemma reconciled_operands_witness :
  let a' := mk_ndarray [2; 2] uint8 [255; 255; 255; 255] in
  resize_to_match a' black_2x2 = Ok (a', black_2x2)
  /\ logical_and a' black_2x2 = logical_and white_4x4 black_2x2
  /\ union_operation a' black_2x2 = union_operation white_4x4 black_2x2.
Proof.
  apply (reconciled_operands white_4x4 black_2x2); reflexivity.
Defined.

(** ** Buffers of different sizes *)



(** ** What [get_image_info] tells about resizing *)

Lemma get_image_info_hw img info :
  get_image_info img = Ok info ->
  shape_hw img = Ok (info_height info, info_width info).
Proof.
  unfold get_image_info, shape_index, shape_hw.
  destruct (shape img) as [|h [|w s]]; cbn [nth_error bind]; try discriminate.
  destruct (if ndim img =? 2 then Ok (ndim img) else _) as [c| |]; cbn [bind]; try discriminate.
  intros E. apply Ok_inj in E. subst info. reflexivity.
Qed.

(** The height and width [get_image_info] reports are those
    [resize_if_needed] reads, and one of them exceeds 2048 exactly when
    [resize_if_needed] does not return the array as it is. *)
Theorem oversize_test_agrees img info :
  get_image_info img = Ok info ->
  info_height info = fst (hw img) /\ info_width info = snd (hw img)
  /\ ((info_width info >? 2048) || (info_height info >? 2048) = true
      <-> resize_if_needed img <> Ok img).
Proof.
  intros I. pose proof (get_image_info_hw img info I) as S.
  pose proof (shape_hw_hw _ _ _ S) as H. rewrite H. cbn [fst snd].
  conj; try reflexivity. split.
  - intros B R. destruct (resize_if_needed_within img img R) as (h & w & S' & Hh & Hw).
    rewrite S in S'. apply Ok_inj in S'. injection S' as E1 E2. subst h w.
    unfold max_dimension in Hh, Hw.
    apply orb_true_iff in B. destruct B as [B|B]; apply Z.gtb_lt in B; lia.
  - intros N. destruct ((info_width info >? 2048) || (info_height info >? 2048)) eqn:B;
      [reflexivity|].
    apply orb_false_iff in B. destruct B as [B1 B2].
    rewrite Z.gtb_ltb in B1, B2. apply Z.ltb_ge in B1, B2.
    destruct N. apply (resize_if_needed_small img _ _ S); unfold max_dimension; lia.
Qed.

Lemma oversize_test_agrees_witness :
  info_height (mk_info [2; 2; 3] 2 2 3 "uint8" 12) = fst (hw bgr_2x2)
  /\ info_width (mk_info [2; 2; 3] 2 2 3 "uint8" 12) = snd (hw bgr_2x2)
  /\ ((info_width (mk_info [2; 2; 3] 2 2 3 "uint8" 12) >? 2048)
      || (info_height (mk_info [2; 2; 3] 2 2 3 "uint8" 12) >? 2048) = true
      <-> resize_if_needed bgr_2x2 <> Ok bgr_2x2).
Proof. exact (oversize_test_agrees bgr_2x2 _ eq_refl). Defined.

(** ** File names *)

Module PyStrFacts.
Import PyStr.
Local Open Scope string_scope.

Lemma prefix_dot c s : String.prefix "." (String c s) = if ascii_dec "." c then true else false.
Proof.
  change (String.prefix "." (String c s))
    with (if ascii_dec "." c then String.prefix "" s else false).
  destruct (ascii_dec "." c); [destruct s|]; reflexivity.
Qed.

Lemma contains_dot_cons c s :
  contains "." (String c s) = if ascii_dec "." c then true else contains "." s.
Proof.
  change (contains "." (String c s))
    with (if String.prefix "." (String c s) then true else contains "." s).
  rewrite prefix_dot. destruct (ascii_dec "." c); reflexivity.
Qed.

Lemma split_cons sep c s :
  split sep (String c s)
  = if String.prefix sep (String c s)
    then EmptyString :: (let '(p, ps) := split_from sep s (String.length sep - 1) in p :: ps)
    else match split sep s with
         | p :: ps => String c p :: ps
         | [] => []
         end.
Proof.
  unfold split.
  change (split_from sep (String c s) 0)
    with (if String.prefix sep (String c s)
          then let '(p, ps) := split_from sep s (String.length sep - 1) in
               (EmptyString, p :: ps)
          else let '(p, ps) := split_from sep s 0 in (String c p, ps)).
  destruct (String.prefix sep (String c s)).
  - destruct (split_from sep s (String.length sep - 1)). reflexivity.
  - destruct (split_from sep s 0). reflexivity.
Qed.

Lemma split_dot_cons c s :
  split "." (String c s)
  = if ascii_dec "." c then EmptyString :: split "." s
    else match split "." s with
         | p :: ps => String c p :: ps
         | [] => []
         end.
Proof.
  rewrite split_cons, prefix_dot. destruct (ascii_dec "." c); reflexivity.
Qed.

Lemma split_nonempty sep s : split sep s <> [].
Proof. unfold split. destruct (split_from sep s 0). discriminate. Qed.

(** A name without a dot is one piece. *)
Lemma split_no_dot s : contains "." s = false -> split "." s = [s].
Proof.
  induction s as [|c s IH]; intros H; [reflexivity|].
  rewrite contains_dot_cons in H. rewrite split_dot_cons.
  destruct (ascii_dec "." c); [discriminate|].
  rewrite (IH H). reflexivity.
Qed.

(** Splitting at dots goes through concatenation at a dot. *)
Lemma split_dot_app stem rest :
  split "." (stem ++ "." ++ rest) = (split "." stem ++ split "." rest)%list.
Proof.
  induction stem as [|c stem IH].
  - change ("" ++ "." ++ rest) with (String "." rest). rewrite split_dot_cons.
    destruct (ascii_dec "." "."); [reflexivity|congruence].
  - change (String c stem ++ "." ++ rest) with (String c (stem ++ "." ++ rest)).
    rewrite !split_dot_cons, IH.
    destruct (ascii_dec "." c); [reflexivity|].
    destruct (split "." stem) as [|p ps] eqn:E; [destruct (split_nonempty _ _ E)|].
    reflexivity.
Qed.

(** Every name is dot-free or ends in a dot-free piece after its last dot. *)
Lemma last_dot s :
  contains "." s = false
  \/ exists stem ext, s = stem ++ "." ++ ext /\ contains "." ext = false.
Proof.
  induction s as [|c s IH]; [left; reflexivity|].
  destruct IH as [H|(stem & ext & -> & H)].
  - destruct (ascii_dec "." c) as [<-|N].
    + right. exists "", s. split; [reflexivity|exact H].
    + left. rewrite contains_dot_cons. destruct (ascii_dec "." c); [contradiction|exact H].
  - right. exists (String c stem), ext. split; [reflexivity|exact H].
Qed.

Lemma last_app_nonempty (l1 l2 : list string) d : l2 <> [] -> last (l1 ++ l2)%list d = last l2 d.
Proof.
  intros N. induction l1 as [|x l1 IH]; [reflexivity|].
  simpl. destruct (l1 ++ l2)%list eqn:E.
  - destruct l1; [simpl in E; contradiction|discriminate].
  - exact IH.
Qed.

(** The piece [validate_image_format] looks at. *)
Lemma last_split_ext stem ext :
  contains "." ext = false ->
  last (split "." ext) "" = ext /\ last (split "." (stem ++ "." ++ ext)) "" = ext.
Proof.
  intros H. rewrite split_dot_app, (split_no_dot ext H). split; [reflexivity|].
  rewrite last_app_nonempty by discriminate. reflexivity.
Qed.

End PyStrFacts.

Import PyStrFacts.

Lemma supported_extension ext :
  existsb (String.eqb ("." ++ ext)) supported_formats = true
  <-> In ext ["png"; "jpg"; "jpeg"]%string.
Proof.
  unfold supported_formats. split.
  - intros H. apply existsb_exists in H. destruct H as (x & I & E).
    apply String.eqb_eq in E. subst x. simpl in I.
    destruct I as [I|[I|[I|[]]]]; injection I as <-; simpl; auto.
  - intros I. apply existsb_exists. exists ("." ++ ext)%string.
    split; [|apply String.eqb_refl].
    simpl in I. destruct I as [<-|[<-|[<-|[]]]]; simpl; auto.
Qed.

(** [validate_image_format] accepts a name exactly when the text after its
    last dot, or the whole name when it has no dot, is [png], [jpg] or
    [jpeg] up to the case of its letters. *)
Theorem validate_image_format_last_segment f :
  validate_image_format (Some f) = true
  <-> exists stem ext,
        (UploadedFile.name f = ext \/ UploadedFile.name f = (stem ++ "." ++ ext)%string)
        /\ PyStr.contains "." ext = false
        /\ In (PyStr.lower ext) ["png"; "jpg"; "jpeg"]%string.
Proof.
  unfold validate_image_format. rewrite supported_extension. split.
  - intros I. destruct (last_dot (UploadedFile.name f)) as [H|(stem & ext & E & H)].
    + exists EmptyString, (UploadedFile.name f). conj; auto.
      rewrite (proj1 (last_split_ext EmptyString _ H)) in I. exact I.
    + exists stem, ext. conj; auto.
      rewrite E, (proj2 (last_split_ext stem ext H)) in I. exact I.
  - intros (stem & ext & [E|E] & H & I).
    + rewrite E, (proj1 (last_split_ext stem ext H)). exact I.
    + rewrite E, (proj2 (last_split_ext stem ext H)). exact I.
Qed.

(** ** Messages *)

(** A string splits into two pieces or more exactly when it contains the
    separator. *)
Lemma split_contains sep s :
  sep <> EmptyString ->
  PyStr.contains sep s = true <-> (2 <= length (PyStr.split sep s))%nat.
Proof.
  intros N. induction s as [|c s IH].
  - destruct sep; [contradiction|]. simpl. split; [discriminate|lia].
  - rewrite split_cons.
    change (PyStr.contains sep (String c s))
      with (if String.prefix sep (String c s) then true else PyStr.contains sep s).
    destruct (String.prefix sep (String c s)).
    + destruct (PyStr.split_from sep s (String.length sep - 1)). simpl. split; [lia|reflexivity].
    + rewrite IH. destruct (PyStr.split sep s) as [|p ps] eqn:E.
      * destruct (split_nonempty _ _ E).
      * simpl. reflexivity.
Qed.

(** [handle_processing_error] does nothing at all exactly for a
    [ValueError] whose text contains the size-mismatch marker and splits at
    [vs] into three pieces or more; in every other case it shows one
    message, with [st.error]. *)
Theorem handle_processing_error_display error :
  (handle_processing_error error = []
   <-> is_ValueError error = true
       /\ PyStr.contains "圖像尺寸不匹配" (text error) = true
       /\ (3 <= length (PyStr.split "vs" (text error)))%nat)
  /\ (handle_processing_error error <> [] ->
      exists body, shown (handle_processing_error error) = [st.error body]).
Proof.
  pose proof (split_contains "vs" (text error) ltac:(discriminate)) as C.
  unfold handle_processing_error.
  destruct (is_ValueError error).
  2:{ split; [split; [discriminate|intros (H & _); discriminate]|]. intros _. eexists. reflexivity. }
  destruct (PyStr.contains "圖像尺寸不匹配" (text error)).
  2:{ split; [split; [discriminate|intros (_ & H & _); discriminate]|]. intros _. eexists. reflexivity. }
  destruct (PyStr.contains "vs" (text error)).
  2:{ split; [split; [discriminate|]|].
      - intros (_ & _ & H). assert (2 <= length (PyStr.split "vs" (text error)))%nat by lia.
        apply C in H0. discriminate.
      - intros _. eexists. reflexivity. }
  assert (L : (2 <= length (PyStr.split "vs" (text error)))%nat) by (apply C; reflexivity).
  destruct (length (PyStr.split "vs" (text error)) =? 2)%nat eqn:E.
  - apply Nat.eqb_eq in E. split; [split; [discriminate|intros (_ & _ & H); lia]|].
    intros _. eexists. reflexivity.
  - apply Nat.eqb_neq in E. split; [split|].
    + intros _. conj; try reflexivity. lia.
    + reflexivity.
    + intros H. contradiction.
Qed.

(** ** The operations behind the button *)

(** [handle_operation] on two PixelBuffers: when the reconciled size is not
    empty it returns the buffer of the chosen operation and shows the
    success message; when it is empty it returns [None], shows the message
    for an unexpected error and logs it; an unknown operation type gives
    [None] and its own message without running anything. *)
Theorem handle_operation_outcome (str : exn -> string) a b :
  valid_buffer a = true -> valid_buffer b = true ->
  let spinner := display (st.spinner "正在處理圖像...") in
  let unexpected :=
    spinner :: display (st.error ("❌ 未預期的錯誤: " ++ str cv2_error))
            :: log_error (exception_of str cv2_error) "圖像處理" in
  (cv2.size_empty (fst (target_hw a b)) (snd (target_hw a b)) = false ->
   exists r1 r2,
     logical_and a b = Ok r1 /\ union_operation a b = Ok r2
     /\ handle_operation str a b "邏輯AND運算"
        = Ok (Some r1, [spinner; display (st.success "邏輯AND運算完成！")])
     /\ handle_operation str a b "聯合運算（OR）"
        = Ok (Some r2, [spinner; display (st.success "聯合運算完成！")]))
  /\ (cv2.size_empty (fst (target_hw a b)) (snd (target_hw a b)) = true ->
      handle_operation str a b "邏輯AND運算" = Ok (None, unexpected)
      /\ handle_operation str a b "聯合運算（OR）" = Ok (None, unexpected))
  /\ (forall operation_type,
        operation_type <> "邏輯AND運算"%string -> operation_type <> "聯合運算（OR）"%string ->
        handle_operation str a b operation_type
        = Ok (None, [spinner; display (st.error "未知的運算類型")])).
Proof.
  intros Va Vb spinner unexpected. conj.
  - intros N. destruct (pipeline_returns a b Va Vb N) as (r1 & r2 & E1 & E2).
    exists r1, r2. conj; try assumption.
    + unfold handle_operation. rewrite String.eqb_refl, E1. reflexivity.
    + unfold handle_operation.
      replace ("聯合運算（OR）" =? "邏輯AND運算")%string with false by reflexivity.
      rewrite String.eqb_refl, E2. reflexivity.
  - intros N. destruct (pipeline_fails_when_ceiling_vanishes a b Va Vb N) as [E1 E2]. split.
    + unfold handle_operation. rewrite String.eqb_refl, E1. reflexivity.
    + unfold handle_operation.
      replace ("聯合運算（OR）" =? "邏輯AND運算")%string with false by reflexivity.
      rewrite String.eqb_refl, E2. reflexivity.
  - intros op N1 N2. unfold handle_operation.
    apply String.eqb_neq in N1, N2. rewrite N1, N2. reflexivity.
Qed.

Lemma handle_operation_outcome_witness :
  exists r1 r2,
    logical_and white_4x4 black_2x2 = Ok r1 /\ union_operation white_4x4 black_2x2 = Ok r2
    /\ handle_operation (fun _ => "OpenCV assertion failed"%string) white_4x4 black_2x2
         "邏輯AND運算"
       = Ok (Some r1, [display (st.spinner "正在處理圖像...");
                       display (st.success "邏輯AND運算完成！")])
    /\ handle_operation (fun _ => "OpenCV assertion failed"%string) white_4x4 black_2x2
         "聯合運算（OR）"
       = Ok (Some r2, [display (st.spinner "正在處理圖像...");
                       display (st.success "聯合運算完成！")]).
Proof.
  apply (proj1 (handle_operation_outcome (fun _ => "OpenCV assertion failed"%string)
                  white_4x4 black_2x2 eq_refl eq_refl)).
  vm_compute. reflexivity.
Defined.

(** ** Between NumPy and PIL *)

Lemma swap_rb_involutive n l :
  length l = (3 * n)%nat -> cv2.swap_rb (cv2.swap_rb l) = l.
Proof.
  revert l. induction n as [|n IH]; intros l L.
  - destruct l; [reflexivity|discriminate].
  - destruct l as [|x [|y [|z rest]]]; try (simpl in L; lia).
    simpl. rewrite IH by (simpl in L; lia). reflexivity.
Qed.

Lemma swap_rb_keeps n l :
  length l = (3 * n)%nat ->
  length (cv2.swap_rb l) = length l
  /\ (forallb is_u8 l = true -> forallb is_u8 (cv2.swap_rb l) = true).
Proof.
  revert l. induction n as [|n IH]; intros l L.
  - destruct l; [split; auto|discriminate].
  - destruct l as [|x [|y [|z rest]]]; try (simpl in L; lia).
    destruct (IH rest ltac:(simpl in L; lia)) as [IL IF].
    cbn [cv2.swap_rb forallb length]. split; [lia|].
    intros H. apply andb_prop in H. destruct H as [Hx H].
    apply andb_prop in H. destruct H as [Hy H].
    apply andb_prop in H. destruct H as [Hz H].
    rewrite Hx, Hy, Hz, (IF H). reflexivity.
Qed.

Lemma drop_alpha_keeps n l :
  length l = (4 * n)%nat ->
  length (PIL.drop_alpha l) = (3 * n)%nat
  /\ (forallb is_u8 l = true -> forallb is_u8 (PIL.drop_alpha l) = true).
Proof.
  revert l. induction n as [|n IH]; intros l L.
  - destruct l; [split; auto|discriminate].
  - destruct l as [|x [|y [|z [|a rest]]]]; try (simpl in L; lia).
    destruct (IH rest ltac:(simpl in L; lia)) as [IL IF].
    cbn [PIL.drop_alpha forallb length]. split; [lia|].
    intros H. apply andb_prop in H. destruct H as [Hx H].
    apply andb_prop in H. destruct H as [Hy H].
    apply andb_prop in H. destruct H as [Hz H].
    apply andb_prop in H. destruct H as [_ H].
    rewrite Hx, Hy, Hz, (IF H). reflexivity.
Qed.

Lemma triple_keeps l :
  length (flat_map (fun v : Z => [v; v; v]) l) = (3 * length l)%nat
  /\ (forallb is_u8 l = true -> forallb is_u8 (flat_map (fun v => [v; v; v]) l) = true).
Proof.
  induction l as [|v l [IL IF]]; [split; auto|].
  cbn [flat_map app forallb length]. split; [lia|].
  intros H. apply andb_prop in H. destruct H as [Hv H].
  rewrite Hv, (IF H). reflexivity.
Qed.

Lemma multiple_of_three (l : list Z) h w :
  0 <= h -> 0 <= w ->
  Z.of_nat (length l) = h * w * 3 -> length l = (3 * Z.to_nat (h * w))%nat.
Proof. intros. nia. Qed.

Lemma dims_ok_bounds h w :
  dims_ok h w = true -> 0 < h <= cv2.int_max /\ 0 < w <= cv2.int_max.
Proof.
  unfold dims_ok. rewrite !andb_true_iff, !Z.ltb_lt, !Z.leb_le. lia.
Qed.

Lemma dims_ok_pos h w : dims_ok h w = true -> 0 < h /\ 0 < w.
Proof. intros D. destruct (dims_ok_bounds h w D). lia. Qed.

(** A colour buffer through [COLOR_BGR2RGB]. *)
Lemma cvtColor_BGR2RGB_colour h w d :
  dims_ok h w = true ->
  cv2.cvtColor_BGR2RGB (mk_ndarray [h; w; 3] uint8 d)
  = Ok (mk_ndarray [h; w; 3] uint8 (cv2.swap_rb d)).
Proof.
  intros D. destruct (dims_ok_bounds h w D) as [Bh Bw].
  unfold cv2.cvtColor_BGR2RGB.
  rewrite (mat_dims_shape [h; w; 3] uint8 d h w 3) by (try reflexivity; lia).
  simpl dtype_of. cbv beta iota. simpl negb. cbv iota.
  rewrite size_empty_pos by lia. reflexivity.
Qed.

Lemma valid_colour h w d :
  valid_buffer (mk_ndarray [h; w; 3] uint8 d) = true
  <-> dims_ok h w = true /\ Z.of_nat (length d) = h * w * 3 /\ forallb is_u8 d = true.
Proof.
  unfold valid_buffer, content_ok. cbn [shape dtype_of data].
  rewrite !andb_true_iff, !Z.eqb_eq. intuition auto.
Qed.

Lemma valid_gray h w d :
  valid_buffer (mk_ndarray [h; w] uint8 d) = true
  <-> dims_ok h w = true /\ Z.of_nat (length d) = h * w /\ forallb is_u8 d = true.
Proof.
  unfold valid_buffer, content_ok. cbn [shape dtype_of data].
  rewrite !andb_true_iff, !Z.eqb_eq. intuition auto.
Qed.


(** The two forms of a buffer. *)
Lemma valid_forms img :
  valid_buffer img = true ->
  (exists h w, img = mk_ndarray [h; w] uint8 (data img))
  \/ (exists h w, img = mk_ndarray [h; w; 3] uint8 (data img)).
Proof.
  destruct img as [s t d]. unfold valid_buffer, content_ok. cbn [shape dtype_of data].
  destruct s as [|h [|w [|c [|]]]]; try discriminate;
    rewrite !andb_true_iff, ?Z.eqb_eq; intros H.
  - destruct t; try (cbn in H; intuition discriminate). left. eauto.
  - destruct t; try (cbn in H; intuition discriminate).
    destruct H as [[-> _] _]. right. eauto.
Qed.

Lemma convert_colour h w d :
  valid_buffer (mk_ndarray [h; w; 3] uint8 d) = true ->
  convert_numpy_to_pil (mk_ndarray [h; w; 3] uint8 d)
  = Ok (PIL.mk PIL.RGB (w, h) (cv2.swap_rb d)).
Proof.
  intros V. apply valid_colour in V. destruct V as (D & L & F).
  destruct (dims_ok_pos h w D) as [Ph Pw].
  unfold convert_numpy_to_pil. simpl shape. cbv iota.
  rewrite (cvtColor_BGR2RGB_colour h w d D). cbn [bind].
  unfold PIL.fromarray. simpl.
  replace (0 <? h) with true by (symmetry; apply Z.ltb_lt; lia).
  replace (0 <? w) with true by (symmetry; apply Z.ltb_lt; lia).
  reflexivity.
Qed.

(** [convert_numpy_to_pil] on a PixelBuffer returns a picture of its width
    and height.  A grayscale buffer becomes an [L] picture with the same
    values and [convert_pil_to_numpy] gives the buffer back; a colour buffer
    becomes an [RGB] picture from which [convert_pil_to_numpy] and the
    channel swap of the loader give the buffer back. *)
Theorem convert_numpy_to_pil_round_trip img :
  valid_buffer img = true ->
  exists p,
    convert_numpy_to_pil img = Ok p
    /\ PIL.size p = (snd (hw img), fst (hw img))
    /\ (ndim img = 2 ->
        PIL.mode_of p = PIL.L /\ PIL.pixels p = data img
        /\ convert_pil_to_numpy p = Ok img)
    /\ (ndim img = 3 ->
        PIL.mode_of p = PIL.RGB
        /\ (np_image <- convert_pil_to_numpy p ;; cv2.cvtColor_RGB2BGR np_image) = Ok img).
Proof.
  intros V. destruct (valid_forms img V) as [(h & w & E)|(h & w & E)];
    destruct img as [s t d]; simpl data in E; injection E as -> ->.
  - apply valid_gray in V. destruct V as (D & L & F).
    destruct (dims_ok_pos h w D) as [Ph Pw].
    exists (PIL.mk PIL.L (w, h) d). conj.
    + unfold convert_numpy_to_pil, PIL.fromarray. simpl.
      replace (0 <? h) with true by (symmetry; apply Z.ltb_lt; lia).
      replace (0 <? w) with true by (symmetry; apply Z.ltb_lt; lia).
      reflexivity.
    + reflexivity.
    + intros _. conj; reflexivity.
    + unfold ndim. simpl. discriminate.
  - pose proof V as V0. apply valid_colour in V. destruct V as (D & L & F).
    destruct (dims_ok_pos h w D) as [Ph Pw].
    exists (PIL.mk PIL.RGB (w, h) (cv2.swap_rb d)). conj.
    + apply convert_colour. exact V0.
    + reflexivity.
    + unfold ndim. simpl. discriminate.
    + intros _. split; [reflexivity|].
      unfold convert_pil_to_numpy, PIL.to_array. simpl PIL.size. simpl PIL.mode_of. cbv iota beta.
      cbn [bind]. unfold cv2.cvtColor_RGB2BGR. simpl PIL.pixels.
      rewrite (cvtColor_BGR2RGB_colour h w _ D).
      rewrite (swap_rb_involutive (Z.to_nat (h * w))) by (apply multiple_of_three; lia).
      reflexivity.
Qed.

Lemma convert_numpy_to_pil_round_trip_witness :
  exists p,
    convert_numpy_to_pil bgr_2x2 = Ok p
    /\ PIL.size p = (snd (hw bgr_2x2), fst (hw bgr_2x2))
    /\ (ndim bgr_2x2 = 2 ->
        PIL.mode_of p = PIL.L /\ PIL.pixels p = data bgr_2x2
        /\ convert_pil_to_numpy p = Ok bgr_2x2)
    /\ (ndim bgr_2x2 = 3 ->
        PIL.mode_of p = PIL.RGB
        /\ (np_image <- convert_pil_to_numpy p ;; cv2.cvtColor_RGB2BGR np_image)
           = Ok bgr_2x2).
Proof. exact (convert_numpy_to_pil_round_trip bgr_2x2 eq_refl). Defined.

(** ** Loading an upload *)

(** An RGB picture on its way to the processor, and back. *)
Lemma rgb_to_buffer h w d :
  dims_ok h w = true -> Z.of_nat (length d) = h * w * 3 -> forallb is_u8 d = true ->
  let img := mk_ndarray [h; w; 3] uint8 (cv2.swap_rb d) in
  (np_image <- convert_pil_to_numpy (PIL.mk PIL.RGB (w, h) d) ;;
   cv2.cvtColor_RGB2BGR np_image) = Ok img
  /\ valid_buffer img = true
  /\ convert_numpy_to_pil img = Ok (PIL.mk PIL.RGB (w, h) d).
Proof.
  intros D L F img.
  destruct (dims_ok_pos h w D) as [Ph Pw].
  pose proof (multiple_of_three d h w ltac:(lia) ltac:(lia) L) as L3.
  destruct (swap_rb_keeps _ d L3) as [SL SF].
  assert (V : valid_buffer img = true).
  { apply valid_colour. conj; [exact D|rewrite SL; exact L|exact (SF F)]. }
  conj.
  - unfold convert_pil_to_numpy, PIL.to_array. cbn [PIL.size PIL.mode_of PIL.pixels bind].
    unfold cv2.cvtColor_RGB2BGR. apply cvtColor_BGR2RGB_colour. exact D.
  - exact V.
  - unfold img. rewrite (convert_colour h w _ V).
    rewrite (swap_rb_involutive _ d L3). reflexivity.
Qed.

(** When PIL opens the upload as a picture in mode [L], [RGB] or [RGBA],
    [load_image_from_upload] shows nothing and returns a PixelBuffer of
    three channels with the picture's height and width, which
    [convert_numpy_to_pil] turns back into the picture in [RGB]. *)
Theorem load_image_from_upload_valid (str : exn -> string) f im :
  UploadedFile.opened f = PIL.image im -> pil_valid im = true ->
  exists img rgb,
    load_image_from_upload str (Some f) = Ok (Some img, [])
    /\ valid_buffer img = true
    /\ shape img = [snd (PIL.size im); fst (PIL.size im); 3]
    /\ (if PIL.is_RGB (PIL.mode_of im) then Ok im else PIL.convert_RGB im) = Ok rgb
    /\ convert_numpy_to_pil img = Ok rgb.
Proof.
  intros O V. destruct im as [m [w h] d]. unfold pil_valid in V.
  cbn [PIL.size PIL.mode_of PIL.pixels] in V.
  rewrite !andb_true_iff, Z.eqb_eq, Z.leb_le in V. destruct V as [[[B D] L] F].
  destruct (dims_ok_pos h w D) as [Ph Pw].
  assert (S : forall d',
             Z.of_nat (length d') = h * w * 3 -> forallb is_u8 d' = true ->
             (pil_image <- (if negb (PIL.is_RGB m) then PIL.convert_RGB (PIL.mk m (w, h) d)
                            else Ok (PIL.mk m (w, h) d)) ;;
              np_image <- convert_pil_to_numpy pil_image ;;
              cv2.cvtColor_RGB2BGR np_image)
             = (np_image <- convert_pil_to_numpy (PIL.mk PIL.RGB (w, h) d') ;;
                cv2.cvtColor_RGB2BGR np_image) ->
             (if PIL.is_RGB m then Ok (PIL.mk m (w, h) d) else PIL.convert_RGB (PIL.mk m (w, h) d))
             = Ok (PIL.mk PIL.RGB (w, h) d') ->
             exists img rgb,
               load_image_from_upload str (Some f) = Ok (Some img, [])
               /\ valid_buffer img = true
               /\ shape img = [h; w; 3]
               /\ (if PIL.is_RGB m then Ok (PIL.mk m (w, h) d)
                   else PIL.convert_RGB (PIL.mk m (w, h) d)) = Ok rgb
               /\ convert_numpy_to_pil img = Ok rgb).
  { intros d' L' F' E1 E2.
    destruct (rgb_to_buffer h w d' D L' F') as (R1 & R2 & R3).
    exists (mk_ndarray [h; w; 3] uint8 (cv2.swap_rb d')), (PIL.mk PIL.RGB (w, h) d').
    conj; try assumption; try reflexivity.
    unfold load_image_from_upload. rewrite O. cbn [PIL.mode_of].
    rewrite E1, R1. reflexivity. }
  cbn [PIL.size PIL.mode_of fst snd].
  destruct m as [| | |name]; cbn [PIL.bands] in B, L.
  - destruct (triple_keeps d) as [TL TF].
    apply (S (flat_map (fun v => [v; v; v]) d)); try reflexivity; [rewrite TL; lia|exact (TF F)].
  - apply (S d); try reflexivity; assumption.
  - destruct (drop_alpha_keeps (Z.to_nat (h * w)) d ltac:(nia)) as [AL AF].
    apply (S (PIL.drop_alpha d)); try reflexivity; [rewrite AL; nia|exact (AF F)].
  - lia.
Qed.

Lemma load_image_from_upload_valid_witness :
  exists img rgb,
    load_image_from_upload (fun _ => "OpenCV assertion failed"%string) (Some scan_upload)
    = Ok (Some img, [])
    /\ valid_buffer img = true
    /\ shape img = [snd (PIL.size gray_scan); fst (PIL.size gray_scan); 3]
    /\ (if PIL.is_RGB (PIL.mode_of gray_scan) then Ok gray_scan
        else PIL.convert_RGB gray_scan) = Ok rgb
    /\ convert_numpy_to_pil img = Ok rgb.
Proof.
  exact (load_image_from_upload_valid (fun _ => "OpenCV assertion failed"%string)
           scan_upload gray_scan eq_refl eq_refl).
Defined.

(** ** The claims at sample buffers *)

Lemma combine_never_upsamples_witness :
  exists h w,
    shape (mk_ndarray [2; 2] uint8 [0; 0; 0; 0]) = [h; w]
    /\ h <= Z.min (fst (hw white_4x4)) (fst (hw black_2x2))
    /\ w <= Z.min (snd (hw white_4x4)) (snd (hw black_2x2))
    /\ h <= max_dimension /\ w <= max_dimension.
Proof.
  apply (combine_never_upsamples white_4x4 black_2x2).
  - reflexivity.
  - reflexivity.
  - left. vm_compute. reflexivity.
Defined.

Lemma combine_result_binary_witness :
  Forall (fun v => v = 0 \/ v = 255) (data (mk_ndarray [2; 2] uint8 [0; 255; 0; 0]))
  /\ shape (mk_ndarray [2; 2] uint8 [0; 255; 0; 0])
     = [fst (target_hw bgr_2x2 checker_2x2); snd (target_hw bgr_2x2 checker_2x2)]
  /\ dtype_of (mk_ndarray [2; 2] uint8 [0; 255; 0; 0]) = uint8
  /\ Z.of_nat (length (data (mk_ndarray [2; 2] uint8 [0; 255; 0; 0])))
     = fst (target_hw bgr_2x2 checker_2x2) * snd (target_hw bgr_2x2 checker_2x2).
Proof.
  apply (combine_result_binary bgr_2x2 checker_2x2).
  - reflexivity.
  - reflexivity.
  - left. vm_compute. reflexivity.
Defined.

Lemma combine_idempotent_witness :
  logical_and checker_2x2 checker_2x2 = Ok checker_2x2
  /\ union_operation checker_2x2 checker_2x2 = Ok checker_2x2.
Proof.
  apply (combine_idempotent checker_2x2 2 2).
  - reflexivity.
  - reflexivity.
  - unfold max_dimension. lia.
  - unfold max_dimension. lia.
  - reflexivity.
Defined.

Lemma combine_commutative_witness :
  logical_and bgr_2x2 checker_2x2 = logical_and checker_2x2 bgr_2x2
  /\ union_operation bgr_2x2 checker_2x2 = union_operation checker_2x2 bgr_2x2.
Proof.
  apply (combine_commutative bgr_2x2 checker_2x2); reflexivity.
Defined.

Lemma convert_to_binary_correct_witness :
  exists r,
    convert_to_binary bgr_2x2 = Ok r
    /\ shape r = [2; 2] /\ dtype_of r = uint8
    /\ Z.of_nat (length (data r)) = 2 * 2
    /\ (forall y x, 0 <= y < 2 -> 0 <= x < 2 ->
          let v := nth (Z.to_nat (y * 2 + x)) (data r) 0 in
          (127 < gray_at bgr_2x2 y x -> v = 255) /\ (gray_at bgr_2x2 y x <= 127 -> v = 0)).
Proof.
  exact (convert_to_binary_correct bgr_2x2 eq_refl).
Defined.

Lemma absorbing_operand_witness :
  mk_ndarray [2; 2] uint8 [0; 0; 0; 0]
  = mk_ndarray [fst (target_hw black_2x2 white_4x4); snd (target_hw black_2x2 white_4x4)] uint8
      (repeat 0 (Z.to_nat (fst (target_hw black_2x2 white_4x4)
                           * snd (target_hw black_2x2 white_4x4)))).
Proof.
  apply (proj1 (absorbing_operand_when_returned black_2x2 white_4x4
                  (mk_ndarray [2; 2] uint8 [0; 0; 0; 0]) eq_refl eq_refl)).
  - repeat constructor.
  - vm_compute. reflexivity.
Defined.

(** ** Checks by evaluation *)

(** The specification's first scenario: 4 x 4 white against 2 x 2 black. *)
Example scenario_white_black :
  logical_and white_4x4 black_2x2 = Ok (mk_ndarray [2; 2] uint8 [0; 0; 0; 0])
  /\ union_operation white_4x4 black_2x2 = Ok (mk_ndarray [2; 2] uint8 [255; 255; 255; 255]).
Proof. split; vm_compute; reflexivity. Qed.

(** A colour image against a checkerboard: blue and red are dark, green and
    white are light. *)
Example scenario_colour_checker :
  convert_to_binary bgr_2x2 = Ok (mk_ndarray [2; 2] uint8 [0; 255; 0; 255])
  /\ logical_and bgr_2x2 checker_2x2 = Ok (mk_ndarray [2; 2] uint8 [0; 255; 0; 0])
  /\ union_operation bgr_2x2 checker_2x2 = Ok (mk_ndarray [2; 2] uint8 [0; 255; 255; 255]).
Proof. repeat split; vm_compute; reflexivity. Qed.

(** Wrap-around comes before binarization: 256 and 300 are dark. *)
Example wraparound_before_binarization :
  logical_and int32_row int32_row = Ok (mk_ndarray [1; 2] uint8 [0; 0])
  /\ union_operation int32_row int32_row = Ok (mk_ndarray [1; 2] uint8 [0; 0]).
Proof. split; vm_compute; reflexivity. Qed.

(** Area averaging of a 3 x 3 ramp down to 2 x 2, and of 2 x 3 down to 1 x 2. *)
Example inter_area_ramp :
  cv2.resize (mk_ndarray [3; 3] uint8 [10; 20; 30; 40; 50; 60; 70; 80; 90]) (2, 2)
  = Ok (mk_ndarray [2; 2] uint8 [23; 37; 63; 77])
  /\ cv2.resize (mk_ndarray [2; 3] uint8 [1; 2; 3; 4; 5; 6]) (2, 1)
     = Ok (mk_ndarray [1; 2] uint8 [3; 4]).
Proof. split; vm_compute; reflexivity. Qed.

(** More than four channels shrink by a whole factor only. *)
Example resize_five_channels :
  cv2.resize (mk_ndarray [3; 3; 5] uint8 (repeat 7 45)) (2, 2) = Raise cv2_error
  /\ cv2.resize (mk_ndarray [4; 4; 5] uint8 (repeat 7 80)) (2, 2)
     = Ok (mk_ndarray [2; 2; 5] uint8 (repeat 7 20)).
Proof. split; vm_compute; reflexivity. Qed.

(** [PyFloat] and the Standard Library's binary64 compute the same sizes. *)
Example clamped_hw_agrees_with_binary64 :
  map (fun p => clamped_hw (fst p) (snd p)) sample_sizes
  = map (fun p => binary64_clamped_hw (fst p) (snd p)) sample_sizes.
Proof. vm_compute. reflexivity. Qed.

(** Rounding shows: the long side of 3333 x 3334 becomes 2047 where exact
    arithmetic gives 2048, and a strip loses its short side. *)
Example clamped_hw_samples :
  clamped_hw 3333 3334 = (2047, 2047) /\ clamped_hw 6000 4000 = (2048, 1365)
  /\ clamped_hw 2049 1 = (2048, 0) /\ clamped_hw 2049 2 = (2048, 1).
Proof. repeat split; vm_compute; reflexivity. Qed.

(** [str.split] as Python does it: pieces between dots, an empty piece
    after a trailing dot, occurrences taken from the left without overlap. *)
Example split_samples :
  PyStr.split "." "a.b.c" = ["a"; "b"; "c"]%string
  /\ PyStr.split "." "" = [""]%string
  /\ PyStr.split "." "abc." = ["abc"; ""]%string
  /\ PyStr.split "vs" "1 vs 2" = ["1 "; " 2"]%string
  /\ PyStr.split "aa" "aaaa" = [""; ""; ""]%string.
Proof. repeat split; vm_compute; reflexivity. Qed.

(** Names [validate_image_format] accepts and rejects: the case of the
    extension does not matter, a name that is nothing but an extension
    passes, and only the last extension counts. *)
Example upload_names :
  map (fun n => validate_image_format (Some (UploadedFile.mk n (PIL.failure ""))))
      ["a.PNG"; "png"; "x.tar.JpEg"; ".jpg"; "a.png.exe"; "a."; ""; "a.jpg "]%string
  = [true; true; true; true; false; false; false; false].
Proof. vm_compute. reflexivity. Qed.

(** A size-mismatch error that names three shapes is swallowed. *)
Example silent_processing_error :
  handle_processing_error (mk_exception true "ValueError" "圖像尺寸不匹配: 2x2 vs 3x3 vs 4x4") = []
  /\ handle_processing_error (mk_exception true "ValueError" "圖像尺寸不匹配: 2x2 vs 3x3")
     = [display (st.error "❌ 圖像尺寸不匹配，請確保兩個圖像具有相同的尺寸。")].
Proof. split; vm_compute; reflexivity. Qed.

(** A two-pixel grayscale scan comes out of the loader as a colour buffer. *)
Example load_scan :
  load_image_from_upload (fun _ => EmptyString) (Some scan_upload)
  = Ok (Some (mk_ndarray [1; 2; 3] uint8 [0; 0; 0; 255; 255; 255]), []).
Proof. vm_compute. reflexivity. Qed.

(** At exactly 2048 : 1 the shorter side can still vanish: 49 columns of
    100352 rows. *)
Example clamped_hw_at_2048_to_1 :
  clamped_hw 100352 49 = (2047, 0) /\ clamped_hw 4096 2 = (2048, 1).
Proof. split; vm_compute; reflexivity. Qed.
